(** * friend_of_restaurant: the CSV importers

    A shallow embedding of the three Python sources

    - [script/db_connection.py]            ([parse_decimal], the connection),
    - [script/import/import_product_list.py] (product and price-history import),
    - [script/import/import_bill.py]         (bill ledger posting),

    followed by the properties of the price-history reconciliation, of the
    bill arithmetic and of the transaction handling.

    Conventions of the embedding.

    - A Python [str] is a [string]; each [ascii] stands for the code point of
      the same number, so the text covered is the one made of the code points
      0..255.
    - [decimal.Decimal] is the triple sign / coefficient / exponent of the
      Python implementation, with the infinities and the NaNs; arithmetic is
      the one of the default context (28 digits, half-even, traps on
      InvalidOperation and Overflow).
    - [datetime] values are integers (a count of microseconds).
    - An exception is a value of [exn]; Python code that may raise lives in the
      monad [M] over the process state [world]. *)

From Stdlib Require Import ZArith NArith List String Ascii Bool Lia.
Import ListNotations.

Local Open Scope string_scope.
Local Open Scope list_scope.

(** ** Exceptions and results *)

Inductive exn : Type :=
| ValueError (msg : string)
| TypeError
| AttributeError
| KeyError (key : string)
| InvalidOperation
| Overflow
| StoreError.                 (* psycopg2.Error raised by the store *)

Inductive outcome (A : Type) : Type :=
| Ok (a : A)
| Raise (e : exn).
Arguments Ok {A} a.
Arguments Raise {A} e.

Definition obind {A B} (o : outcome A) (k : A -> outcome B) : outcome B :=
  match o with
  | Ok a => k a
  | Raise e => Raise e
  end.

(** ** Python text primitives *)

Module text.

Definition code (c : ascii) : N := N_of_ascii c.

(** [str.isspace] on one character, for the code points below 256. *)
Definition isspace (c : ascii) : bool :=
  let n := code c in
  (((9 <=? n) && (n <=? 13)) || ((28 <=? n) && (n <=? 32))
   || (n =? 133) || (n =? 160))%N.

Definition isdigit (c : ascii) : bool :=
  let n := code c in ((48 <=? n) && (n <=? 57))%N.

Definition digit_val (c : ascii) : N := (code c - 48)%N.

Fixpoint lstrip (s : string) : string :=
  match s with
  | EmptyString => EmptyString
  | String c s' => if isspace c then lstrip s' else s
  end.

Fixpoint rstrip (s : string) : string :=
  match s with
  | EmptyString => EmptyString
  | String c s' =>
      match rstrip s' with
      | EmptyString => if isspace c then EmptyString else String c EmptyString
      | r => String c r
      end
  end.

(** [s.strip()] *)
Definition strip (s : string) : string := rstrip (lstrip s).

(** [s.replace(c, "")] for a one-character [c] *)
Fixpoint remove_char (x : ascii) (s : string) : string :=
  match s with
  | EmptyString => EmptyString
  | String c s' =>
      if Ascii.eqb c x then remove_char x s' else String c (remove_char x s')
  end.

(** [sep.join(l)] *)
Fixpoint join (sep : string) (l : list string) : string :=
  match l with
  | [] => EmptyString
  | [x] => x
  | x :: r => x ++ sep ++ join sep r
  end.

(** ASCII lower-casing, enough for the keywords of the Decimal syntax. *)
Definition lower (c : ascii) : ascii :=
  let n := code c in
  if ((65 <=? n) && (n <=? 90))%N then ascii_of_N (n + 32) else c.

Fixpoint lower_str (s : string) : string :=
  match s with
  | EmptyString => EmptyString
  | String c s' => String (lower c) (lower_str s')
  end.

(** The longest prefix of decimal digits, and the rest. *)
Fixpoint span_digits (s : string) : string * string :=
  match s with
  | EmptyString => (EmptyString, EmptyString)
  | String c s' =>
      if isdigit c
      then let (d, r) := span_digits s' in (String c d, r)
      else (EmptyString, s)
  end.

Fixpoint digits_value (acc : N) (s : string) : N :=
  match s with
  | EmptyString => acc
  | String c s' => digits_value (10 * acc + digit_val c)%N s'
  end.

Fixpoint all_digits (s : string) : bool :=
  match s with
  | EmptyString => true
  | String c s' => isdigit c && all_digits s'
  end.

(** [s] without its prefix [p], when it starts with it. *)
Fixpoint strip_prefix (p s : string) : option string :=
  match p, s with
  | EmptyString, _ => Some s
  | String a p', String b s' =>
      if Ascii.eqb a b then strip_prefix p' s' else None
  | String _ _, EmptyString => None
  end.

(** The digits of an [int] literal: digits, single underscores between them. *)
Fixpoint int_digits (after_digit : bool) (acc : N) (s : string) : option N :=
  match s with
  | EmptyString => if after_digit then Some acc else None
  | String c s' =>
      if isdigit c then int_digits true (10 * acc + digit_val c)%N s'
      else if Ascii.eqb c "_"
           then (if after_digit then int_digits false acc s' else None)
           else None
  end.

(** [int(s)] for a [str]: [None] stands for [ValueError].  The length of the
    literal is not bounded here; the interpreter refuses, by default, one of
    more than 4300 digits. *)
Definition int_of_str (s : string) : option Z :=
  match strip s with
  | String "+" r => option_map Z.of_N (int_digits false 0%N r)
  | String "-" r =>
      option_map (fun n => (- Z.of_N n)%Z) (int_digits false 0%N r)
  | r => option_map Z.of_N (int_digits false 0%N r)
  end.

(** [sorted(l)] on strings: insertion sort by code points. *)
Fixpoint insert_sorted (x : string) (l : list string) : list string :=
  match l with
  | [] => [x]
  | y :: r => if String.leb x y then x :: l else y :: insert_sorted x r
  end.

Definition sorted (l : list string) : list string :=
  fold_right insert_sorted [] l.

Definition mem (x : string) (l : list string) : bool :=
  existsb (String.eqb x) l.

(** Every character of [s] satisfies [p]. *)
Fixpoint all_chars (p : ascii -> bool) (s : string) : bool :=
  match s with
  | EmptyString => true
  | String c s' => p c && all_chars p s'
  end.

End text.

(** ** decimal.Decimal *)

Module decimal.

Inductive Decimal : Type :=
| Finite (sign : bool) (coeff : N) (exp : Z)   (* (-1)^sign * coeff * 10^exp *)
| Infinity (sign : bool)
| NaN (sign : bool) (signaling : bool) (payload : N).

(** [Decimal("0")], the default of [parse_decimal]. *)
Definition zero : Decimal := Finite false 0 0.

Definition is_nan (d : Decimal) : bool :=
  match d with NaN _ _ _ => true | _ => false end.

Definition is_snan (d : Decimal) : bool :=
  match d with NaN _ true _ => true | _ => false end.

(** *** The constructor from a string

    The syntax is the one of the library:
    [[sign] (digits [. digits] | . digits) [E [sign] digits]],
    [[sign] Inf[inity]], [[sign] [s]NaN [digits]], letters in either case,
    surrounding white space removed and underscores ignored. *)

Definition split_sign (s : string) : bool * string :=
  match s with
  | String c r =>
      if Ascii.eqb c "+" then (false, r)
      else if Ascii.eqb c "-" then (true, r)
      else (false, s)
  | EmptyString => (false, s)
  end.

Definition parse_exponent (s : string) : option Z :=
  let (neg, r) := split_sign s in
  match r with
  | EmptyString => None
  | _ => if text.all_digits r
         then Some (if neg then - Z.of_N (text.digits_value 0 r)
                    else Z.of_N (text.digits_value 0 r))%Z
         else None
  end.

(** The end of a number: nothing, or an exponent part.  [c] is the
    coefficient read so far and [fl] the number of its fractional digits. *)
Definition parse_tail (sign : bool) (c : N) (fl : Z) (s : string)
  : option Decimal :=
  match s with
  | EmptyString => Some (Finite sign c (- fl))
  | String e r =>
      if Ascii.eqb (text.lower e) "e"
      then option_map (fun x => Finite sign c (x - fl)) (parse_exponent r)
      else None
  end.

Definition parse_finite (sign : bool) (s : string) : option Decimal :=
  let (ip, r1) := text.span_digits s in
  let '(fp, r2) :=
    match r1 with
    | String c r =>
        if Ascii.eqb c "." then text.span_digits r else (EmptyString, r1)
    | EmptyString => (EmptyString, r1)
    end in
  match (ip ++ fp)%string with
  | EmptyString => None
  | ds => parse_tail sign (text.digits_value 0 ds)
                     (Z.of_nat (String.length fp)) r2
  end.

Definition parse_special (sign : bool) (s : string) : option Decimal :=
  let l := text.lower_str s in
  if String.eqb l "inf" || String.eqb l "infinity" then Some (Infinity sign)
  else
    match text.strip_prefix "nan" l with
    | Some diag =>
        if text.all_digits diag
        then Some (NaN sign false (text.digits_value 0 diag)) else None
    | None =>
        match text.strip_prefix "snan" l with
        | Some diag =>
            if text.all_digits diag
            then Some (NaN sign true (text.digits_value 0 diag)) else None
        | None => None
        end
    end.

(** [Decimal(s)]: [None] stands for [InvalidOperation] (ConversionSyntax).
    The size of the exponent is not bounded here; the library refuses a
    number whose exponent is beyond its limits (about 10^18 in absolute
    value). *)
Definition of_str (s : string) : option Decimal :=
  let t := text.remove_char "_" (text.strip s) in
  let (sign, body) := split_sign t in
  match parse_finite sign body with
  | Some d => Some d
  | None => parse_special sign body
  end.

(** *** Comparison

    [a != b]: a signaling NaN raises InvalidOperation, a quiet NaN differs
    from everything, numbers are compared by value. *)

Local Open Scope Z_scope.

Definition pow10 (k : Z) : N := Z.to_N (10 ^ k).

Definition eqb_num (a b : Decimal) : bool :=
  match a, b with
  | Finite s1 c1 e1, Finite s2 c2 e2 =>
      if (c1 =? 0)%N then (c2 =? 0)%N
      else if (c2 =? 0)%N then false
      else
        let m := Z.min e1 e2 in
        Bool.eqb s1 s2 && (c1 * pow10 (e1 - m) =? c2 * pow10 (e2 - m))%N
  | Infinity s1, Infinity s2 => Bool.eqb s1 s2
  | _, _ => false
  end.

Definition ne (a b : Decimal) : outcome bool :=
  if is_snan a || is_snan b then Raise InvalidOperation
  else if is_nan a || is_nan b then Ok true
  else Ok (negb (eqb_num a b)).

(** *** Arithmetic in the default context *)

Definition prec : Z := 28.
Definition Emax : Z := 999999.
Definition Emin : Z := -999999.
Definition Etiny : Z := Emin - prec + 1.
Definition Etop : Z := Emax - prec + 1.

Fixpoint ndigits_aux (fuel : nat) (n : N) : Z :=
  match fuel with
  | O => 0
  | S f => if (n =? 0)%N then 0 else 1 + ndigits_aux f (n / 10)%N
  end.

(** [len(str(n))] for a positive [n] *)
Definition ndigits (n : N) : Z := ndigits_aux (N.to_nat (N.size n)) n.

(** [Decimal._fix]: round the exact result to the context. *)
Definition fix_ (sign : bool) (coeff : N) (exp : Z) : outcome Decimal :=
  if (coeff =? 0)%N then Ok (Finite sign 0 (Z.min (Z.max exp Etiny) Emax))
  else
    let exp_min0 := ndigits coeff + exp - prec in
    if exp_min0 >? Etop then Raise Overflow
    else
      let exp_min := Z.max exp_min0 Etiny in
      if exp <? exp_min then
        let p := pow10 (exp_min - exp) in
        let q := (coeff / p)%N in
        let r := (coeff mod p)%N in
        let up := ((p <? 2 * r) || ((2 * r =? p) && N.odd q))%N in
        let q' := if up then (q + 1)%N else q in
        let '(c, e) :=
          if up && (ndigits q' >? prec)
          then ((q' / 10)%N, exp_min + 1) else (q', exp_min) in
        if e >? Etop then Raise Overflow else Ok (Finite sign c e)
      else Ok (Finite sign coeff exp).

(** [Decimal._check_nans]: the NaN an operation answers with, if any. *)
Definition check_nans (a b : Decimal) : outcome (option Decimal) :=
  if is_snan a || is_snan b then Raise InvalidOperation
  else
    match a, b with
    | NaN s _ p, _ => Ok (Some (NaN s false (p mod pow10 prec)%N))
    | _, NaN s _ p => Ok (Some (NaN s false (p mod pow10 prec)%N))
    | _, _ => Ok None
    end.

Definition signed (sign : bool) (c : N) : Z :=
  if sign then - Z.of_N c else Z.of_N c.

(** [a + b] *)
Definition add (a b : Decimal) : outcome Decimal :=
  obind (check_nans a b) (fun n =>
  match n with
  | Some r => Ok r
  | None =>
      match a, b with
      | Infinity s1, Infinity s2 =>
          if Bool.eqb s1 s2 then Ok a else Raise InvalidOperation
      | Infinity _, _ => Ok a
      | _, Infinity _ => Ok b
      | Finite s1 c1 e1, Finite s2 c2 e2 =>
          let e := Z.min e1 e2 in
          if ((c1 =? 0) && (c2 =? 0))%N then fix_ (s1 && s2) 0 e
          else
            let z := signed s1 (c1 * pow10 (e1 - e)) +
                     signed s2 (c2 * pow10 (e2 - e)) in
            if z =? 0 then fix_ false 0 e
            else fix_ (z <? 0) (Z.abs_N z) e
      | _, _ => Ok a
      end
  end).

Definition sign_of (d : Decimal) : bool :=
  match d with Finite s _ _ | Infinity s | NaN s _ _ => s end.

Definition is_zero (d : Decimal) : bool :=
  match d with Finite _ c _ => (c =? 0)%N | _ => false end.

(** [a * b] *)
Definition mul (a b : Decimal) : outcome Decimal :=
  let rs := xorb (sign_of a) (sign_of b) in
  obind (check_nans a b) (fun n =>
  match n with
  | Some r => Ok r
  | None =>
      match a, b with
      | Infinity _, _ =>
          if is_zero b then Raise InvalidOperation else Ok (Infinity rs)
      | _, Infinity _ =>
          if is_zero a then Raise InvalidOperation else Ok (Infinity rs)
      | Finite _ c1 e1, Finite _ c2 e2 => fix_ rs (c1 * c2) (e1 + e2)
      | _, _ => Ok a
      end
  end).

End decimal.

Import decimal.

(** ** The store and the process state *)

(** [datetime]: microseconds on the time line. *)
Definition datetime : Type := Z.

Record date : Type := mkdate { year : Z; month : Z; day : Z }.

(** The values a cleaned product row holds. *)
Inductive pyval : Type :=
| VNone
| VStr (s : string)
| VInt (z : Z)
| VDec (d : Decimal).

Record product_rec : Type := mk_product {
  p_product_id : Z;
  p_product_name : pyval;
  p_source : pyval;
  p_unit : pyval }.

Record price_rec : Type := mk_price {
  pp_product_id : Z;
  pp_cost_per_unit : Decimal;
  pp_created_when : datetime }.

Record bill_rec : Type := mk_bill {
  b_bill_id : Z;
  b_bill_number : option string;
  b_vendor_name : option string;
  b_source : string;
  b_bill_date : option date;
  b_currency : string;
  b_subtotal_amount : Decimal;
  b_tax_amount : Decimal;
  b_shipping_amount : Decimal;
  b_total_amount : Decimal;
  b_notes : option string }.

Record bill_item_rec : Type := mk_bill_item {
  bi_bill_id : Z;
  bi_product_id : option Z;
  bi_product_name : option string;
  bi_quantity : Decimal;
  bi_unit : option string;
  bi_unit_price : Decimal;
  bi_line_total : Decimal }.

(** The four tables. *)
Record db : Type := mk_db {
  product : list product_rec;
  product_price : list price_rec;
  bill : list bill_rec;
  bill_item : list bill_item_rec }.

Definition set_product (t : list product_rec) (d : db) : db :=
  mk_db t (product_price d) (bill d) (bill_item d).

Definition set_product_price (t : list price_rec) (d : db) : db :=
  mk_db (product d) t (bill d) (bill_item d).

Definition set_bill (t : list bill_rec) (d : db) : db :=
  mk_db (product d) (product_price d) t (bill_item d).

Definition set_bill_item (t : list bill_item_rec) (d : db) : db :=
  mk_db (product d) (product_price d) (bill d) t.

(** What the process prints, one constructor per [print] call, carrying the
    values the message interpolates. *)
Inductive line : Type :=
| WarnInvalidProductId (v : option string)
| NoValidProductData
| NewPrice (product_id : Z) (new_price : Decimal)
| PriceUpdated (product_id : Z) (current_price new_price : Decimal)
| PriceUnchanged (product_id : Z) (new_price : Decimal)
| ImportSummary (products_updated prices_inserted prices_updated : nat)
| ErrorDuringImport (e : exn)
| ImportedBill (items : nat) (subtotal tax_sum shipping total : Decimal).

Inductive conn_state : Type := NoConnection | ConnOpen | ConnClosed.

(** The store as the process sees it through its one connection.

    [persisted] is the committed content, [working] the content inside the
    open transaction ([in_txn]).  [faults] is the failure the environment
    injects: [Some n] makes the store operation number [n] from now fail,
    [None] lets all succeed. *)
Record world : Type := mk_world {
  persisted : db;
  working : db;
  in_txn : bool;
  conn : conn_state;
  faults : option nat;
  bill_seq : Z;
  clock : datetime;
  stdout : list line }.

Definition M (A : Type) : Type := world -> outcome A * world.

Definition ret {A} (a : A) : M A := fun w => (Ok a, w).

Definition raise {A} (e : exn) : M A := fun w => (Raise e, w).

Definition bind {A B} (m : M A) (k : A -> M B) : M B :=
  fun w =>
    match m w with
    | (Ok a, w') => k a w'
    | (Raise e, w') => (Raise e, w')
    end.

Definition lift {A} (o : outcome A) : M A := fun w => (o, w).

Declare Scope py_scope.
Delimit Scope py_scope with py.
Notation "x <- m ;; k" := (bind m (fun x => k))
  (at level 61, m at next level, right associativity) : py_scope.
Notation "m ;; k" := (bind m (fun _ => k))
  (at level 61, right associativity) : py_scope.
Local Open Scope py_scope.

(** [try: body finally: fin] *)
Definition try_finally {A} (body : M A) (fin : M unit) : M A :=
  fun w =>
    match body w with
    | (r, w1) =>
        match fin w1 with
        | (Ok _, w2) => (r, w2)
        | (Raise e, w2) => (Raise e, w2)
        end
    end.

(** [try: body except Exception as e: handler e] *)
Definition try_except {A} (body : M A) (handler : exn -> M A) : M A :=
  fun w =>
    match body w with
    | (Ok a, w1) => (Ok a, w1)
    | (Raise e, w1) => handler e w1
    end.

Definition print (l : line) : M unit :=
  fun w => (Ok tt,
            mk_world (persisted w) (working w) (in_txn w) (conn w) (faults w)
                     (bill_seq w) (clock w) (stdout w ++ [l])).

(** [datetime.now()].  The clock of the model stands still during a run;
    where a statement depends on the time stamp of an observation, it is made
    for a run that is given its time stamp. *)
Definition now : M datetime := fun w => (Ok (clock w), w).

(** *** The connection (psycopg2)

    The statements, the commit and the connect are the operations the store
    can refuse; a rollback and a close always go through.  The store keeps
    the values it is handed as they are, and a run is alone on the store.
    The tables of the model hold what the statements were handed: the driver
    writes an infinity as a NaN, and the column may drop the exponent and the
    sign of a zero: where a statement follows a cost from its writing to a
    later reading, it takes a finite cost and equality as numbers. *)

(** One store operation: it fails when the environment says so. *)
Definition tick : M unit :=
  fun w =>
    match faults w with
    | None => (Ok tt, w)
    | Some (S n) =>
        (Ok tt, mk_world (persisted w) (working w) (in_txn w) (conn w)
                         (Some n) (bill_seq w) (clock w) (stdout w))
    | Some O =>
        (Raise StoreError,
         mk_world (persisted w) (working w) (in_txn w) (conn w)
                  None (bill_seq w) (clock w) (stdout w))
    end.

(** The first statement after a commit or rollback opens a transaction. *)
Definition begin : M unit :=
  fun w =>
    if in_txn w then (Ok tt, w)
    else (Ok tt, mk_world (persisted w) (persisted w) true (conn w) (faults w)
                          (bill_seq w) (clock w) (stdout w)).

(** [cur.execute] of a statement that writes *)
Definition execute (f : db -> db) : M unit :=
  tick ;; begin ;;
  fun w => (Ok tt, mk_world (persisted w) (f (working w)) (in_txn w) (conn w)
                            (faults w) (bill_seq w) (clock w) (stdout w)).

(** [cur.execute] of a SELECT followed by the fetch *)
Definition fetch {A} (q : db -> A) : M A :=
  tick ;; begin ;; fun w => (Ok (q (working w)), w).

(** [conn.commit()]: nothing to do outside a transaction *)
Definition commit : M unit :=
  fun w =>
    if in_txn w then
      (tick ;;
       fun w => (Ok tt, mk_world (working w) (working w) false (conn w)
                                 (faults w) (bill_seq w) (clock w) (stdout w)))
        w
    else (Ok tt, w).

(** [conn.rollback()] *)
Definition rollback : M unit :=
  fun w => (Ok tt, mk_world (persisted w) (persisted w) false (conn w)
                            (faults w) (bill_seq w) (clock w) (stdout w)).

(** [conn.close()]: an open transaction is discarded *)
Definition close : M unit :=
  fun w => (Ok tt, mk_world (persisted w) (persisted w) false ConnClosed
                            (faults w) (bill_seq w) (clock w) (stdout w)).

(** [psycopg2.connect(...)] *)
Definition connect : M unit :=
  tick ;;
  fun w => (Ok tt, mk_world (persisted w) (persisted w) false ConnOpen
                            (faults w) (bill_seq w) (clock w) (stdout w)).

(** [with conn: body]: commit on success, rollback on an exception *)
Definition with_conn {A} (body : M A) : M A :=
  fun w =>
    match body w with
    | (Ok a, w1) => (commit ;; ret a) w1
    | (Raise e, w1) => (rollback ;; raise e) w1
    end.

(** ** script/db_connection.py *)

Module db_connection.

Definition get_connection : M unit :=
  connect ;;
  execute (fun d => d) ;;        (* SET search_path TO dbo, public *)
  commit.

(** [Decimal(cleaned)] *)
Definition Decimal_of (s : string) : outcome Decimal :=
  match decimal.of_str s with
  | Some d => Ok d
  | None => Raise InvalidOperation
  end.

Definition parse_decimal (value : option string) (default : Decimal)
  : outcome Decimal :=
  match value with
  | None => Ok default
  | Some v =>
      if String.eqb v "" then Ok default
      else
        let body :=
          let cleaned := text.remove_char "," (text.strip v) in
          if negb (String.eqb cleaned "") then Decimal_of cleaned
          else Ok default in
        match body with
        | Raise InvalidOperation | Raise AttributeError => Ok default
        | r => r
        end
  end.

End db_connection.

Import db_connection.

(** The same notation for code that raises without touching the state. *)
Declare Scope out_scope.
Delimit Scope out_scope with out.
Notation "x <- m ;; k" := (obind m (fun x => k))
  (at level 61, m at next level, right associativity) : out_scope.

(** ** Python dicts with [str] keys, in insertion order *)

Module pydict.

Section Dict.
Context {V : Type}.

Definition t : Type := list (string * V).

(** [d[k] = v]: an existing key keeps its place. *)
Fixpoint set (k : string) (v : V) (d : t) : t :=
  match d with
  | [] => [(k, v)]
  | (k', v') :: d' =>
      if String.eqb k k' then (k', v) :: d' else (k', v') :: set k v d'
  end.

(** [d.get(k)] *)
Fixpoint get (k : string) (d : t) : option V :=
  match d with
  | [] => None
  | (k', v') :: d' => if String.eqb k k' then Some v' else get k d'
  end.

End Dict.
Arguments t V : clear implicits.

End pydict.

(** ** csv.DictReader *)

(** What [csv.reader] yields for a file: one list of fields per record. *)
Definition csv_file : Type := list (list string).

(** A row of [csv.DictReader]: the entries under the field names (a missing
    field is [None]) and, when the record is longer than the header, the
    surplus fields, which Python keeps under the key [None]. *)
Record csv_row : Type := mk_csv_row {
  named : pydict.t (option string);
  rest : option (list string) }.

Definition DictReader_fieldnames (f : csv_file) : option (list string) :=
  match f with
  | [] => None
  | h :: _ => Some h
  end.

Definition DictReader_row (fieldnames row : list string) : csv_row :=
  let d := fold_left (fun d kv => pydict.set (fst kv) (Some (snd kv)) d)
                     (combine fieldnames row) [] in
  let lf := List.length fieldnames in
  let lr := List.length row in
  if (lf <? lr)%nat then mk_csv_row d (Some (skipn lf row))
  else mk_csv_row (fold_left (fun d k => pydict.set k None d)
                             (skipn lr fieldnames) d) None.

Definition is_blank_record (r : list string) : bool :=
  match r with [] => true | _ => false end.

(** The rows the reader iterates over: empty records are skipped. *)
Definition DictReader_rows (f : csv_file) : list csv_row :=
  match f with
  | [] => []
  | h :: rs => map (DictReader_row h)
                   (filter (fun r => negb (is_blank_record r)) rs)
  end.

(** The header check both readers start with. *)
Definition check_header (required_cols : list string)
                        (fieldnames : option (list string)) : outcome unit :=
  match fieldnames with
  | None | Some [] => Raise (ValueError "CSV has no header row")
  | Some names =>
      let header := map text.strip names in
      let missing := filter (fun c => negb (text.mem c header)) required_cols in
      match missing with
      | [] => Ok tt
      | _ => Raise (ValueError ("CSV missing required columns: "
                                ++ text.join ", " (text.sorted missing)))
      end
  end.

(** ** script/import/import_product_list.py *)

Module import_product_list.

Definition required_cols : list string := ["product_id"; "product_name"].

Definition row_data : Type := pydict.t pyval.

Definition to_pyval (v : option string) : pyval :=
  match v with
  | Some s => VStr s
  | None => VNone
  end.

(** The inner loop of [read_product_csv]: keys and values stripped, the empty
    string turned into [None].  [k.strip()] fails on the key [None]. *)
Definition clean_row (r : csv_row) : outcome (pydict.t (option string)) :=
  let d :=
    fold_left
      (fun d kv =>
         let key := text.strip (fst kv) in
         let value := option_map text.strip (snd kv) in
         pydict.set key
           (match value with
            | Some s => if String.eqb s "" then None else Some s
            | None => None
            end) d)
      (named r) [] in
  match rest r with
  | Some _ => Raise AttributeError
  | None => Ok d
  end.

(** One turn of the row loop: [None] is [continue]. *)
Definition read_product_row (r : csv_row) : M (option row_data) :=
  d <- lift (clean_row r) ;;
  match pydict.get "product_id" d with
  | None => raise (KeyError "product_id")
  | Some v =>
      match match v with
            | Some s => text.int_of_str s     (* ValueError *)
            | None => None                    (* TypeError *)
            end with
      | None => print (WarnInvalidProductId v) ;; ret None
      | Some z =>
          let d1 := pydict.set "product_id" (VInt z)
                      (map (fun kv => (fst kv, to_pyval (snd kv))) d) in
          match pydict.get "cost_per_unit" d with
          | Some (Some s) =>
              if negb (String.eqb s "") then
                c <- lift (parse_decimal (Some s) decimal.zero) ;;
                ret (Some (pydict.set "cost_per_unit" (VDec c) d1))
              else ret (Some d1)
          | _ => ret (Some d1)
          end
      end
  end.

Fixpoint read_product_rows (rs : list csv_row) (rows : list row_data)
  : M (list row_data) :=
  match rs with
  | [] => ret rows
  | r :: rs' =>
      o <- read_product_row r ;;
      read_product_rows rs' (match o with
                             | Some d => rows ++ [d]
                             | None => rows
                             end)
  end.

Definition read_product_csv (f : csv_file) : M (list row_data) :=
  lift (check_header required_cols (DictReader_fieldnames f)) ;;
  read_product_rows (DictReader_rows f) [].

(** [product_data[k]] *)
Definition item (k : string) (d : row_data) : outcome pyval :=
  match pydict.get k d with
  | Some v => Ok v
  | None => Raise (KeyError k)
  end.

(** [product_data.get(k)] *)
Definition get_or_none (k : string) (d : row_data) : pyval :=
  match pydict.get k d with
  | Some v => v
  | None => VNone
  end.

(** The rows of [read_product_csv] hold an [int] under [product_id]. *)
Definition as_int (v : pyval) : outcome Z :=
  match v with
  | VInt z => Ok z
  | _ => Raise TypeError
  end.

(** INSERT ... ON CONFLICT (product_id) DO UPDATE *)
Fixpoint upsert (p : product_rec) (t : list product_rec) : list product_rec :=
  match t with
  | [] => [p]
  | q :: t' =>
      if (p_product_id q =? p_product_id p)%Z then p :: t' else q :: upsert p t'
  end.

Definition upsert_product (product_data : row_data) : M unit :=
  pid <- lift (pid <- item "product_id" product_data ;; as_int pid)%out ;;
  name <- lift (item "product_name" product_data) ;;
  let p := mk_product pid name (get_or_none "source" product_data)
                      (get_or_none "unit" product_data) in
  execute (fun d => set_product (upsert p (product d)) d).

Definition same_key (product_id : Z) (created_when : datetime) (r : price_rec)
  : bool :=
  ((pp_product_id r =? product_id) && (pp_created_when r =? created_when))%Z.

(** UPDATE product_price SET cost_per_unit = ... WHERE the key matches *)
Definition overwrite (product_id : Z) (created_when : datetime)
                     (cost_per_unit : Decimal) (t : list price_rec)
  : list price_rec :=
  map (fun r => if same_key product_id created_when r
                then mk_price (pp_product_id r) cost_per_unit
                              (pp_created_when r)
                else r) t.

Definition insert_product_price (product_id : Z) (cost_per_unit : Decimal)
                                (created_when : option datetime) : M bool :=
  created_when <- match created_when with
                  | None => now
                  | Some t => ret t
                  end ;;
  existing <- fetch (fun d => find (same_key product_id created_when)
                                   (product_price d)) ;;
  match existing with
  | Some row =>
      differs <- lift (decimal.ne (pp_cost_per_unit row) cost_per_unit) ;;
      if differs then
        execute (fun d =>
          set_product_price
            (overwrite product_id created_when cost_per_unit (product_price d))
            d) ;;
        ret true
      else ret false
  | None =>
      execute (fun d =>
        set_product_price
          (product_price d ++ [mk_price product_id cost_per_unit created_when])
          d) ;;
      ret true
  end.

(** ORDER BY created_when DESC LIMIT 1 over the rows of one product; among
    rows of equal time stamp the first one is taken. *)
Fixpoint latest (product_id : Z) (best : option price_rec) (t : list price_rec)
  : option price_rec :=
  match t with
  | [] => best
  | r :: t' =>
      if (pp_product_id r =? product_id)%Z then
        match best with
        | Some b =>
            if (pp_created_when b <? pp_created_when r)%Z
            then latest product_id (Some r) t'
            else latest product_id best t'
        | None => latest product_id (Some r) t'
        end
      else latest product_id best t'
  end.

Definition get_latest_product_price (product_id : Z) : M (option Decimal) :=
  fetch (fun d => option_map pp_cost_per_unit
                             (latest product_id None (product_price d))).

Record counters : Type := mk_counters {
  products_updated : nat;
  prices_updated : nat;
  prices_inserted : nat }.

(** The price handling of one product in [import_product_csv]: the block
    under "Handle price update", for a cost that is present. *)
Definition reconcile_price (product_id : Z) (new_price : Decimal)
                           (price_timestamp : option datetime) (c : counters)
  : M counters :=
  current_price <- get_latest_product_price product_id ;;
  changed <- match current_price with
             | None => ret true
             | Some cur => lift (decimal.ne cur new_price)
             end ;;
  if (changed : bool) then
    price_updated <- insert_product_price product_id new_price
                                          price_timestamp ;;
    if (price_updated : bool) then
      match current_price with
      | None =>
          print (NewPrice product_id new_price) ;;
          ret (mk_counters (products_updated c) (prices_updated c)
                           (S (prices_inserted c)))
      | Some cur =>
          print (PriceUpdated product_id cur new_price) ;;
          ret (mk_counters (products_updated c) (S (prices_updated c))
                           (prices_inserted c))
      end
    else ret c
  else
    print (PriceUnchanged product_id new_price) ;; ret c.

(** The body of the loop over the products. *)
Definition import_product (update_prices : bool)
                          (price_timestamp : option datetime)
                          (product : row_data) (c : counters) : M counters :=
  product_id <- lift (pid <- item "product_id" product ;; as_int pid)%out ;;
  upsert_product product ;;
  let c := mk_counters (S (products_updated c)) (prices_updated c)
                       (prices_inserted c) in
  if update_prices then
    match pydict.get "cost_per_unit" product with
    | None | Some VNone => ret c
    | Some (VDec new_price) =>
        reconcile_price product_id new_price price_timestamp c
    | Some _ => raise TypeError   (* no such row comes from read_product_csv *)
    end
  else ret c.

Fixpoint import_products (update_prices : bool)
                         (price_timestamp : option datetime)
                         (products : list row_data) (c : counters)
  : M counters :=
  match products with
  | [] => ret c
  | product :: rest =>
      c' <- import_product update_prices price_timestamp product c ;;
      import_products update_prices price_timestamp rest c'
  end.

Definition import_product_csv (f : csv_file) (update_prices : bool)
                              (price_timestamp : option datetime) : M unit :=
  products <- read_product_csv f ;;
  match products with
  | [] => print NoValidProductData
  | _ =>
      get_connection ;;
      try_finally
        (try_except
           (with_conn
              (c <- import_products update_prices price_timestamp products
                                    (mk_counters 0 0 0) ;;
               commit ;;
               print (ImportSummary (products_updated c) (prices_inserted c)
                                    (prices_updated c))))
           (fun e => rollback ;; print (ErrorDuringImport e) ;; raise e))
        close
  end.

End import_product_list.

(** ** script/import/import_bill.py *)

Module import_bill.

Definition required_cols : list string :=
  ["product_name"; "quantity"; "product_price"; "tax_amount"; "total"].

(** The rows keep the keys of the header as they are; the values are
    stripped. *)
Definition read_bill_csv (f : csv_file) : outcome (list csv_row) :=
  (_ <- check_header required_cols (DictReader_fieldnames f) ;;
   Ok (map (fun r =>
              mk_csv_row
                (map (fun kv => (fst kv, option_map text.strip (snd kv)))
                     (named r))
                (rest r))
           (DictReader_rows f)))%out.

(** [r.get(k)] *)
Definition row_get (k : string) (r : csv_row) : option string :=
  match pydict.get k (named r) with
  | Some v => v
  | None => None
  end.

Record prepared_item : Type := mk_item {
  it_product_name : option string;
  it_quantity : Decimal;
  it_unit_price : Decimal;
  it_line_total : Decimal }.

Record totals : Type := mk_totals {
  subtotal : Decimal;
  tax_sum : Decimal;
  prepared_items : list prepared_item }.

(** One turn of the loop that prepares the line items. *)
Definition prepare_item (acc : totals) (r : csv_row) : outcome totals :=
  (let product_name := row_get "product_name" r in
   quantity <- parse_decimal (row_get "quantity" r) decimal.zero ;;
   unit_price <- parse_decimal (row_get "product_price" r) decimal.zero ;;
   tax_amount <- parse_decimal (row_get "tax_amount" r) decimal.zero ;;
   line_total <- parse_decimal (row_get "total" r) decimal.zero ;;
   amount <- decimal.mul quantity unit_price ;;
   subtotal' <- decimal.add (subtotal acc) amount ;;
   tax_sum' <- decimal.add (tax_sum acc) tax_amount ;;
   Ok (mk_totals subtotal' tax_sum'
         (prepared_items acc
            ++ [mk_item product_name quantity unit_price line_total])))%out.

Fixpoint prepare_items (acc : totals) (items : list csv_row) : outcome totals :=
  match items with
  | [] => Ok acc
  | r :: items' => (acc' <- prepare_item acc r ;; prepare_items acc' items')%out
  end.

(** INSERT INTO bill ... RETURNING bill_id: the store numbers the bill. *)
Definition insert_bill (mk : Z -> bill_rec) : M Z :=
  tick ;; begin ;;
  fun w =>
    let bill_id := bill_seq w in
    (Ok bill_id,
     mk_world (persisted w)
              (set_bill (bill (working w) ++ [mk bill_id]) (working w))
              (in_txn w) (conn w) (faults w) (bill_seq w + 1)%Z (clock w)
              (stdout w)).

Definition insert_bill_item (bill_id : Z) (it : prepared_item) : M unit :=
  execute (fun d =>
    set_bill_item
      (bill_item d
         ++ [mk_bill_item bill_id None (it_product_name it) (it_quantity it)
                          None (it_unit_price it) (it_line_total it)])
      d).

Fixpoint insert_bill_items (bill_id : Z) (its : list prepared_item) : M unit :=
  match its with
  | [] => ret tt
  | it :: its' => insert_bill_item bill_id it ;; insert_bill_items bill_id its'
  end.

Definition import_bill (f : csv_file) (csv_path : string)
                       (vendor_name notes : option string)
                       (shipping_amount : Decimal) (currency : string)
                       (bill_number : option string) (bill_date : option date)
                       (source : option string) : M unit :=
  items <- lift (read_bill_csv f) ;;
  t <- lift (prepare_items (mk_totals decimal.zero decimal.zero []) items) ;;
  total_amount <- lift (s <- decimal.add (subtotal t) (tax_sum t) ;;
                        decimal.add s shipping_amount)%out ;;
  get_connection ;;
  try_finally
    (with_conn
       (bill_id <- insert_bill (fun bill_id =>
                     mk_bill bill_id bill_number vendor_name
                             (match source with
                              | Some s =>
                                  if String.eqb s "" then csv_path else s
                              | None => csv_path
                              end)
                             bill_date currency (subtotal t) (tax_sum t)
                             shipping_amount total_amount notes) ;;
        insert_bill_items bill_id (prepared_items t)) ;;
     print (ImportedBill (List.length (prepared_items t)) (subtotal t)
                         (tax_sum t) shipping_amount total_amount))
    close.

End import_bill.

(** * The vocabulary of the statements *)

Import import_product_list.
Local Open Scope Z_scope.
Local Open Scope py_scope.

(** What [parse_decimal] hands to the Decimal constructor. *)
Definition cleaned (s : string) : string :=
  text.remove_char "," (text.strip s).

(** The characters a text the Decimal constructor accepts is made of, once
    its surrounding white space and its underscores are gone: digits, signs,
    the point, and the letters of E, Inf, Infinity, NaN and sNaN. *)
Definition numeric_letter (c : ascii) : bool :=
  existsb (Ascii.eqb c) ["e"; "i"; "n"; "f"; "t"; "y"; "a"; "s"]%char.

Definition numeric_char (c : ascii) : bool :=
  text.isdigit c || existsb (Ascii.eqb c) ["+"; "-"; "."]%char
  || numeric_letter (text.lower c).

(** The coefficient and the exponent are within the context. *)
Definition fits (c : N) (e : Z) : Prop :=
  decimal.ndigits c <= decimal.prec /\ decimal.Etiny <= e /\
  decimal.ndigits c + e - decimal.prec <= decimal.Etop.

(** The content the statements of the run see. *)
Definition view (w : world) : db :=
  if in_txn w then working w else persisted w.

(** The world once a statement has left the content [d] in the transaction. *)
Definition in_transaction (d : db) (w : world) : world :=
  mk_world (persisted w) d true (conn w) (faults w) (bill_seq w) (clock w)
           (stdout w).

(** The world once [l] is printed. *)
Definition printed (l : line) (w : world) : world :=
  mk_world (persisted w) (working w) (in_txn w) (conn w) (faults w)
           (bill_seq w) (clock w) (stdout w ++ [l]).

(** The price history after the INSERT of the observation. *)
Definition inserted (product_id : Z) (new_price : Decimal) (ts : datetime)
                    (d : db) : db :=
  set_product_price
    (product_price d ++ [mk_price product_id new_price ts]) d.

(** The price history after the UPDATE at the key of the observation. *)
Definition overwritten (product_id : Z) (new_price : Decimal) (ts : datetime)
                       (d : db) : db :=
  set_product_price (overwrite product_id ts new_price (product_price d)) d.

Definition count_inserted (c : counters) : counters :=
  mk_counters (products_updated c) (prices_updated c) (S (prices_inserted c)).

Definition count_updated (c : counters) : counters :=
  mk_counters (products_updated c) (S (prices_updated c)) (prices_inserted c).

(** [insert_product_price] when the store does not fail. *)
Definition insert_product_price_result
    (product_id : Z) (new_price : Decimal) (ts : datetime) (w : world)
  : outcome bool * world :=
  match find (same_key product_id ts) (product_price (view w)) with
  | Some row =>
      match decimal.ne (pp_cost_per_unit row) new_price with
      | Raise e => (Raise e, in_transaction (view w) w)
      | Ok true =>
          (Ok true,
           in_transaction (overwritten product_id new_price ts (view w)) w)
      | Ok false => (Ok false, in_transaction (view w) w)
      end
  | None =>
      (Ok true, in_transaction (inserted product_id new_price ts (view w)) w)
  end.

(** The latest cost of the product, as [get_latest_product_price] reads it. *)
Definition latest_cost (product_id : Z) (d : db) : option Decimal :=
  option_map pp_cost_per_unit (latest product_id None (product_price d)).

(** The reconciliation block when the store does not fail. *)
Definition reconcile_price_result
    (product_id : Z) (new_price : Decimal) (ts : datetime)
    (c : counters) (w : world) : outcome counters * world :=
  let w0 := in_transaction (view w) w in
  let attempt (report : line) (count : counters -> counters) :=
    match insert_product_price_result product_id new_price ts w0 with
    | (Ok true, w1) => (Ok (count c), printed report w1)
    | (Ok false, w1) => (Ok c, w1)
    | (Raise e, w1) => (Raise e, w1)
    end in
  match latest_cost product_id (view w) with
  | None => attempt (NewPrice product_id new_price) count_inserted
  | Some cur =>
      match decimal.ne cur new_price with
      | Raise e => (Raise e, w0)
      | Ok true =>
          attempt (PriceUpdated product_id cur new_price) count_updated
      | Ok false => (Ok c, printed (PriceUnchanged product_id new_price) w0)
      end
  end.

Definition empty_db : db := mk_db [] [] [] [].

(** A fresh process in front of a store that holds the price history [t]. *)
Definition world_with_prices (t : list price_rec) : world :=
  mk_world (set_product_price t empty_db) (set_product_price t empty_db)
           false NoConnection None 1 0 [].

Definition dec (coeff : N) (exp : Z) : Decimal := Finite false coeff exp.

Definition no_counts : counters := mk_counters 0 0 0.

(** The observations of one product. *)
Definition history (product_id : Z) (t : list price_rec) : list price_rec :=
  filter (fun r => pp_product_id r =? product_id) t.

Definition set_cost (pid : Z) (ts : datetime) (cost : Decimal)
                    (r : price_rec) : price_rec :=
  if same_key pid ts r
  then mk_price (pp_product_id r) cost (pp_created_when r) else r.

(** The observation at the key of the triple already holds the cost. *)
Definition settled (pid : Z) (cost : Decimal) (ts : datetime) (d : db)
  : Prop :=
  exists row, find (same_key pid ts) (product_price d) = Some row /\
              decimal.ne (pp_cost_per_unit row) cost = Ok false.

(** Nothing is left to do for the triple in [d]. *)
Definition at_rest (pid : Z) (cost : Decimal) (ts : datetime) (d : db)
  : Prop :=
  match latest_cost pid d with
  | Some cur =>
      decimal.ne cur cost = Ok false \/
      (decimal.ne cur cost = Ok true /\ settled pid cost ts d)
  | None => settled pid cost ts d
  end.

(** The row [read_product_csv] keeps for a cleaned record [d] whose product
    identifier reads as [pid], before the cost is looked at. *)
Definition validated (pid : Z) (d : pydict.t (option string)) : row_data :=
  pydict.set "product_id" (VInt pid)
             (map (fun kv => (fst kv, to_pyval (snd kv))) d).

(** A step keeps the relation [R] between the world before and after. *)
Definition keeps (R : world -> world -> Prop) {A} (m : M A) : Prop :=
  forall w, R w (snd (m w)).

(** The committed content and the connection are left alone. *)
Definition same_persisted (w w' : world) : Prop :=
  persisted w' = persisted w /\ conn w' = conn w.

(** Nothing is printed. *)
Definition same_stdout (w w' : world) : Prop := stdout w' = stdout w.

(** The price history the run sees is left alone. *)
Definition same_prices (w w' : world) : Prop :=
  product_price (view w') = product_price (view w).

(** Nothing but the output changes. *)
Definition same_store (w w' : world) : Prop :=
  persisted w' = persisted w /\ working w' = working w /\
  in_txn w' = in_txn w /\ conn w' = conn w /\ faults w' = faults w /\
  bill_seq w' = bill_seq w /\ clock w' = clock w.

(** The exception a result carries, if any. *)
Definition raised {A} (r : outcome A) : option exn :=
  match r with
  | Ok _ => None
  | Raise e => Some e
  end.

(** A store failure shows: once the injected fault has fired, the step has
    raised the store's error. *)
Definition fault_inv (w : world) (e : option exn) (w' : world) : Prop :=
  (faults w = None -> faults w' = None) /\
  (faults w <> None -> faults w' = None -> e = Some StoreError).

Definition faulty {A} (m : M A) : Prop :=
  forall w, fault_inv w (raised (fst (m w))) (snd (m w)).

Definition count_product (c : counters) : counters :=
  mk_counters (S (products_updated c)) (prices_updated c) (prices_inserted c).

(** The product record [upsert_product] writes for a row. *)
Definition product_of (pid : Z) (name : pyval) (row : row_data) : product_rec :=
  mk_product pid name (get_or_none "source" row) (get_or_none "unit" row).

(** The world once the product of the row is written. *)
Definition upserted (p : product_rec) (w : world) : world :=
  in_transaction (set_product (upsert p (product (view w))) (view w)) w.

(** The history a reconciliation of (pid, cost, ts) leaves when it gets past
    the comparison with the latest cost. *)
Definition reconciled_history (pid : Z) (cost : Decimal) (ts : datetime)
                              (t : list price_rec) : list price_rec :=
  match find (same_key pid ts) t with
  | None => t ++ [mk_price pid cost ts]
  | Some old =>
      match decimal.ne (pp_cost_per_unit old) cost with
      | Ok true => overwrite pid ts cost t
      | _ => t
      end
  end.

(** The required columns a header lacks. *)
Definition missing_cols (required names : list string) : list string :=
  filter (fun c => negb (text.mem c (map text.strip names))) required.

(** The message of the abort. *)
Definition missing_message (required names : list string) : string :=
  "CSV missing required columns: "
  ++ text.join ", " (text.sorted (missing_cols required names)).

(** The Decimal [parse_decimal] reads from a cell, zero by default. *)
Definition number_of (v : option string) : Decimal :=
  match v with
  | None => decimal.zero
  | Some s =>
      match decimal.of_str (cleaned s) with
      | Some d => d
      | None => decimal.zero
      end
  end.

Definition quantity_of (r : csv_row) : Decimal :=
  number_of (import_bill.row_get "quantity" r).

Definition unit_price_of (r : csv_row) : Decimal :=
  number_of (import_bill.row_get "product_price" r).

Definition tax_of (r : csv_row) : Decimal :=
  number_of (import_bill.row_get "tax_amount" r).

Definition line_total_of (r : csv_row) : Decimal :=
  number_of (import_bill.row_get "total" r).

(** The sum of Decimals as Python computes it: from [Decimal("0")], left to
    right, in the arithmetic of the context. *)
Definition sum_from (acc : outcome Decimal) (l : list (outcome Decimal))
  : outcome Decimal :=
  fold_left (fun acc x => (a <- acc ;; v <- x ;; decimal.add a v)%out) l acc.

Definition decimal_sum (l : list (outcome Decimal)) : outcome Decimal :=
  sum_from (Ok decimal.zero) l.

(** quantity x unit price of a row *)
Definition line_amount (r : csv_row) : outcome Decimal :=
  decimal.mul (quantity_of r) (unit_price_of r).

Definition item_of (r : csv_row) : import_bill.prepared_item :=
  import_bill.mk_item (import_bill.row_get "product_name" r) (quantity_of r)
                      (unit_price_of r) (line_total_of r).

Definition bill_item_of (bill_id : Z) (it : import_bill.prepared_item)
  : bill_item_rec :=
  mk_bill_item bill_id None (import_bill.it_product_name it)
               (import_bill.it_quantity it) None
               (import_bill.it_unit_price it) (import_bill.it_line_total it).

Definition source_of (source : option string) (csv_path : string) : string :=
  match source with
  | Some s => if String.eqb s "" then csv_path else s
  | None => csv_path
  end.

(** The world [get_connection] returns in when the store does not fail. *)
Definition connected (w : world) : world :=
  mk_world (persisted w) (persisted w) false ConnOpen (faults w) (bill_seq w)
           (clock w) (stdout w).

(** The store once the bill [header] and its [items] are committed. *)
Definition posted (header : bill_rec) (items : list bill_item_rec) (d : db)
  : db :=
  set_bill_item (bill_item d ++ items) (set_bill (bill d ++ [header]) d).

(** The store operations of the connection set-up succeed. *)
Definition setup_succeeds (w : world) : Prop :=
  forall n, faults w = Some n -> (3 <= n)%nat.

(** The body of the [with conn] block of the product import. *)
Definition product_body (update_prices : bool)
                        (price_timestamp : option datetime)
                        (products : list row_data) : M unit :=
  c <- import_products update_prices price_timestamp products
                       (mk_counters 0 0 0) ;;
  commit ;;
  print (ImportSummary (products_updated c) (prices_inserted c)
                       (prices_updated c)).

(** The body of the [with conn] block of the bill import. *)
Definition bill_body (mk : Z -> bill_rec)
                     (its : list import_bill.prepared_item) : M unit :=
  bill_id <- import_bill.insert_bill mk ;;
  import_bill.insert_bill_items bill_id its.

(** A bill of three lines, and a store that fails on the third item. *)
Definition three_lines : csv_file :=
  [["product_name"; "quantity"; "product_price"; "tax_amount"; "total"];
   ["flour"; "2"; "10.00"; "1.00"; "20.00"];
   ["salt"; "1"; "5.00"; "0.50"; "5.00"];
   ["oil"; "3"; "4.00"; "0.40"; "12.00"]].

Definition failing_world (n : nat) : world :=
  mk_world empty_db empty_db false NoConnection (Some n) 1 0 [].


(** * Further vocabulary *)

(** A relation between the contents the run sees before and after a step. *)
Definition on_view (P : db -> db -> Prop) (w w' : world) : Prop :=
  P (view w) (view w').

(** What a step returns, when it returns, satisfies [Q]. *)
Definition returns {A} (Q : A -> Prop) (m : M A) : Prop :=
  forall w a w', m w = (Ok a, w') -> Q a.

(** What a step raises, when it raises, is in [S]. *)
Definition raises_only {A} (S : exn -> Prop) (m : M A) : Prop :=
  forall w e w', m w = (Raise e, w') -> S e.

Definition product_ids (t : list product_rec) : list Z := map p_product_id t.

(** SELECT ... FROM product WHERE product_id = pid *)
Definition find_product (pid : Z) (t : list product_rec)
  : option product_rec :=
  find (fun q => p_product_id q =? pid) t.

(** The natural key of an observation. *)
Definition price_key (r : price_rec) : Z * datetime :=
  (pp_product_id r, pp_created_when r).


(** Nothing is deleted or re-keyed: the observations keep their keys and
    their places, new ones come after them; no product identifier goes
    away; the bill tables are as they were. *)
Definition nothing_lost (d d' : db) : Prop :=
  (exists l, map price_key (product_price d')
             = map price_key (product_price d) ++ l) /\
  incl (product_ids (product d)) (product_ids (product d')) /\
  bill d' = bill d /\ bill_item d' = bill_item d.

(** The observations that were added carry the time stamp [ts]. *)
Definition stamped (ts : datetime) (d d' : db) : Prop :=
  exists l, map price_key (product_price d')
            = map price_key (product_price d) ++ l /\
            Forall (fun k => snd k = ts) l.

(** The record and the history of the product [q] are as they were. *)
Definition product_untouched (q : Z) (d d' : db) : Prop :=
  history q (product_price d') = history q (product_price d) /\
  find_product q (product d') = find_product q (product d).

Definition prices_untouched (d d' : db) : Prop :=
  product_price d' = product_price d.

(** The product tables are as they were and the bill tables only grow at
    their end. *)
Definition bills_appended (d d' : db) : Prop :=
  product d' = product d /\ product_price d' = product_price d /\
  (exists l, bill d' = bill d ++ l) /\
  (exists l, bill_item d' = bill_item d ++ l).


(** The product record a row stands for. *)
Definition row_record (row : row_data) : option product_rec :=
  match pydict.get "product_id" row, pydict.get "product_name" row with
  | Some (VInt pid), Some name => Some (product_of pid name row)
  | _, _ => None
  end.

(** The product table once the rows are written, in the order of the file. *)
Definition upsert_rows (rows : list row_data) (t : list product_rec)
  : list product_rec :=
  fold_left (fun t row => match row_record row with
                          | Some p => upsert p t
                          | None => t
                          end) rows t.

(** The record of the last row that names the product [pid]. *)
Fixpoint last_record (pid : Z) (rows : list row_data) : option product_rec :=
  match rows with
  | [] => None
  | row :: rest =>
      match last_record pid rest with
      | Some p => Some p
      | None =>
          match row_record row with
          | Some p => if p_product_id p =? pid then Some p else None
          | None => None
          end
      end
  end.

(** The row carries a cost. *)
Definition has_cost (row : row_data) : bool :=
  match pydict.get "cost_per_unit" row with
  | Some (VDec _) => true
  | _ => false
  end.

Definition price_events (c : counters) : nat :=
  (prices_inserted c + prices_updated c)%nat.


Definition same_products (d d' : db) : Prop := product d' = product d.


(** A row as the import needs it: an [int] under product_id, an entry under
    product_name, and under cost_per_unit nothing, [None] or a Decimal. *)
Definition well_typed (row : row_data) : Prop :=
  (exists pid, pydict.get "product_id" row = Some (VInt pid)) /\
  pydict.get "product_name" row <> None /\
  match pydict.get "cost_per_unit" row with
  | Some (VStr _) | Some (VInt _) => False
  | _ => True
  end.

(** The errors of the readers. *)
Definition reader_error (e : exn) : Prop :=
  (exists msg, e = ValueError msg) \/ e = AttributeError.

(** The errors of the store and of the comparison of costs. *)
Definition store_error (e : exn) : Prop :=
  e = StoreError \/ e = InvalidOperation.

(** The errors a product import can end with. *)
Definition import_error (e : exn) : Prop := reader_error e \/ store_error e.

(** The records the reader iterates over. *)
Definition records (f : csv_file) : list (list string) :=
  filter (fun r => negb (is_blank_record r)) (tl f).

Definition is_warning (l : line) : Prop :=
  exists v, l = WarnInvalidProductId v.


(** The errors of the Decimal arithmetic under the default context. *)
Definition arithmetic_error (e : exn) : Prop :=
  e = InvalidOperation \/ e = Overflow.

(** The errors a bill import can end with. *)
Definition bill_error (e : exn) : Prop :=
  (exists msg, e = ValueError msg) \/ arithmetic_error e \/ e = StoreError.


(** A plain numeral: an optional minus sign, integer digits and, after a
    point, fraction digits. *)
Definition fraction (fp : option string) : string :=
  match fp with
  | Some d => d
  | None => EmptyString
  end.

Definition numeral (neg : bool) (ip : string) (fp : option string) : string :=
  ((if neg then "-" else "")
   ++ ip ++ match fp with
            | Some d => String "." d
            | None => EmptyString
            end)%string.


(** A number: neither an infinity nor a NaN. *)
Definition is_finite (d : Decimal) : bool :=
  match d with
  | Finite _ _ _ => true
  | _ => false
  end.

(** [l] is an observation of the product that none of its observations is
    more recent than. *)
Definition newest (pid : Z) (l : price_rec) (d : db) : Prop :=
  In l (history pid (product_price d)) /\
  forall r, In r (history pid (product_price d)) ->
            pp_created_when r <= pp_created_when l.

(** A bill whose header writes two of its columns after a blank. *)
Definition padded_bill : csv_file :=
  [["product_name"; " quantity"; "product_price"; "tax_amount"; " total"];
   ["flour"; "2"; "10.00"; "1.00"; "20.00"]].

(** A product list whose first record has an identifier that is no integer
    and one field more than the header. *)
Definition long_invalid_record : csv_file :=
  [["product_id"; "product_name"]; ["x1"; "pear"; ""]; ["2"; "fig"]].

(** * Properties *)

(** ** The decimal normalizer *)

Section Normalizer.

Import decimal.

Lemma remove_char_absent (x : ascii) (s : string) :
  ~ In x (list_ascii_of_string (text.remove_char x s)).
Proof.
  induction s as [|c s IH]; simpl.
  - intros [].
  - destruct (Ascii.eqb c x) eqn:E; simpl.
    + exact IH.
    + intros [H|H].
      * subst c. rewrite Ascii.eqb_refl in E. discriminate.
      * exact (IH H).
Qed.

Lemma parse_decimal_eq (s : string) (default : Decimal) :
  parse_decimal (Some s) default
  = Ok (match decimal.of_str (cleaned s) with
        | Some d => d
        | None => default
        end).
Proof.
  unfold parse_decimal, Decimal_of, cleaned.
  destruct (String.eqb s "") eqn:Es.
  - apply String.eqb_eq in Es. subst s. reflexivity.
  - destruct (String.eqb (text.remove_char "," (text.strip s)) "") eqn:Ec;
      simpl.
    + apply String.eqb_eq in Ec. rewrite Ec. reflexivity.
    + destruct (decimal.of_str (text.remove_char "," (text.strip s)));
        reflexivity.
Qed.

(** *** The alphabet of the numeric strings *)

Lemma all_chars_app p a b :
  text.all_chars p (a ++ b) = text.all_chars p a && text.all_chars p b.
Proof.
  induction a as [|c a IH]; simpl; [reflexivity|].
  rewrite IH. apply andb_assoc.
Qed.

Lemma all_chars_weaken (p q : ascii -> bool) s :
  (forall c, p c = true -> q c = true) ->
  text.all_chars p s = true -> text.all_chars q s = true.
Proof.
  intros H. induction s as [|c s IH]; simpl; [reflexivity|].
  intros E. apply andb_prop in E. destruct E as [E1 E2].
  rewrite (H c E1), (IH E2). reflexivity.
Qed.

Lemma all_digits_all_chars s :
  text.all_digits s = text.all_chars text.isdigit s.
Proof.
  induction s as [|c s IH]; simpl; [reflexivity|]. rewrite IH. reflexivity.
Qed.

Lemma digit_numeric c : text.isdigit c = true -> numeric_char c = true.
Proof. intros H. unfold numeric_char. rewrite H. reflexivity. Qed.

Lemma digits_numeric s :
  text.all_digits s = true -> text.all_chars numeric_char s = true.
Proof.
  rewrite all_digits_all_chars. apply all_chars_weaken, digit_numeric.
Qed.

Lemma span_digits_spec s :
  s = (fst (text.span_digits s) ++ snd (text.span_digits s))%string /\
  text.all_digits (fst (text.span_digits s)) = true.
Proof.
  induction s as [|c s [IH1 IH2]]; simpl; [split; reflexivity|].
  destruct (text.isdigit c) eqn:E; [|split; reflexivity].
  destruct (text.span_digits s) as [d r]. simpl in *.
  rewrite E, IH2. split; [f_equal; exact IH1|reflexivity].
Qed.

Lemma split_sign_chars s :
  text.all_chars numeric_char (snd (split_sign s)) = true ->
  text.all_chars numeric_char s = true.
Proof.
  destruct s as [|c r]; simpl; [reflexivity|].
  destruct (Ascii.eqb c "+") eqn:E1.
  - apply Ascii.eqb_eq in E1. subst c. simpl. intros ->. reflexivity.
  - destruct (Ascii.eqb c "-") eqn:E2; [|exact (fun H => H)].
    apply Ascii.eqb_eq in E2. subst c. simpl. intros ->. reflexivity.
Qed.

Lemma parse_exponent_chars r z :
  parse_exponent r = Some z -> text.all_chars numeric_char r = true.
Proof.
  unfold parse_exponent. intros H. apply split_sign_chars.
  destruct (split_sign r) as [neg r']. simpl.
  destruct r' as [|c r']; [discriminate|].
  destruct (text.all_digits (String c r')) eqn:E; [|discriminate].
  apply digits_numeric, E.
Qed.

Lemma parse_tail_chars sign c fl s d :
  parse_tail sign c fl s = Some d -> text.all_chars numeric_char s = true.
Proof.
  destruct s as [|e r]; simpl; [reflexivity|].
  destruct (Ascii.eqb (text.lower e) "e") eqn:E; [|discriminate].
  destruct (parse_exponent r) as [z|] eqn:Ez; [|discriminate].
  intros _. rewrite (parse_exponent_chars r z Ez).
  unfold numeric_char, numeric_letter. simpl existsb at 2. rewrite E.
  rewrite !orb_true_r. reflexivity.
Qed.

Lemma parse_finite_chars sign s d :
  parse_finite sign s = Some d -> text.all_chars numeric_char s = true.
Proof.
  unfold parse_finite.
  destruct (span_digits_spec s) as [Hs Hip].
  destruct (text.span_digits s) as [ip r1]. simpl in Hs, Hip. subst s.
  rewrite all_chars_app, (digits_numeric ip Hip). simpl.
  destruct r1 as [|c r].
  - intros _. reflexivity.
  - destruct (Ascii.eqb c ".") eqn:Ec.
    + apply Ascii.eqb_eq in Ec. subst c.
      destruct (span_digits_spec r) as [Hr Hfp].
      destruct (text.span_digits r) as [fp r2]. simpl in Hr, Hfp.
      intros H. rewrite Hr. simpl. rewrite all_chars_app.
      rewrite (digits_numeric fp Hfp). simpl.
      destruct (ip ++ fp)%string; [discriminate|].
      exact (parse_tail_chars _ _ _ _ _ H).
    + intros H. destruct (ip ++ "")%string; [discriminate|].
      exact (parse_tail_chars _ _ _ _ _ H).
Qed.

Lemma lower_isdigit c : text.isdigit (text.lower c) = text.isdigit c.
Proof. destruct c as [[] [] [] [] [] [] [] []]; reflexivity. Qed.

Lemma all_chars_lower s :
  text.all_chars (fun c => text.isdigit c || numeric_letter c)
                 (text.lower_str s) = true ->
  text.all_chars numeric_char s = true.
Proof.
  induction s as [|c s IH]; simpl; [reflexivity|].
  intros H. apply andb_prop in H. destruct H as [H1 H2].
  rewrite (IH H2), andb_true_r. unfold numeric_char.
  rewrite lower_isdigit in H1.
  destruct (text.isdigit c); [reflexivity|]. simpl in H1. rewrite H1.
  apply orb_true_r.
Qed.

Lemma strip_prefix_spec p :
  forall l r, text.strip_prefix p l = Some r -> l = (p ++ r)%string.
Proof.
  induction p as [|a p IH]; simpl; intros l r H.
  - injection H as <-. reflexivity.
  - destruct l as [|b l]; [discriminate|].
    destruct (Ascii.eqb a b) eqn:E; [|discriminate].
    apply Ascii.eqb_eq in E. subst b. rewrite (IH l r H). reflexivity.
Qed.

Lemma parse_special_chars sign s d :
  parse_special sign s = Some d -> text.all_chars numeric_char s = true.
Proof.
  unfold parse_special. intros H. apply all_chars_lower.
  assert (Hnan : forall p diag,
    text.all_chars (fun c => text.isdigit c || numeric_letter c) p = true ->
    text.strip_prefix p (text.lower_str s) = Some diag ->
    text.all_digits diag = true ->
    text.all_chars (fun c => text.isdigit c || numeric_letter c)
                   (text.lower_str s) = true).
  { intros p diag Hp Hpre Hd. rewrite (strip_prefix_spec p _ _ Hpre).
    rewrite all_chars_app, Hp. simpl.
    rewrite all_digits_all_chars in Hd.
    apply (all_chars_weaken text.isdigit); [|exact Hd].
    intros c ->. reflexivity. }
  destruct (String.eqb (text.lower_str s) "inf") eqn:E1.
  - apply String.eqb_eq in E1. rewrite E1. reflexivity.
  - destruct (String.eqb (text.lower_str s) "infinity") eqn:E2.
    + apply String.eqb_eq in E2. rewrite E2. reflexivity.
    + cbv beta iota delta [orb] in H.
      destruct (text.strip_prefix "nan" (text.lower_str s)) as [diag|] eqn:E3.
      * destruct (text.all_digits diag) eqn:Ed; [|discriminate].
        exact (Hnan "nan" diag eq_refl E3 Ed).
      * destruct (text.strip_prefix "snan" (text.lower_str s)) as [diag|]
          eqn:E4; [|discriminate].
        destruct (text.all_digits diag) eqn:Ed; [|discriminate].
        exact (Hnan "snan" diag eq_refl E4 Ed).
Qed.

(** A text the constructor accepts is made of numeric characters. *)
Lemma of_str_chars s d :
  decimal.of_str s = Some d ->
  text.all_chars numeric_char (text.remove_char "_" (text.strip s)) = true.
Proof.
  unfold decimal.of_str. intros H. apply split_sign_chars.
  destruct (split_sign (text.remove_char "_" (text.strip s))) as [sign body].
  simpl. destruct (parse_finite sign body) as [d'|] eqn:E.
  - exact (parse_finite_chars sign body d' E).
  - exact (parse_special_chars sign body d H).
Qed.

End Normalizer.

(** C6.  [parse_decimal] never raises; an absent or empty text, a text that is
    empty once stripped of white space and commas, and a text the Decimal
    constructor rejects - in particular any text that, cleaned, holds a
    character no number is written with - all give the default; otherwise the
    result is the Decimal read from the text without its surrounding white
    space and its commas.  So ["1,234.50"] gives 1234.50 and [""], [None],
    ["abc"] the default. *)
Theorem parse_decimal_normalizes :
  forall (value : option string) (default : Decimal),
    (exists d, parse_decimal value default = Ok d) /\
    parse_decimal None default = Ok default /\
    parse_decimal (Some "") default = Ok default /\
    parse_decimal (Some "abc") default = Ok default /\
    parse_decimal (Some "1,234.50") default = Ok (Finite false 123450 (-2)) /\
    parse_decimal (Some "  1,234.50 ") default
    = Ok (Finite false 123450 (-2)) /\
    (forall s,
        ~ In ","%char (list_ascii_of_string (cleaned s)) /\
        parse_decimal (Some s) default
        = Ok (match decimal.of_str (cleaned s) with
              | Some d => d
              | None => default
              end) /\
        (text.all_chars numeric_char
           (text.remove_char "_" (text.strip (cleaned s))) = false ->
         parse_decimal (Some s) default = Ok default)).
Proof.
  intros value default. repeat split.
  - destruct value as [s|].
    + rewrite parse_decimal_eq. eexists. reflexivity.
    + eexists. reflexivity.
  - apply remove_char_absent.
  - apply parse_decimal_eq.
  - intros H. rewrite parse_decimal_eq.
    destruct (decimal.of_str (cleaned s)) as [d|] eqn:E; [|reflexivity].
    rewrite (of_str_chars _ _ E) in H. discriminate.
Qed.

Lemma parse_decimal_witness :
  parse_decimal (Some " 12 kg") (dec 7 0) = Ok (dec 7 0).
Proof.
  destruct (parse_decimal_normalizes None (dec 7 0))
    as [_ [_ [_ [_ [_ [_ H]]]]]].
  exact (proj2 (proj2 (H " 12 kg")) eq_refl).
Defined.

(** ** The store seen from inside the run *)

Section Primitives.

Lemma bind_ok {A B} (m : M A) (k : A -> M B) w a w1 :
  m w = (Ok a, w1) -> bind m k w = k a w1.
Proof. intros H. unfold bind. rewrite H. reflexivity. Qed.

Lemma bind_raise {A B} (m : M A) (k : A -> M B) w e w1 :
  m w = (Raise e, w1) -> bind m k w = (Raise e, w1).
Proof. intros H. unfold bind. rewrite H. reflexivity. Qed.

Lemma tick_ok w : faults w = None -> tick w = (Ok tt, w).
Proof. intros H. unfold tick. rewrite H. reflexivity. Qed.

Lemma begin_eq w : begin w = (Ok tt, in_transaction (view w) w).
Proof.
  unfold begin, view, in_transaction.
  destruct w as [p wk [] c f b k o]; reflexivity.
Qed.

Lemma fetch_ok {A} (q : db -> A) w :
  faults w = None ->
  fetch q w = (Ok (q (view w)), in_transaction (view w) w).
Proof.
  intros H. unfold fetch.
  rewrite (bind_ok _ _ _ _ _ (tick_ok w H)).
  rewrite (bind_ok _ _ _ _ _ (begin_eq w)). reflexivity.
Qed.

Lemma execute_ok (f : db -> db) w :
  faults w = None ->
  execute f w = (Ok tt, in_transaction (f (view w)) w).
Proof.
  intros H. unfold execute.
  rewrite (bind_ok _ _ _ _ _ (tick_ok w H)).
  rewrite (bind_ok _ _ _ _ _ (begin_eq w)). reflexivity.
Qed.

Lemma print_eq l w : print l w = (Ok tt, printed l w).
Proof. reflexivity. Qed.

Lemma view_in_transaction d w : view (in_transaction d w) = d.
Proof. reflexivity. Qed.

Lemma in_transaction_twice d d' w :
  in_transaction d (in_transaction d' w) = in_transaction d w.
Proof. reflexivity. Qed.

Lemma view_printed l w : view (printed l w) = view w.
Proof. reflexivity. Qed.

End Primitives.

(** ** The price reconciliation, statement by statement *)

Section Reconciliation.

Variables (product_id : Z) (new_price : Decimal) (ts : datetime).

Lemma insert_product_price_ok w :
  faults w = None ->
  insert_product_price product_id new_price (Some ts) w
  = insert_product_price_result product_id new_price ts w.
Proof.
  intros H. unfold insert_product_price, insert_product_price_result.
  rewrite (bind_ok _ _ _ _ _ (eq_refl : ret ts w = (Ok ts, w))).
  rewrite (bind_ok _ _ _ _ _ (fetch_ok _ w H)).
  assert (H0 : faults (in_transaction (view w) w) = None) by exact H.
  destruct (find (same_key product_id ts) (product_price (view w))) as [row|].
  - unfold bind at 1, lift.
    destruct (decimal.ne (pp_cost_per_unit row) new_price) as [[|]|e];
      try reflexivity.
    cbv iota beta.
    rewrite (bind_ok _ _ _ _ _ (execute_ok _ _ H0)). reflexivity.
  - rewrite (bind_ok _ _ _ _ _ (execute_ok _ _ H0)). reflexivity.
Qed.

Lemma reconcile_price_ok c w :
  faults w = None ->
  reconcile_price product_id new_price (Some ts) c w
  = reconcile_price_result product_id new_price ts c w.
Proof.
  intros H. unfold reconcile_price, reconcile_price_result,
    get_latest_product_price, latest_cost.
  rewrite (bind_ok _ _ _ _ _ (fetch_ok _ w H)).
  assert (H0 : faults (in_transaction (view w) w) = None) by exact H.
  destruct (option_map pp_cost_per_unit
              (latest product_id None (product_price (view w)))) as [cur|].
  - unfold bind at 1, lift.
    destruct (decimal.ne cur new_price) as [[|]|e]; try reflexivity.
    unfold bind at 1. rewrite (insert_product_price_ok _ H0).
    destruct (insert_product_price_result product_id new_price ts
                (in_transaction (view w) w))
      as [[[|]|e] w1]; reflexivity.
  - unfold bind at 1, ret at 1.
    unfold bind at 1. rewrite (insert_product_price_ok _ H0).
    destruct (insert_product_price_result product_id new_price ts
                (in_transaction (view w) w))
      as [[[|]|e] w1]; reflexivity.
Qed.

End Reconciliation.

(** ** Reconciling one observation *)

(** C1 (amended).  When no observation exists at the (product, time stamp) of
    the triple, what happens is decided by the latest cost of the product: with
    no history at all the row is inserted and counted as inserted ("New
    price"); with a latest cost that differs the row is inserted and counted
    as updated ("Price updated from ... to ..."); with a latest cost equal to
    the observed one nothing is inserted and "Price unchanged" is printed. *)
Theorem reconcile_without_row_at_timestamp :
  forall (pid : Z) (cost : Decimal) (ts : datetime) (c : counters) (w : world),
    faults w = None ->
    find (same_key pid ts) (product_price (view w)) = None ->
    reconcile_price pid cost (Some ts) c w
    = match latest_cost pid (view w) with
      | None =>
          (Ok (count_inserted c),
           printed (NewPrice pid cost)
                   (in_transaction (inserted pid cost ts (view w)) w))
      | Some cur =>
          match decimal.ne cur cost with
          | Ok true =>
              (Ok (count_updated c),
               printed (PriceUpdated pid cur cost)
                       (in_transaction (inserted pid cost ts (view w)) w))
          | Ok false =>
              (Ok c, printed (PriceUnchanged pid cost)
                             (in_transaction (view w) w))
          | Raise e => (Raise e, in_transaction (view w) w)
          end
      end.
Proof.
  intros pid cost ts c w Hf Hnone.
  rewrite (reconcile_price_ok pid cost ts c w Hf).
  unfold reconcile_price_result, insert_product_price_result.
  rewrite view_in_transaction, Hnone.
  destruct (latest_cost pid (view w)) as [cur|]; [|reflexivity].
  destruct (decimal.ne cur cost) as [[|]|e]; reflexivity.
Qed.

Lemma reconcile_without_row_witness :
  reconcile_price 1 (dec 600 (-2)) (Some 2%Z) no_counts
                  (world_with_prices [mk_price 1 (dec 500 (-2)) 1])
  = (Ok (mk_counters 0 1 0),
     printed (PriceUpdated 1 (dec 500 (-2)) (dec 600 (-2)))
       (in_transaction
          (set_product_price [mk_price 1 (dec 500 (-2)) 1;
                              mk_price 1 (dec 600 (-2)) 2] empty_db)
          (world_with_prices [mk_price 1 (dec 500 (-2)) 1]))).
Proof.
  exact (reconcile_without_row_at_timestamp 1 (dec 600 (-2)) 2 no_counts
           (world_with_prices [mk_price 1 (dec 500 (-2)) 1])
           eq_refl eq_refl).
Defined.

(** C1 as stated fails: with the history (product 1, 5.00, time 1), the
    triple (1, 5.00, time 2) has no observation at its time stamp, yet nothing
    is inserted and no insert is counted, because the latest cost equals the
    observed one; and the triple (1, 6.00, time 2) is inserted but counted and
    reported as an update, not as an insert. *)
Lemma insert_depends_on_latest_price :
  find (same_key 1 2)
       (product_price (view (world_with_prices [mk_price 1 (dec 500 (-2)) 1])))
  = None /\
  reconcile_price 1 (dec 500 (-2)) (Some 2%Z) no_counts
                  (world_with_prices [mk_price 1 (dec 500 (-2)) 1])
  = (Ok no_counts,
     printed (PriceUnchanged 1 (dec 500 (-2)))
       (in_transaction
          (set_product_price [mk_price 1 (dec 500 (-2)) 1] empty_db)
          (world_with_prices [mk_price 1 (dec 500 (-2)) 1]))) /\
  fst (reconcile_price 1 (dec 600 (-2)) (Some 2%Z) no_counts
                       (world_with_prices [mk_price 1 (dec 500 (-2)) 1]))
  = Ok (mk_counters 0 1 0).
Proof. repeat split; vm_compute; reflexivity. Qed.

(** ** Facts about the price history *)

Section History.

Variables (pid : Z) (ts : datetime).

Lemma latest_of_some (t : list price_rec) (b : price_rec) :
  latest pid (Some b) t <> None.
Proof.
  revert b. induction t as [|r t IH]; intros b; simpl.
  - discriminate.
  - destruct (pp_product_id r =? pid); [|apply IH].
    destruct (pp_created_when b <? pp_created_when r); apply IH.
Qed.

Lemma latest_when_found (t : list price_rec) (row : price_rec) :
  find (same_key pid ts) t = Some row ->
  forall best, latest pid best t <> None.
Proof.
  induction t as [|r t IH]; simpl; [discriminate|].
  intros H best. unfold same_key in H.
  destruct (pp_product_id r =? pid); simpl in H.
  - destruct best as [b|].
    + destruct (pp_created_when b <? pp_created_when r); apply latest_of_some.
    + apply latest_of_some.
  - apply IH. exact H.
Qed.

Lemma latest_app (t1 t2 : list price_rec) (best : option price_rec) :
  latest pid best (t1 ++ t2) = latest pid (latest pid best t1) t2.
Proof.
  revert best. induction t1 as [|r t1 IH]; intros best; simpl; [reflexivity|].
  destruct (pp_product_id r =? pid); [|apply IH].
  destruct best as [b|]; [|apply IH].
  destruct (pp_created_when b <? pp_created_when r); apply IH.
Qed.

(** A change of the costs alone does not move the latest row. *)
Lemma latest_map (g : price_rec -> price_rec) :
  (forall r, pp_product_id (g r) = pp_product_id r) ->
  (forall r, pp_created_when (g r) = pp_created_when r) ->
  forall t best,
    latest pid (option_map g best) (map g t)
    = option_map g (latest pid best t).
Proof.
  intros Hp Hc. induction t as [|r t IH]; intros best; simpl; [reflexivity|].
  rewrite Hp. destruct (pp_product_id r =? pid); [|apply IH].
  destruct best as [b|]; simpl.
  - rewrite !Hc. destruct (pp_created_when b <? pp_created_when r).
    + apply (IH (Some r)).
    + apply (IH (Some b)).
  - apply (IH (Some r)).
Qed.

Variable cost : Decimal.

Lemma overwrite_map t : overwrite pid ts cost t = map (set_cost pid ts cost) t.
Proof. reflexivity. Qed.

Lemma set_cost_product_id r :
  pp_product_id (set_cost pid ts cost r) = pp_product_id r.
Proof. unfold set_cost. destruct (same_key pid ts r); reflexivity. Qed.

Lemma set_cost_created_when r :
  pp_created_when (set_cost pid ts cost r) = pp_created_when r.
Proof. unfold set_cost. destruct (same_key pid ts r); reflexivity. Qed.

Lemma same_key_set_cost r :
  same_key pid ts (set_cost pid ts cost r) = same_key pid ts r.
Proof.
  unfold same_key. rewrite set_cost_product_id, set_cost_created_when.
  reflexivity.
Qed.

Lemma latest_overwrite t :
  latest pid None (overwrite pid ts cost t)
  = option_map (set_cost pid ts cost) (latest pid None t).
Proof.
  rewrite overwrite_map.
  exact (latest_map (set_cost pid ts cost) set_cost_product_id
                    set_cost_created_when t None).
Qed.

Lemma find_overwrite t :
  find (same_key pid ts) (overwrite pid ts cost t)
  = option_map (set_cost pid ts cost) (find (same_key pid ts) t).
Proof.
  rewrite overwrite_map. induction t as [|r t IH]; simpl; [reflexivity|].
  rewrite same_key_set_cost.
  destruct (same_key pid ts r); [reflexivity|exact IH].
Qed.

Lemma find_some_key t row :
  find (same_key pid ts) t = Some row -> same_key pid ts row = true.
Proof. intros H. apply find_some in H. apply H. Qed.

Lemma history_overwrite_length product_id t :
  List.length (history product_id (overwrite pid ts cost t))
  = List.length (history product_id t).
Proof.
  rewrite overwrite_map. unfold history.
  induction t as [|r t IH]; simpl; [reflexivity|].
  rewrite set_cost_product_id.
  destruct (pp_product_id r =? product_id); simpl; rewrite IH; reflexivity.
Qed.

Lemma find_inserted t :
  find (same_key pid ts) t = None ->
  find (same_key pid ts) (t ++ [mk_price pid cost ts])
  = Some (mk_price pid cost ts).
Proof.
  induction t as [|r t IH]; simpl.
  - intros _. unfold same_key. simpl. rewrite !Z.eqb_refl. reflexivity.
  - destruct (same_key pid ts r); [discriminate|exact IH].
Qed.

End History.

Lemma ne_refl (c : Decimal) : is_nan c = false -> decimal.ne c c = Ok false.
Proof.
  intros H. unfold decimal.ne.
  assert (Hs : is_snan c = false) by (destruct c as [| |s [|] p]; auto).
  rewrite Hs, H. simpl. f_equal.
  destruct c as [s n e|s|s g p]; simpl in *; try discriminate.
  - destruct (n =? 0)%N; [reflexivity|].
    rewrite Bool.eqb_reflx, N.eqb_refl. reflexivity.
  - rewrite Bool.eqb_reflx. reflexivity.
Qed.

(** C2 (amended).  When an observation exists at exactly the (product, time
    stamp) of the triple with a different cost, and the latest cost of the
    product differs from the observed cost as well, the cost is overwritten in
    place, the change is counted and reported as an update, and the number of
    observations - of the product and in total - is unchanged. *)
Theorem correction_overwrites_in_place :
  forall (pid : Z) (cost : Decimal) (ts : datetime) (c : counters) (w : world)
         (row : price_rec),
    faults w = None ->
    find (same_key pid ts) (product_price (view w)) = Some row ->
    decimal.ne (pp_cost_per_unit row) cost = Ok true ->
    (forall cur, latest_cost pid (view w) = Some cur ->
                 decimal.ne cur cost = Ok true) ->
    exists cur,
      latest_cost pid (view w) = Some cur /\
      reconcile_price pid cost (Some ts) c w
      = (Ok (count_updated c),
         printed (PriceUpdated pid cur cost)
                 (in_transaction (overwritten pid cost ts (view w)) w)) /\
      find (same_key pid ts) (product_price (overwritten pid cost ts (view w)))
      = Some (mk_price (pp_product_id row) cost (pp_created_when row)) /\
      map pp_created_when (product_price (overwritten pid cost ts (view w)))
      = map pp_created_when (product_price (view w)) /\
      List.length (history pid
                     (product_price (overwritten pid cost ts (view w))))
      = List.length (history pid (product_price (view w))) /\
      List.length (product_price (overwritten pid cost ts (view w)))
      = List.length (product_price (view w)).
Proof.
  intros pid cost ts c w row Hf Hrow Hne Hlatest.
  destruct (latest_cost pid (view w)) as [cur|] eqn:Hl.
  - exists cur. split; [reflexivity|]. split; [|split; [|split; [|split]]].
    + rewrite (reconcile_price_ok pid cost ts c w Hf).
      unfold reconcile_price_result, insert_product_price_result.
      rewrite Hl, (Hlatest cur eq_refl), view_in_transaction, Hrow, Hne.
      reflexivity.
    + simpl. rewrite find_overwrite, Hrow. simpl. unfold set_cost.
      rewrite (find_some_key _ _ _ _ Hrow). reflexivity.
    + simpl. rewrite overwrite_map, map_map.
      apply map_ext. intros r. apply set_cost_created_when.
    + simpl. apply history_overwrite_length.
    + simpl. unfold overwrite. apply length_map.
  - exfalso. unfold latest_cost in Hl.
    destruct (latest pid None (product_price (view w))) eqn:E; [discriminate|].
    exact (latest_when_found pid ts _ _ Hrow None E).
Qed.

Lemma correction_witness :
  exists cur,
    latest_cost 1 (view (world_with_prices [mk_price 1 (dec 500 (-2)) 1]))
    = Some cur /\
    fst (reconcile_price 1 (dec 700 (-2)) (Some 1) no_counts
                         (world_with_prices [mk_price 1 (dec 500 (-2)) 1]))
    = Ok (mk_counters 0 1 0).
Proof.
  destruct (correction_overwrites_in_place 1 (dec 700 (-2)) 1 no_counts
              (world_with_prices [mk_price 1 (dec 500 (-2)) 1])
              (mk_price 1 (dec 500 (-2)) 1) eq_refl eq_refl eq_refl)
    as [cur [Hl [Hr _]]].
  - intros cur H. vm_compute in H. injection H as <-. reflexivity.
  - exists cur. split; [exact Hl|]. exact (f_equal fst Hr).
Defined.

(** C2 as stated fails: with the history (product 1, 5.00, time 1),
    (product 1, 7.00, time 2), the triple (1, 7.00, time 1) meets an
    observation at its time stamp with another cost (5.00), yet that cost is
    not overwritten and no update is counted, because the latest cost (7.00)
    equals the observed one. *)
Lemma correction_depends_on_latest_price :
  find (same_key 1 1)
       (product_price (view (world_with_prices
                               [mk_price 1 (dec 500 (-2)) 1;
                                mk_price 1 (dec 700 (-2)) 2])))
  = Some (mk_price 1 (dec 500 (-2)) 1) /\
  decimal.ne (dec 500 (-2)) (dec 700 (-2)) = Ok true /\
  reconcile_price 1 (dec 700 (-2)) (Some 1) no_counts
                  (world_with_prices [mk_price 1 (dec 500 (-2)) 1;
                                      mk_price 1 (dec 700 (-2)) 2])
  = (Ok no_counts,
     printed (PriceUnchanged 1 (dec 700 (-2)))
       (in_transaction
          (set_product_price [mk_price 1 (dec 500 (-2)) 1;
                              mk_price 1 (dec 700 (-2)) 2] empty_db)
          (world_with_prices [mk_price 1 (dec 500 (-2)) 1;
                              mk_price 1 (dec 700 (-2)) 2]))).
Proof. repeat split; vm_compute; reflexivity. Qed.

(** ** Reconciling twice *)

Section Twice.

Variables (pid : Z) (cost : Decimal) (ts : datetime).
Hypothesis cost_is_number : is_nan cost = false.

Lemma reconcile_at_rest c w :
  faults w = None ->
  at_rest pid cost ts (view w) ->
  exists w',
    reconcile_price pid cost (Some ts) c w = (Ok c, w') /\
    view w' = view w /\ persisted w' = persisted w /\ faults w' = None /\
    (stdout w' = stdout w ++ [PriceUnchanged pid cost] \/ stdout w' = stdout w).
Proof.
  intros Hf Hr. rewrite (reconcile_price_ok pid cost ts c w Hf).
  unfold reconcile_price_result, insert_product_price_result, at_rest in *.
  rewrite view_in_transaction.
  assert (Hs : settled pid cost ts (view w) ->
    exists w',
      match find (same_key pid ts) (product_price (view w)) with
      | Some row =>
          match decimal.ne (pp_cost_per_unit row) cost with
          | Ok true =>
              (Ok true,
               in_transaction (overwritten pid cost ts (view w))
                              (in_transaction (view w) w))
          | Ok false =>
              (Ok false, in_transaction (view w) (in_transaction (view w) w))
          | Raise e =>
              (Raise e, in_transaction (view w) (in_transaction (view w) w))
          end
      | None =>
          (Ok true,
           in_transaction (inserted pid cost ts (view w))
                          (in_transaction (view w) w))
      end = (Ok false, w') /\
      view w' = view w /\ persisted w' = persisted w /\ faults w' = None /\
      stdout w' = stdout w).
  { intros [row [H1 H2]]. rewrite H1, H2. eexists. split; [reflexivity|].
    repeat split. exact Hf. }
  destruct (latest_cost pid (view w)) as [cur|].
  - destruct Hr as [Hr|[Hr Hset]]; rewrite Hr.
    + eexists. split; [reflexivity|]. repeat split; [exact Hf|].
      left. reflexivity.
    + destruct (Hs Hset) as [w' [E [H1 [H2 [H3 H4]]]]]. rewrite E.
      exists w'. repeat split; auto.
  - destruct (Hs Hr) as [w' [E [H1 [H2 [H3 H4]]]]]. rewrite E.
    exists w'. repeat split; auto.
Qed.

Lemma settled_overwritten d row :
  find (same_key pid ts) (product_price d) = Some row ->
  settled pid cost ts (overwritten pid cost ts d).
Proof.
  intros H. exists (set_cost pid ts cost row). split.
  - simpl. rewrite find_overwrite, H. reflexivity.
  - unfold set_cost. rewrite (find_some_key _ _ _ _ H). simpl.
    apply ne_refl, cost_is_number.
Qed.

Lemma settled_inserted d :
  find (same_key pid ts) (product_price d) = None ->
  settled pid cost ts (inserted pid cost ts d).
Proof.
  intros H. exists (mk_price pid cost ts). split.
  - simpl. apply find_inserted, H.
  - simpl. apply ne_refl, cost_is_number.
Qed.

Lemma latest_cost_overwritten d :
  latest_cost pid (overwritten pid cost ts d)
  = option_map (fun r => pp_cost_per_unit (set_cost pid ts cost r))
               (latest pid None (product_price d)).
Proof.
  unfold latest_cost. simpl. rewrite latest_overwrite.
  destruct (latest pid None (product_price d)); reflexivity.
Qed.

Lemma latest_cost_inserted d :
  latest_cost pid (inserted pid cost ts d)
  = match latest pid None (product_price d) with
    | Some b => if pp_created_when b <? ts then Some cost
                else Some (pp_cost_per_unit b)
    | None => Some cost
    end.
Proof.
  unfold latest_cost. simpl. rewrite latest_app. simpl. rewrite Z.eqb_refl.
  destruct (latest pid None (product_price d)) as [b|]; [|reflexivity].
  destruct (pp_created_when b <? ts); reflexivity.
Qed.

(** After a first reconciliation that came back, the triple is at rest. *)
Lemma at_rest_after c c' w w1 :
  faults w = None ->
  reconcile_price pid cost (Some ts) c w = (Ok c', w1) ->
  faults w1 = None /\ at_rest pid cost ts (view w1).
Proof.
  intros Hf. rewrite (reconcile_price_ok pid cost ts c w Hf).
  unfold reconcile_price_result, insert_product_price_result.
  rewrite view_in_transaction.
  assert (Hattempt : forall (report : line) (count : counters -> counters),
    (forall cur, latest_cost pid (view w) = Some cur ->
                 decimal.ne cur cost = Ok true) ->
    match
      match find (same_key pid ts) (product_price (view w)) with
      | Some row =>
          match decimal.ne (pp_cost_per_unit row) cost with
          | Ok true =>
              (Ok true,
               in_transaction (overwritten pid cost ts (view w))
                              (in_transaction (view w) w))
          | Ok false =>
              (Ok false, in_transaction (view w) (in_transaction (view w) w))
          | Raise e =>
              (Raise e, in_transaction (view w) (in_transaction (view w) w))
          end
      | None =>
          (Ok true,
           in_transaction (inserted pid cost ts (view w))
                          (in_transaction (view w) w))
      end
    with
    | (Ok true, w1) => (Ok (count c), printed report w1)
    | (Ok false, w1) => (Ok c, w1)
    | (Raise e, w1) => (Raise e, w1)
    end = (Ok c', w1) ->
    faults w1 = None /\ at_rest pid cost ts (view w1)).
  { intros report count Hcur.
    destruct (find (same_key pid ts) (product_price (view w))) as [row|]
      eqn:Hfind.
    - destruct (decimal.ne (pp_cost_per_unit row) cost) as [[|]|e] eqn:Hne;
        intros H; inversion H; subst; clear H; (split; [exact Hf|]).
      + rewrite view_printed, view_in_transaction. unfold at_rest.
        rewrite latest_cost_overwritten.
        destruct (latest pid None (product_price (view w))) as [l|] eqn:Hl;
          simpl; [|eapply settled_overwritten; eassumption].
        unfold set_cost. destruct (same_key pid ts l); simpl.
        * left. apply ne_refl, cost_is_number.
        * right. split; [|eapply settled_overwritten; eassumption].
          apply Hcur. unfold latest_cost. rewrite Hl. reflexivity.
      + rewrite view_in_transaction. unfold at_rest.
        assert (Hs : settled pid cost ts (view w)) by (exists row; auto).
        destruct (latest_cost pid (view w)) as [cur|] eqn:Hl; [|exact Hs].
        right. split; [apply Hcur; reflexivity|exact Hs].
    - intros H; inversion H; subst; clear H. split; [exact Hf|].
      rewrite view_printed, view_in_transaction. unfold at_rest.
      rewrite latest_cost_inserted.
      destruct (latest pid None (product_price (view w))) as [l|] eqn:Hl.
      + destruct (pp_created_when l <? ts).
        * left. apply ne_refl, cost_is_number.
        * right. split; [|apply settled_inserted, Hfind].
          apply Hcur. unfold latest_cost. rewrite Hl. reflexivity.
      + left. apply ne_refl, cost_is_number. }
  destruct (latest_cost pid (view w)) as [cur|] eqn:Hl.
  - destruct (decimal.ne cur cost) as [[|]|e] eqn:Hne.
    + apply Hattempt. intros cur' E. injection E as <-. exact Hne.
    + intros H; inversion H; subst; clear H. split; [exact Hf|].
      rewrite view_printed, view_in_transaction. unfold at_rest.
      rewrite Hl. left. exact Hne.
    + discriminate.
  - apply Hattempt. discriminate.
Qed.

End Twice.

(** ** Reading the product rows *)

Section Dicts.

Context {V : Type}.

Lemma get_set_same (k : string) (v : V) (d : pydict.t V) :
  pydict.get k (pydict.set k v d) = Some v.
Proof.
  induction d as [|[k' v'] d IH]; simpl.
  - rewrite String.eqb_refl. reflexivity.
  - destruct (String.eqb k k') eqn:E; simpl; rewrite E; [reflexivity|exact IH].
Qed.

Lemma get_set_other (k k' : string) (v : V) (d : pydict.t V) :
  String.eqb k k' = false ->
  pydict.get k (pydict.set k' v d) = pydict.get k d.
Proof.
  intros Hk. induction d as [|[k0 v0] d IH]; simpl.
  - rewrite Hk. reflexivity.
  - destruct (String.eqb k' k0) eqn:E; simpl.
    + apply String.eqb_eq in E. subst k0. rewrite Hk. reflexivity.
    + destruct (String.eqb k k0); [reflexivity|exact IH].
Qed.

Lemma get_map_values {U : Type} (g : V -> U) (k : string) (d : pydict.t V) :
  pydict.get k (map (fun kv => (fst kv, g (snd kv))) d)
  = option_map g (pydict.get k d).
Proof.
  induction d as [|[k' v'] d IH]; simpl; [reflexivity|].
  destruct (String.eqb k k'); [reflexivity|exact IH].
Qed.

End Dicts.

Section Reader.

Lemma read_product_row_invalid r d v w :
  clean_row r = Ok d ->
  pydict.get "product_id" d = Some v ->
  match v with Some s => text.int_of_str s | None => None end = None ->
  read_product_row r w = (Ok None, printed (WarnInvalidProductId v) w).
Proof.
  intros Hc Hg Hi. unfold read_product_row.
  rewrite (bind_ok _ _ w d w) by (unfold lift; rewrite Hc; reflexivity).
  rewrite Hg, Hi. reflexivity.
Qed.

Lemma read_product_row_valid r d sid pid w :
  clean_row r = Ok d ->
  pydict.get "product_id" d = Some (Some sid) ->
  text.int_of_str sid = Some pid ->
  read_product_row r w
  = (Ok (Some
       match pydict.get "cost_per_unit" d with
       | Some (Some s) =>
           if negb (String.eqb s "")
           then pydict.set "cost_per_unit"
                  (VDec match decimal.of_str (cleaned s) with
                        | Some c => c
                        | None => decimal.zero
                        end)
                  (validated pid d)
           else validated pid d
       | _ => validated pid d
       end), w).
Proof.
  intros Hc Hg Hi. unfold read_product_row.
  rewrite (bind_ok _ _ w d w) by (unfold lift; rewrite Hc; reflexivity).
  rewrite Hg, Hi.
  destruct (pydict.get "cost_per_unit" d) as [[s|]|]; try reflexivity.
  destruct (negb (String.eqb s "")); [|reflexivity].
  unfold bind, lift. rewrite parse_decimal_eq. reflexivity.
Qed.

Lemma validated_product_id pid d :
  pydict.get "product_id" (validated pid d) = Some (VInt pid).
Proof. apply get_set_same. Qed.

Lemma validated_other k pid d :
  String.eqb k "product_id" = false ->
  pydict.get k (validated pid d) = option_map to_pyval (pydict.get k d).
Proof.
  intros H. unfold validated. rewrite (get_set_other _ _ _ _ H).
  apply get_map_values.
Qed.

End Reader.

(** A record without surplus fields whose product identifier does not read
    as an integer (or is empty) is skipped: a warning is printed, the row is
    not added to the rows read so far, nothing is raised, and the reader goes
    on with the remaining records. *)
Theorem invalid_product_id_skips_row :
  forall (r : csv_row) (d : pydict.t (option string)) (v : option string)
         (rs : list csv_row) (rows : list row_data) (w : world),
    clean_row r = Ok d ->
    pydict.get "product_id" d = Some v ->
    match v with Some s => text.int_of_str s | None => None end = None ->
    read_product_row r w = (Ok None, printed (WarnInvalidProductId v) w) /\
    read_product_rows (r :: rs) rows w
    = read_product_rows rs rows (printed (WarnInvalidProductId v) w).
Proof.
  intros r d v rs rows w Hc Hg Hi.
  pose proof (read_product_row_invalid r d v w Hc Hg Hi) as H.
  split; [exact H|].
  simpl. rewrite (bind_ok _ _ _ _ _ H). reflexivity.
Qed.

Lemma invalid_product_id_witness :
  read_product_rows
    [DictReader_row ["product_id"; "product_name"] ["x1"; "pear"];
     DictReader_row ["product_id"; "product_name"] ["2"; "fig"]]
    [] (world_with_prices [])
  = (Ok [[("product_id", VInt 2); ("product_name", VStr "fig")]],
     printed (WarnInvalidProductId (Some "x1")) (world_with_prices [])).
Proof.
  rewrite (proj2 (invalid_product_id_skips_row
                    (DictReader_row ["product_id"; "product_name"]
                                    ["x1"; "pear"])
                    [("product_id", Some "x1"); ("product_name", Some "pear")]
                    (Some "x1")
                    [DictReader_row ["product_id"; "product_name"]
                                    ["2"; "fig"]]
                    [] (world_with_prices []) eq_refl eq_refl eq_refl)).
  reflexivity.
Defined.

(** ** What every step of a run preserves *)

Section Keeps.

(** A relation between the world before and after a step that holds across
    sequences of steps. *)
Variable R : world -> world -> Prop.
Hypothesis R_refl : forall w, R w w.
Hypothesis R_trans : forall a b c, R a b -> R b c -> R a c.

Lemma keeps_ret {A} (a : A) : keeps R (ret a).
Proof. intros w. apply R_refl. Qed.

Lemma keeps_raise {A} (e : exn) : keeps R (@raise A e).
Proof. intros w. apply R_refl. Qed.

Lemma keeps_lift {A} (o : outcome A) : keeps R (lift o).
Proof. intros w. apply R_refl. Qed.

Lemma keeps_now : keeps R now.
Proof. intros w. apply R_refl. Qed.

Lemma keeps_bind {A B} (m : M A) (k : A -> M B) :
  keeps R m -> (forall a, keeps R (k a)) -> keeps R (bind m k).
Proof.
  intros Hm Hk w. unfold bind. specialize (Hm w).
  destruct (m w) as [[a|e] w1]; simpl in *.
  - eapply R_trans; [exact Hm|apply Hk].
  - exact Hm.
Qed.

Lemma keeps_try_except {A} (body : M A) (handler : exn -> M A) :
  keeps R body -> (forall e, keeps R (handler e)) ->
  keeps R (try_except body handler).
Proof.
  intros Hb Hh w. unfold try_except. specialize (Hb w).
  destruct (body w) as [[a|e] w1]; simpl in *.
  - exact Hb.
  - eapply R_trans; [exact Hb|apply Hh].
Qed.

Lemma keeps_try_finally {A} (body : M A) (fin : M unit) :
  keeps R body -> keeps R fin -> keeps R (try_finally body fin).
Proof.
  intros Hb Hf w. unfold try_finally. specialize (Hb w).
  destruct (body w) as [r w1]. specialize (Hf w1).
  destruct (fin w1) as [[u|e] w2]; simpl in *;
    eapply R_trans; eassumption.
Qed.

End Keeps.

Section Relations.

Lemma same_persisted_refl w : same_persisted w w.
Proof. split; reflexivity. Qed.

Lemma same_persisted_trans a b c :
  same_persisted a b -> same_persisted b c -> same_persisted a c.
Proof. intros [H1 H2] [H3 H4]. split; congruence. Qed.

Lemma same_stdout_refl w : same_stdout w w.
Proof. reflexivity. Qed.

Lemma same_stdout_trans a b c :
  same_stdout a b -> same_stdout b c -> same_stdout a c.
Proof. unfold same_stdout. congruence. Qed.

Lemma same_prices_refl w : same_prices w w.
Proof. reflexivity. Qed.

Lemma same_prices_trans a b c :
  same_prices a b -> same_prices b c -> same_prices a c.
Proof. unfold same_prices. congruence. Qed.

Lemma same_store_refl w : same_store w w.
Proof. repeat split. Qed.

Lemma same_store_trans a b c :
  same_store a b -> same_store b c -> same_store a c.
Proof.
  unfold same_store. intros H1 H2.
  repeat match goal with H : _ /\ _ |- _ => destruct H end.
  repeat split; congruence.
Qed.

End Relations.

Ltac world_cases w :=
  destruct w as [? ? [|] ? [[|?]|] ? ? ?]; simpl; repeat split;
  try reflexivity; try congruence.

Section PrimitiveSteps.

Lemma tick_same_persisted : keeps same_persisted tick.
Proof. intros w. unfold tick. world_cases w. Qed.

Lemma tick_same_stdout : keeps same_stdout tick.
Proof. intros w. unfold tick, same_stdout. world_cases w. Qed.

Lemma tick_same_prices : keeps same_prices tick.
Proof. intros w. unfold tick, same_prices, view. world_cases w. Qed.

Lemma begin_same_persisted : keeps same_persisted begin.
Proof. intros w. unfold begin. world_cases w. Qed.

Lemma begin_same_stdout : keeps same_stdout begin.
Proof. intros w. unfold begin, same_stdout. world_cases w. Qed.

Lemma begin_same_prices : keeps same_prices begin.
Proof. intros w. unfold begin, same_prices, view. world_cases w. Qed.

Lemma execute_same_persisted f : keeps same_persisted (execute f).
Proof. intros w. unfold execute, bind, tick, begin. world_cases w. Qed.

Lemma execute_same_stdout f : keeps same_stdout (execute f).
Proof.
  intros w. unfold execute, bind, tick, begin, same_stdout. world_cases w.
Qed.

Lemma execute_same_prices f :
  (forall d, product_price (f d) = product_price d) ->
  keeps same_prices (execute f).
Proof.
  intros Hf w. unfold execute, bind, tick, begin, same_prices, view.
  destruct w as [? ? [|] ? [[|?]|] ? ? ?]; simpl; auto.
Qed.

Lemma fetch_same_persisted {A} (q : db -> A) : keeps same_persisted (fetch q).
Proof. intros w. unfold fetch, bind, tick, begin. world_cases w. Qed.

Lemma fetch_same_stdout {A} (q : db -> A) : keeps same_stdout (fetch q).
Proof.
  intros w. unfold fetch, bind, tick, begin, same_stdout. world_cases w.
Qed.

Lemma print_same_persisted l : keeps same_persisted (print l).
Proof. intros w. split; reflexivity. Qed.

Lemma print_same_prices l : keeps same_prices (print l).
Proof. intros w. reflexivity. Qed.

Lemma print_same_store l : keeps same_store (print l).
Proof. intros w. repeat split. Qed.

Lemma rollback_same_persisted : keeps same_persisted rollback.
Proof. intros w. split; reflexivity. Qed.

Lemma tick_faulty : faulty tick.
Proof.
  intros w. unfold tick, fault_inv.
  destruct w as [? ? ? ? [[|?]|] ? ? ?]; simpl; split; congruence.
Qed.

Lemma same_faults_faulty {A} (m : M A) :
  (forall w, faults (snd (m w)) = faults w) -> faulty m.
Proof.
  intros H w. unfold fault_inv. rewrite H. split; [auto|]. congruence.
Qed.

Lemma ret_faulty {A} (a : A) : faulty (ret a).
Proof. apply same_faults_faulty. reflexivity. Qed.

Lemma raise_faulty {A} (e : exn) : faulty (@raise A e).
Proof. apply same_faults_faulty. reflexivity. Qed.

Lemma lift_faulty {A} (o : outcome A) : faulty (lift o).
Proof. apply same_faults_faulty. reflexivity. Qed.

Lemma print_faulty l : faulty (print l).
Proof. apply same_faults_faulty. reflexivity. Qed.

Lemma now_faulty : faulty now.
Proof. apply same_faults_faulty. reflexivity. Qed.

Lemma begin_faulty : faulty begin.
Proof.
  apply same_faults_faulty. intros w. unfold begin.
  destruct (in_txn w); reflexivity.
Qed.

Lemma rollback_faulty : faulty rollback.
Proof. apply same_faults_faulty. reflexivity. Qed.

Lemma close_faulty : faulty close.
Proof. apply same_faults_faulty. reflexivity. Qed.

Lemma bind_faulty {A B} (m : M A) (k : A -> M B) :
  faulty m -> (forall a, faulty (k a)) -> faulty (bind m k).
Proof.
  intros Hm Hk w. unfold bind. specialize (Hm w).
  destruct (m w) as [[a|e] w1]; simpl in *; [|exact Hm].
  specialize (Hk a w1). destruct (k a w1) as [r w2]; simpl in *.
  destruct Hm as [H1 H2], Hk as [H3 H4]. split.
  - auto.
  - intros Hw Hw2. apply H4; [|exact Hw2].
    intros Hw1. specialize (H2 Hw Hw1). discriminate.
Qed.

Lemma execute_faulty f : faulty (execute f).
Proof.
  unfold execute. apply bind_faulty; [apply tick_faulty|intros _].
  apply bind_faulty; [apply begin_faulty|intros _].
  apply same_faults_faulty. reflexivity.
Qed.

Lemma fetch_faulty {A} (q : db -> A) : faulty (fetch q).
Proof.
  unfold fetch. apply bind_faulty; [apply tick_faulty|intros _].
  apply bind_faulty; [apply begin_faulty|intros _].
  apply same_faults_faulty. reflexivity.
Qed.

Lemma commit_faulty : faulty commit.
Proof.
  intros w. unfold commit. destruct (in_txn w).
  - apply (bind_faulty tick); [apply tick_faulty|intros _].
    apply same_faults_faulty. reflexivity.
  - apply ret_faulty.
Qed.

Lemma connect_faulty : faulty connect.
Proof.
  unfold connect. apply bind_faulty; [apply tick_faulty|intros _].
  apply same_faults_faulty. reflexivity.
Qed.

Lemma get_connection_faulty : faulty get_connection.
Proof.
  unfold get_connection.
  apply bind_faulty; [apply connect_faulty|intros _].
  apply bind_faulty; [apply execute_faulty|intros _]. apply commit_faulty.
Qed.

Lemma with_conn_faulty {A} (body : M A) :
  faulty body -> faulty (with_conn body).
Proof.
  intros Hb w. unfold with_conn. specialize (Hb w).
  destruct (body w) as [[a|e] w1]; simpl in *.
  - pose proof (bind_faulty commit (fun _ => ret a) commit_faulty
                  (fun _ => ret_faulty a) w1) as Hc.
    destruct ((commit ;; ret a) w1) as [r w2]; simpl in *.
    destruct Hb as [H1 H2], Hc as [H3 H4]. split; [auto|].
    intros Hw Hw2. apply H4; [|exact Hw2].
    intros Hw1. specialize (H2 Hw Hw1). discriminate.
  - exact Hb.
Qed.

Lemma try_finally_close_faulty {A} (body : M A) :
  faulty body -> faulty (try_finally body close).
Proof.
  intros Hb w. unfold try_finally. specialize (Hb w).
  destruct (body w) as [r w1]; simpl in *. exact Hb.
Qed.

End PrimitiveSteps.

(** ** One product row *)

Section ProductRow.

Lemma upsert_product_same_prices row : keeps same_prices (upsert_product row).
Proof.
  unfold upsert_product.
  apply (keeps_bind _ same_prices_trans);
    [apply (keeps_lift _ same_prices_refl)|intros pid].
  apply (keeps_bind _ same_prices_trans);
    [apply (keeps_lift _ same_prices_refl)|intros name].
  apply execute_same_prices. reflexivity.
Qed.

Lemma upsert_product_same_persisted row :
  keeps same_persisted (upsert_product row).
Proof.
  unfold upsert_product.
  apply (keeps_bind _ same_persisted_trans);
    [apply (keeps_lift _ same_persisted_refl)|intros pid].
  apply (keeps_bind _ same_persisted_trans);
    [apply (keeps_lift _ same_persisted_refl)|intros name].
  apply execute_same_persisted.
Qed.

Lemma upsert_product_ok row pid name w :
  faults w = None ->
  pydict.get "product_id" row = Some (VInt pid) ->
  pydict.get "product_name" row = Some name ->
  upsert_product row w = (Ok tt, upserted (product_of pid name row) w).
Proof.
  intros Hf Hp Hn. unfold upsert_product, item, lift, obind.
  rewrite Hp, Hn. unfold bind at 1. simpl. unfold bind at 1.
  rewrite (execute_ok _ w Hf). reflexivity.
Qed.

Lemma import_product_without_cost up ts row pid c w :
  pydict.get "product_id" row = Some (VInt pid) ->
  (pydict.get "cost_per_unit" row = None \/
   pydict.get "cost_per_unit" row = Some VNone) ->
  import_product up ts row c w
  = (upsert_product row ;; ret (count_product c)) w.
Proof.
  intros Hp Hc. unfold import_product, item, lift, obind. rewrite Hp.
  unfold bind at 1. simpl.
  destruct up; [|reflexivity]. destruct Hc as [Hc|Hc]; rewrite Hc; reflexivity.
Qed.

Lemma import_product_with_cost ts row pid name cost c w :
  faults w = None ->
  pydict.get "product_id" row = Some (VInt pid) ->
  pydict.get "product_name" row = Some name ->
  pydict.get "cost_per_unit" row = Some (VDec cost) ->
  import_product true (Some ts) row c w
  = reconcile_price pid cost (Some ts) (count_product c)
                    (upserted (product_of pid name row) w).
Proof.
  intros Hf Hp Hn Hc. unfold import_product, item, lift, obind. rewrite Hp.
  unfold bind at 1. simpl.
  rewrite (bind_ok _ _ _ _ _ (upsert_product_ok row pid name w Hf Hp Hn)).
  rewrite Hc. reflexivity.
Qed.

Lemma latest_in pid t :
  forall best l, latest pid best t = Some l -> best = Some l \/ In l t.
Proof.
  induction t as [|r t IH]; simpl; intros best l H; [left; exact H|].
  destruct (pp_product_id r =? pid).
  - destruct best as [b|].
    + destruct (pp_created_when b <? pp_created_when r).
      * destruct (IH _ _ H) as [E|E]; [injection E as <-|]; auto.
      * destruct (IH _ _ H) as [E|E]; auto.
    + destruct (IH _ _ H) as [E|E]; [injection E as <-|]; auto.
  - destruct (IH _ _ H) as [E|E]; auto.
Qed.

Lemma ne_total a b :
  is_snan a = false -> is_snan b = false ->
  decimal.ne a b = Ok true \/ decimal.ne a b = Ok false.
Proof.
  intros Ha Hb. unfold decimal.ne. rewrite Ha, Hb. simpl.
  destruct (is_nan a || is_nan b); [left; reflexivity|].
  destruct (eqb_num a b); [right|left]; reflexivity.
Qed.

(** A reconciliation comes back when no comparison meets a signaling NaN,
    and leaves the expected history. *)
Lemma reconcile_price_history pid cost ts c w :
  faults w = None ->
  is_nan cost = false ->
  Forall (fun p => is_snan (pp_cost_per_unit p) = false)
         (product_price (view w)) ->
  exists c' w',
    reconcile_price pid cost (Some ts) c w = (Ok c', w') /\
    product (view w') = product (view w) /\
    ((exists cur, latest_cost pid (view w) = Some cur /\
                  decimal.ne cur cost = Ok false) /\
     product_price (view w') = product_price (view w)
     \/
     (forall cur, latest_cost pid (view w) = Some cur ->
                  decimal.ne cur cost = Ok true) /\
     product_price (view w')
     = reconciled_history pid cost ts (product_price (view w)) /\
     settled pid cost ts (view w')).
Proof.
  intros Hf Hnan Hall.
  assert (Hcost : is_snan cost = false)
    by (destruct cost as [| |s [|] p]; simpl in *; congruence).
  rewrite Forall_forall in Hall.
  rewrite (reconcile_price_ok pid cost ts c w Hf).
  unfold reconcile_price_result, insert_product_price_result,
    reconciled_history.
  rewrite view_in_transaction.
  assert (Hattempt : forall report count,
    (forall cur, latest_cost pid (view w) = Some cur ->
                 decimal.ne cur cost = Ok true) ->
    exists c' w',
      match
        match find (same_key pid ts) (product_price (view w)) with
        | Some row =>
            match decimal.ne (pp_cost_per_unit row) cost with
            | Ok true =>
                (Ok true,
                 in_transaction (overwritten pid cost ts (view w))
                                (in_transaction (view w) w))
            | Ok false =>
                (Ok false,
                 in_transaction (view w) (in_transaction (view w) w))
            | Raise e =>
                (Raise e,
                 in_transaction (view w) (in_transaction (view w) w))
            end
        | None =>
            (Ok true,
             in_transaction (inserted pid cost ts (view w))
                            (in_transaction (view w) w))
        end
      with
      | (Ok true, w1) => (Ok (count c), printed report w1)
      | (Ok false, w1) => (Ok c, w1)
      | (Raise e, w1) => (Raise e, w1)
      end = (Ok c', w') /\
      product (view w') = product (view w) /\
      ((exists cur, latest_cost pid (view w) = Some cur /\
                    decimal.ne cur cost = Ok false) /\
       product_price (view w') = product_price (view w)
       \/
       (forall cur, latest_cost pid (view w) = Some cur ->
                    decimal.ne cur cost = Ok true) /\
       product_price (view w')
       = match find (same_key pid ts) (product_price (view w)) with
         | Some old =>
             match decimal.ne (pp_cost_per_unit old) cost with
             | Ok true => overwrite pid ts cost (product_price (view w))
             | _ => product_price (view w)
             end
         | None => product_price (view w) ++ [mk_price pid cost ts]
         end /\
       settled pid cost ts (view w'))).
  { intros report count Hcur.
    destruct (find (same_key pid ts) (product_price (view w))) as [row|]
      eqn:Hfind.
    - assert (Hin : In row (product_price (view w)))
        by (apply find_some in Hfind; apply Hfind).
      destruct (ne_total (pp_cost_per_unit row) cost (Hall _ Hin) Hcost)
        as [Hne|Hne]; rewrite Hne.
      + do 2 eexists. split; [reflexivity|]. split; [reflexivity|].
        right. split; [exact Hcur|]. split; [reflexivity|].
        rewrite view_printed, view_in_transaction.
        eapply settled_overwritten; eassumption.
      + do 2 eexists. split; [reflexivity|]. split; [reflexivity|].
        right. split; [exact Hcur|]. split; [reflexivity|].
        rewrite view_in_transaction. exists row. auto.
    - do 2 eexists. split; [reflexivity|]. split; [reflexivity|].
      right. split; [exact Hcur|]. split; [reflexivity|].
      rewrite view_printed, view_in_transaction.
      apply settled_inserted; assumption. }
  destruct (latest_cost pid (view w)) as [cur|] eqn:Hl.
  - assert (Hs : is_snan cur = false).
    { unfold latest_cost in Hl.
      destruct (latest pid None (product_price (view w))) as [l|] eqn:El;
        [|discriminate].
      injection Hl as <-. apply Hall.
      destruct (latest_in _ _ _ _ El) as [E|E]; [discriminate|exact E]. }
    destruct (ne_total cur cost Hs Hcost) as [Hne|Hne]; rewrite Hne.
    + apply Hattempt. intros cur' E. injection E as <-. exact Hne.
    + do 2 eexists. split; [reflexivity|]. split; [reflexivity|].
      left. split; [|reflexivity]. exists cur. auto.
  - apply Hattempt. discriminate.
Qed.

End ProductRow.

(** C9.  A cleaned record that carries an integer product identifier and whose
    cost is blank or absent is kept by the reader without a cost; its turn of
    the import loop is the product upsert alone - no reconciliation - and it
    leaves the price history alone, in the transaction and in the store.
    When the store does not fail the product is written. *)
Theorem blank_cost_skips_reconciliation :
  forall (r : csv_row) (d : pydict.t (option string)) (sid : string) (pid : Z),
    clean_row r = Ok d ->
    pydict.get "product_id" d = Some (Some sid) ->
    text.int_of_str sid = Some pid ->
    (pydict.get "cost_per_unit" d = None \/
     pydict.get "cost_per_unit" d = Some None) ->
    (forall w, read_product_row r w = (Ok (Some (validated pid d)), w)) /\
    forall (up : bool) (ts : option datetime) (c : counters) (w : world),
      import_product up ts (validated pid d) c w
      = (upsert_product (validated pid d) ;; ret (count_product c)) w /\
      product_price (view (snd (import_product up ts (validated pid d) c w)))
      = product_price (view w) /\
      persisted (snd (import_product up ts (validated pid d) c w))
      = persisted w /\
      (faults w = None ->
       forall name, pydict.get "product_name" d = Some name ->
         import_product up ts (validated pid d) c w
         = (Ok (count_product c),
            upserted (product_of pid (to_pyval name) (validated pid d)) w)).
Proof.
  intros r d sid pid Hc Hp Hi Hcost.
  assert (Hrow : forall w, read_product_row r w
                           = (Ok (Some (validated pid d)), w)).
  { intros w. rewrite (read_product_row_valid r d sid pid w Hc Hp Hi).
    destruct Hcost as [E|E]; rewrite E; reflexivity. }
  assert (Hcost' : pydict.get "cost_per_unit" (validated pid d) = None \/
                   pydict.get "cost_per_unit" (validated pid d) = Some VNone).
  { rewrite (validated_other "cost_per_unit" pid d eq_refl).
    destruct Hcost as [E|E]; rewrite E; auto. }
  split; [exact Hrow|]. intros up ts c w.
  pose proof (import_product_without_cost up ts (validated pid d) pid c w
                (validated_product_id pid d) Hcost') as Heq.
  split; [exact Heq|]. rewrite Heq.
  split; [|split].
  - apply (keeps_bind _ same_prices_trans);
      [apply upsert_product_same_prices|intros _].
    apply (keeps_ret _ same_prices_refl).
  - apply (keeps_bind _ same_persisted_trans (upsert_product (validated pid d))
                      (fun _ => ret (count_product c)));
      [apply upsert_product_same_persisted|intros _].
    apply (keeps_ret _ same_persisted_refl).
  - intros Hf name Hn.
    rewrite (bind_ok _ _ _ _ _
               (upsert_product_ok (validated pid d) pid (to_pyval name) w Hf
                  (validated_product_id pid d)
                  (eq_trans (validated_other "product_name" pid d eq_refl)
                            (f_equal (option_map to_pyval) Hn)))).
    reflexivity.
Qed.

Lemma blank_cost_witness :
  product_price
    (view (snd (import_product true (Some 5)
                  (validated 2 [("product_id", Some "2");
                                ("product_name", Some "fig");
                                ("cost_per_unit", None)])
                  no_counts
                  (world_with_prices [mk_price 2 (dec 300 (-2)) 1]))))
  = [mk_price 2 (dec 300 (-2)) 1].
Proof.
  exact (proj1 (proj2 (proj2 (blank_cost_skips_reconciliation
           (DictReader_row ["product_id"; "product_name"; "cost_per_unit"]
                           ["2"; "fig"; "  "])
           [("product_id", Some "2"); ("product_name", Some "fig");
            ("cost_per_unit", None)]
           "2" 2 eq_refl eq_refl eq_refl (or_intror eq_refl))
           true (Some 5) no_counts
           (world_with_prices [mk_price 2 (dec 300 (-2)) 1])))).
Defined.

(** C10.  A cleaned record with an integer product identifier whose cost is
    present, not blank, and rejected by the Decimal constructor once cleaned
    is kept by the reader with the cost [Decimal("0")]; its turn of the import
    loop (prices updated, store not failing, no signaling NaN in the history)
    writes the product and reconciles (product, 0, time stamp): unless the
    latest cost of the product is already 0, the history afterwards holds an
    observation of cost 0 at that time stamp - appended when none was there,
    overwritten when one was there with another cost. *)
Theorem malformed_cost_is_reconciled_as_zero :
  forall (r : csv_row) (d : pydict.t (option string)) (sid s : string)
         (name : option string) (pid : Z) (ts : datetime) (c : counters)
         (w : world),
    clean_row r = Ok d ->
    pydict.get "product_id" d = Some (Some sid) ->
    text.int_of_str sid = Some pid ->
    pydict.get "product_name" d = Some name ->
    pydict.get "cost_per_unit" d = Some (Some s) ->
    s <> "" ->
    decimal.of_str (cleaned s) = None ->
    faults w = None ->
    Forall (fun p => is_snan (pp_cost_per_unit p) = false)
           (product_price (view w)) ->
    exists row,
      (forall w0, read_product_row r w0 = (Ok (Some row), w0)) /\
      pydict.get "cost_per_unit" row = Some (VDec decimal.zero) /\
      exists c' w',
        import_product true (Some ts) row c w = (Ok c', w') /\
        product (view w')
        = upsert (product_of pid (to_pyval name) row) (product (view w)) /\
        ((exists cur, latest_cost pid (view w) = Some cur /\
                      decimal.ne cur decimal.zero = Ok false) /\
         product_price (view w') = product_price (view w)
         \/
         (forall cur, latest_cost pid (view w) = Some cur ->
                      decimal.ne cur decimal.zero = Ok true) /\
         product_price (view w')
         = reconciled_history pid decimal.zero ts (product_price (view w)) /\
         settled pid decimal.zero ts (view w')).
Proof.
  intros r d sid s name pid ts c w Hc Hp Hi Hn Hcost Hs Hbad Hf Hall.
  set (row := pydict.set "cost_per_unit" (VDec decimal.zero) (validated pid d)).
  exists row. split; [|split].
  - intros w0. rewrite (read_product_row_valid r d sid pid w0 Hc Hp Hi).
    rewrite Hcost, Hbad.
    destruct (String.eqb s "") eqn:E; [|reflexivity].
    apply String.eqb_eq in E. contradiction.
  - apply get_set_same.
  - assert (Hpid : pydict.get "product_id" row = Some (VInt pid)).
    { unfold row.
      rewrite (get_set_other "product_id" "cost_per_unit" _ _ eq_refl).
      apply validated_product_id. }
    assert (Hname : pydict.get "product_name" row = Some (to_pyval name)).
    { unfold row.
      rewrite (get_set_other "product_name" "cost_per_unit" _ _ eq_refl).
      rewrite (validated_other "product_name" pid d eq_refl), Hn.
      reflexivity. }
    rewrite (import_product_with_cost ts row pid (to_pyval name) decimal.zero
               c w Hf Hpid Hname (get_set_same _ _ _)).
    destruct (reconcile_price_history pid decimal.zero ts (count_product c)
                (upserted (product_of pid (to_pyval name) row) w)
                Hf eq_refl Hall)
      as [c' [w' [E [Hprod Hhist]]]].
    exists c', w'. split; [exact E|]. split; [exact Hprod|exact Hhist].
Qed.

Lemma malformed_cost_witness :
  exists row,
    (forall w0,
        read_product_row
          (DictReader_row ["product_id"; "product_name"; "cost_per_unit"]
                          ["4"; "plum"; "abc"]) w0
        = (Ok (Some row), w0)) /\
    pydict.get "cost_per_unit" row = Some (VDec decimal.zero).
Proof.
  assert (Hall : Forall (fun p => is_snan (pp_cost_per_unit p) = false)
                   (product_price
                      (view (world_with_prices
                               [mk_price 4 (dec 250 (-2)) 1]))))
    by (repeat constructor).
  destruct (malformed_cost_is_reconciled_as_zero
              (DictReader_row ["product_id"; "product_name"; "cost_per_unit"]
                              ["4"; "plum"; "abc"])
              [("product_id", Some "4"); ("product_name", Some "plum");
               ("cost_per_unit", Some "abc")]
              "4" "abc" (Some "plum") 4 7 no_counts
              (world_with_prices [mk_price 4 (dec 250 (-2)) 1])
              eq_refl eq_refl eq_refl eq_refl eq_refl
              (fun H => match H with eq_refl => I end)
              eq_refl eq_refl Hall)
    as [row [Hread [Hcost _]]].
  exists row. split; [exact Hread|exact Hcost].
Defined.

(** ** The header check *)

Section Header.

Lemma mem_In (x : string) (l : list string) : text.mem x l = true <-> In x l.
Proof.
  unfold text.mem. rewrite existsb_exists. split.
  - intros [y [Hy E]]. apply String.eqb_eq in E. subst y. exact Hy.
  - intros H. exists x. split; [exact H|apply String.eqb_refl].
Qed.

Lemma insert_sorted_In (x y : string) (l : list string) :
  In y (text.insert_sorted x l) <-> y = x \/ In y l.
Proof.
  induction l as [|z l IH]; simpl.
  - split; intros [H|H]; auto; contradiction.
  - destruct (String.leb x z); simpl.
    + split; intros [H|H]; auto.
    + rewrite IH. split; intros H; intuition.
Qed.

Lemma sorted_In (y : string) (l : list string) :
  In y (text.sorted l) <-> In y l.
Proof.
  induction l as [|x l IH]; simpl; [reflexivity|].
  unfold text.sorted in *. simpl. rewrite insert_sorted_In, IH.
  split; intros [H|H]; auto.
Qed.

Lemma missing_cols_In (required names : list string) (c : string) :
  In c (missing_cols required names)
  <-> In c required /\ ~ In c (map text.strip names).
Proof.
  unfold missing_cols. rewrite filter_In.
  pose proof (mem_In c (map text.strip names)) as [H1 H2].
  destruct (text.mem c (map text.strip names)); simpl; split.
  - intros [_ H]. discriminate.
  - intros [_ H]. exfalso. apply H, H1. reflexivity.
  - intros [H _]. split; [exact H|]. intros Hin.
    specialize (H2 Hin). discriminate.
  - intros [H _]. split; [exact H|reflexivity].
Qed.

Lemma check_header_missing (required names : list string) :
  names <> [] ->
  missing_cols required names <> [] ->
  check_header required (Some names)
  = Raise (ValueError (missing_message required names)).
Proof.
  intros Hn Hm. unfold check_header, missing_message.
  destruct names as [|n names]; [contradiction|].
  fold (missing_cols required (n :: names)).
  destruct (missing_cols required (n :: names)); [contradiction|reflexivity].
Qed.

End Header.

(** C7.  For a CSV whose header row (a first record that is not empty) lacks
    required columns, either importer raises before any record is read and
    before the store is touched - the world is left as it was, without a
    connection - and the message names exactly the required columns that no
    header field equals once stripped. *)
Theorem missing_columns_abort :
  forall (f : csv_file) (names : list string) (w : world),
    DictReader_fieldnames f = Some names ->
    names <> [] ->
    (missing_cols import_product_list.required_cols names <> [] ->
     forall up ts,
       import_product_csv f up ts w
       = (Raise (ValueError
                   (missing_message import_product_list.required_cols names)),
          w)) /\
    (missing_cols import_bill.required_cols names <> [] ->
     forall csv_path vendor_name notes shipping_amount currency bill_number
            bill_date source,
       import_bill.import_bill f csv_path vendor_name notes shipping_amount
                               currency bill_number bill_date source w
       = (Raise (ValueError
                   (missing_message import_bill.required_cols names)),
          w)) /\
    (forall required c,
        In c (text.sorted (missing_cols required names))
        <-> In c required /\ ~ In c (map text.strip names)).
Proof.
  intros f names w Hf Hn. split; [|split].
  - intros Hm up ts. unfold import_product_csv, read_product_csv.
    rewrite Hf, (check_header_missing _ _ Hn Hm). reflexivity.
  - intros Hm csv_path vendor_name notes shipping_amount currency bill_number
           bill_date source.
    unfold import_bill.import_bill, import_bill.read_bill_csv.
    rewrite Hf, (check_header_missing _ _ Hn Hm). reflexivity.
  - intros required c. rewrite sorted_In. apply missing_cols_In.
Qed.

Lemma missing_columns_witness :
  import_product_csv [["product_name"; " unit "]; ["apple"; "kg"]] true None
                     (world_with_prices [])
  = (Raise (ValueError "CSV missing required columns: product_id"),
     world_with_prices []).
Proof.
  exact (proj1 (missing_columns_abort
                  [["product_name"; " unit "]; ["apple"; "kg"]]
                  ["product_name"; " unit "] (world_with_prices [])
                  eq_refl
                  (fun H => match H with eq_refl => I end))
               (fun H => match H with eq_refl => I end) true None).
Defined.

(** A CSV without a header row - an empty file, a blank first line - is
    refused as well, before any record and any store operation, with a
    message of its own. *)
Example csv_without_header_row :
  import_product_csv [] true None (world_with_prices [])
  = (Raise (ValueError "CSV has no header row"), world_with_prices []) /\
  import_product_csv [[]; ["1"; "apple"]] true None (world_with_prices [])
  = (Raise (ValueError "CSV has no header row"), world_with_prices []).
Proof. split; reflexivity. Qed.

(** ** Exact sums and products

    The arithmetic of the context is exact as long as the result fits its
    28 digits and its exponent range: the sum is the sum of the operands
    brought to the smaller exponent, the product has the product of the
    coefficients and the sum of the exponents. *)

Section ExactArithmetic.

Import decimal.

Lemma fix_exact (sign : bool) (c : N) (e : Z) :
  c <> 0%N -> fits c e -> fix_ sign c e = Ok (Finite sign c e).
Proof.
  intros Hc [H1 [H2 H3]]. unfold fix_.
  destruct (c =? 0)%N eqn:E; [apply N.eqb_eq in E; contradiction|].
  destruct (ndigits c + e - prec >? Etop) eqn:E1;
    [apply Z.gtb_lt in E1; lia|].
  destruct (e <? Z.max (ndigits c + e - prec) Etiny) eqn:E2;
    [apply Z.ltb_lt in E2; lia|reflexivity].
Qed.

Lemma mul_exact (s1 s2 : bool) (c1 c2 : N) (e1 e2 : Z) :
  (c1 * c2)%N <> 0%N -> fits (c1 * c2) (e1 + e2) ->
  mul (Finite s1 c1 e1) (Finite s2 c2 e2)
  = Ok (Finite (xorb s1 s2) (c1 * c2) (e1 + e2)).
Proof. intros Hc Hf. unfold mul. simpl. apply fix_exact; assumption. Qed.

Lemma add_exact (s1 s2 : bool) (c1 c2 : N) (e1 e2 : Z) :
  let e := Z.min e1 e2 in
  let z := signed s1 (c1 * pow10 (e1 - e)) + signed s2 (c2 * pow10 (e2 - e)) in
  z <> 0 -> fits (Z.abs_N z) e ->
  add (Finite s1 c1 e1) (Finite s2 c2 e2) = Ok (Finite (z <? 0) (Z.abs_N z) e).
Proof.
  intros e z Hz Hf. unfold add. simpl. fold e. fold z.
  destruct ((c1 =? 0) && (c2 =? 0))%N eqn:E0.
  - exfalso. apply andb_prop in E0. destruct E0 as [E1 E2].
    apply N.eqb_eq in E1, E2. apply Hz. unfold z. subst c1 c2. simpl.
    destruct s1, s2; reflexivity.
  - destruct (z =? 0) eqn:Ez; [apply Z.eqb_eq in Ez; contradiction|].
    apply fix_exact; [|exact Hf]. intros H. apply Hz.
    apply Z.abs_0_iff.
    rewrite <- (N2Z.inj_iff (Z.abs_N z) 0), N2Z.inj_abs_N in H. exact H.
Qed.

End ExactArithmetic.

(** ** Posting a bill *)

Section Bill.

Import import_bill.

Lemma parse_decimal_number_of v :
  parse_decimal v decimal.zero = Ok (number_of v).
Proof. destruct v as [s|]; [apply parse_decimal_eq|reflexivity]. Qed.

Lemma sum_from_raise e l : sum_from (Raise e) l = Raise e.
Proof. induction l as [|x l IH]; simpl; [reflexivity|exact IH]. Qed.

Lemma prepare_items_sums :
  forall items acc st tx,
    sum_from (Ok (subtotal acc)) (map line_amount items) = Ok st ->
    sum_from (Ok (tax_sum acc)) (map (fun r => Ok (tax_of r)) items) = Ok tx ->
    prepare_items acc items
    = Ok (mk_totals st tx (prepared_items acc ++ map item_of items)).
Proof.
  induction items as [|r items IH]; intros acc st tx Hs Ht; simpl in *.
  - injection Hs as <-. injection Ht as <-. rewrite app_nil_r.
    destruct acc; reflexivity.
  - unfold prepare_item. rewrite !parse_decimal_number_of. simpl.
    fold (quantity_of r) (unit_price_of r) (tax_of r) (line_total_of r).
    unfold line_amount in Hs at 1.
    destruct (decimal.mul (quantity_of r) (unit_price_of r)) as [v|e];
      simpl in *; [|rewrite sum_from_raise in Hs; discriminate].
    destruct (decimal.add (subtotal acc) v) as [a'|e]; simpl in *;
      [|rewrite sum_from_raise in Hs; discriminate].
    destruct (decimal.add (tax_sum acc) (tax_of r)) as [t'|e]; simpl in *;
      [|rewrite sum_from_raise in Ht; discriminate].
    rewrite (IH (mk_totals a' t' _) st tx Hs Ht). simpl.
    rewrite <- app_assoc. reflexivity.
Qed.

Lemma get_connection_ok w :
  faults w = None -> get_connection w = (Ok tt, connected w).
Proof.
  intros Hf. unfold get_connection, connect, execute, commit, bind, tick, begin.
  destruct w as [p wk t cn fl b k o]. simpl in *. subst fl. reflexivity.
Qed.

Lemma in_transaction_view w :
  in_txn w = true -> in_transaction (view w) w = w.
Proof.
  destruct w as [p wk t cn fl b k o]. simpl. intros ->. reflexivity.
Qed.

Lemma insert_bill_items_ok bill_id its :
  forall w,
    faults w = None -> in_txn w = true ->
    insert_bill_items bill_id its w
    = (Ok tt,
       in_transaction
         (set_bill_item (bill_item (view w) ++ map (bill_item_of bill_id) its)
                        (view w)) w).
Proof.
  induction its as [|it its IH]; intros w Hf Ht; simpl.
  - rewrite app_nil_r. unfold ret. f_equal.
    destruct w as [p [a b c d] t cn fl bs k o]. simpl in *. subst t.
    reflexivity.
  - unfold insert_bill_item at 1.
    rewrite (bind_ok _ _ _ _ _ (execute_ok _ w Hf)).
    rewrite IH by (auto; reflexivity).
    rewrite view_in_transaction. simpl. rewrite <- app_assoc. reflexivity.
Qed.

End Bill.

Lemma insert_bill_ok (mk : Z -> bill_rec) (w : world) :
  faults w = None ->
  import_bill.insert_bill mk w
  = (Ok (bill_seq w),
     mk_world (persisted w)
              (set_bill (bill (view w) ++ [mk (bill_seq w)]) (view w))
              true (conn w) (faults w) (bill_seq w + 1) (clock w) (stdout w)).
Proof.
  intros Hf. unfold import_bill.insert_bill.
  rewrite (bind_ok _ _ _ _ _ (tick_ok w Hf)).
  rewrite (bind_ok _ _ _ _ _ (begin_eq w)). reflexivity.
Qed.

(** The totals of a bill, for the cells the reader files under the literal
    names of the columns.  When the header check passes, the arithmetic does
    not trap and the store does not fail, the bill import succeeds and hands
    the store exactly one more bill and one more item per row: the header
    holds as subtotal the sum over the rows of quantity x unit price, as tax
    the sum of the rows' tax amounts, the shipping amount of the caller, and
    as total (subtotal + tax) + shipping; each item holds the line total read
    from its own row. *)
Theorem bill_totals :
  forall (f : csv_file) (csv_path : string) (vendor_name notes : option string)
         (shipping_amount : Decimal) (currency : string)
         (bill_number : option string) (bill_date : option date)
         (source : option string) (items : list csv_row)
         (st tx s1 total : Decimal) (w : world),
    import_bill.read_bill_csv f = Ok items ->
    decimal_sum (map line_amount items) = Ok st ->
    decimal_sum (map (fun r => Ok (tax_of r)) items) = Ok tx ->
    decimal.add st tx = Ok s1 ->
    decimal.add s1 shipping_amount = Ok total ->
    faults w = None ->
    exists w',
      import_bill.import_bill f csv_path vendor_name notes shipping_amount
                              currency bill_number bill_date source w
      = (Ok tt, w') /\
      persisted w'
      = posted (mk_bill (bill_seq w) bill_number vendor_name
                        (source_of source csv_path) bill_date currency
                        st tx shipping_amount total notes)
               (map (fun r =>
                       mk_bill_item (bill_seq w) None
                                    (import_bill.row_get "product_name" r)
                                    (quantity_of r) None (unit_price_of r)
                                    (line_total_of r)) items)
               (persisted w) /\
      conn w' = ConnClosed /\
      stdout w'
      = stdout w ++ [ImportedBill (List.length items) st tx shipping_amount
                                  total].
Proof.
  intros f csv_path vendor_name notes shipping_amount currency bill_number
         bill_date source items st tx s1 total w Hread Hst Htx Hs1 Htot Hf.
  unfold import_bill.import_bill.
  rewrite (bind_ok _ _ w items w) by (unfold lift; rewrite Hread; reflexivity).
  rewrite (bind_ok _ _ w _ w)
    by (unfold lift;
        rewrite (prepare_items_sums items
                   (import_bill.mk_totals decimal.zero decimal.zero [])
                   st tx Hst Htx);
        reflexivity).
  simpl import_bill.subtotal. simpl import_bill.tax_sum.
  simpl import_bill.prepared_items.
  rewrite (bind_ok _ _ w total w)
    by (unfold lift; rewrite Hs1; simpl; rewrite Htot; reflexivity).
  rewrite (bind_ok _ _ _ _ _ (get_connection_ok w Hf)).
  unfold try_finally, with_conn.
  assert (Hc : faults (connected w) = None) by exact Hf.
  unfold bind at 1. unfold bind at 1.
  rewrite (insert_bill_ok _ (connected w) Hc).
  rewrite insert_bill_items_ok by (try reflexivity; exact Hf).
  unfold commit, bind, tick, ret, print, close. simpl. rewrite Hf. simpl.
  eexists. split; [reflexivity|]. simpl. rewrite !length_map.
  repeat split. unfold posted. rewrite !map_map. reflexivity.
Qed.

Lemma bill_totals_witness :
  exists w',
    import_bill.import_bill
      [["product_name"; "quantity"; "product_price"; "tax_amount"; "total"];
       ["flour"; "2"; "10.00"; "1.00"; "20.00"];
       ["salt"; "1"; "5.00"; "0.50"; "5.00"]]
      "bill.csv" None None (dec 300 (-2)) "USD" None None None
      (world_with_prices [])
    = (Ok tt, w') /\
    map b_subtotal_amount (bill (persisted w')) = [dec 2500 (-2)] /\
    map b_tax_amount (bill (persisted w')) = [dec 150 (-2)] /\
    map b_total_amount (bill (persisted w')) = [dec 2950 (-2)] /\
    map bi_line_total (bill_item (persisted w'))
    = [dec 2000 (-2); dec 500 (-2)].
Proof.
  destruct (bill_totals
      [["product_name"; "quantity"; "product_price"; "tax_amount"; "total"];
       ["flour"; "2"; "10.00"; "1.00"; "20.00"];
       ["salt"; "1"; "5.00"; "0.50"; "5.00"]]
      "bill.csv" None None (dec 300 (-2)) "USD" None None None
      [DictReader_row
         ["product_name"; "quantity"; "product_price"; "tax_amount"; "total"]
         ["flour"; "2"; "10.00"; "1.00"; "20.00"];
       DictReader_row
         ["product_name"; "quantity"; "product_price"; "tax_amount"; "total"]
         ["salt"; "1"; "5.00"; "0.50"; "5.00"]]
      (dec 2500 (-2)) (dec 150 (-2)) (dec 2650 (-2)) (dec 2950 (-2))
      (world_with_prices [])
      eq_refl eq_refl eq_refl eq_refl eq_refl eq_refl)
    as [w' [E [Hp _]]].
  exists w'. split; [exact E|]. rewrite Hp. repeat split.
Defined.

(** A line total that is not quantity x unit price is stored as it is, and
    the subtotal does not follow it: 2 x 10.00 gives the subtotal 20.00, the
    item keeps 19.50. *)
Example line_total_is_kept :
  let w := snd (import_bill.import_bill
                  [["product_name"; "quantity"; "product_price"; "tax_amount";
                    "total"];
                   ["flour"; "2"; "10.00"; "1.00"; "19.50"]]
                  "bill.csv" None None (dec 0 0) "USD" None None None
                  (world_with_prices [])) in
  map b_subtotal_amount (bill (persisted w)) = [dec 2000 (-2)] /\
  map bi_line_total (bill_item (persisted w)) = [dec 1950 (-2)].
Proof. vm_compute. split; reflexivity. Qed.

(** ** Failing runs *)

Section Steps.

Lemma persisted_bind {A B} (m : M A) (k : A -> M B) :
  keeps same_persisted m -> (forall a, keeps same_persisted (k a)) ->
  keeps same_persisted (bind m k).
Proof. apply (keeps_bind same_persisted same_persisted_trans). Qed.

Lemma stdout_bind {A B} (m : M A) (k : A -> M B) :
  keeps same_stdout m -> (forall a, keeps same_stdout (k a)) ->
  keeps same_stdout (bind m k).
Proof. apply (keeps_bind same_stdout same_stdout_trans). Qed.

Lemma store_bind {A B} (m : M A) (k : A -> M B) :
  keeps same_store m -> (forall a, keeps same_store (k a)) ->
  keeps same_store (bind m k).
Proof. apply (keeps_bind same_store same_store_trans). Qed.

End Steps.

Ltac split_program :=
  match goal with
  | |- _ _ (match ?x with _ => _ end) => destruct x
  | |- _ (match ?x with _ => _ end) => destruct x
  end.

Ltac persisted_steps :=
  repeat first
    [ apply persisted_bind; [|intro]
    | apply (keeps_ret same_persisted same_persisted_refl)
    | apply (keeps_raise same_persisted same_persisted_refl)
    | apply (keeps_lift same_persisted same_persisted_refl)
    | apply (keeps_now same_persisted same_persisted_refl)
    | apply print_same_persisted
    | apply fetch_same_persisted
    | apply execute_same_persisted
    | apply tick_same_persisted
    | apply begin_same_persisted
    | apply rollback_same_persisted
    | split_program ].

Ltac faulty_steps :=
  repeat first
    [ apply bind_faulty; [|intro]
    | apply ret_faulty
    | apply raise_faulty
    | apply lift_faulty
    | apply now_faulty
    | apply print_faulty
    | apply fetch_faulty
    | apply execute_faulty
    | apply tick_faulty
    | apply begin_faulty
    | apply commit_faulty
    | apply rollback_faulty
    | apply get_connection_faulty
    | split_program ].

Section Runs.

Variables (update_prices : bool) (price_timestamp : option datetime).

Lemma import_product_same_persisted product c :
  keeps same_persisted (import_product update_prices price_timestamp product c).
Proof.
  unfold import_product, upsert_product, reconcile_price,
    get_latest_product_price, insert_product_price.
  persisted_steps.
Qed.

Lemma import_products_same_persisted products :
  forall c, keeps same_persisted
              (import_products update_prices price_timestamp products c).
Proof.
  induction products as [|p ps IH]; intros c; simpl.
  - apply (keeps_ret _ same_persisted_refl).
  - apply persisted_bind; [apply import_product_same_persisted|exact IH].
Qed.

Lemma import_product_faulty product c :
  faulty (import_product update_prices price_timestamp product c).
Proof.
  unfold import_product, upsert_product, reconcile_price,
    get_latest_product_price, insert_product_price.
  faulty_steps.
Qed.

Lemma import_products_faulty products :
  forall c, faulty (import_products update_prices price_timestamp products c).
Proof.
  induction products as [|p ps IH]; intros c; simpl.
  - apply ret_faulty.
  - apply bind_faulty; [apply import_product_faulty|exact IH].
Qed.

End Runs.

Section Exits.

Lemma same_store_faulty {A} (m : M A) : keeps same_store m -> faulty m.
Proof.
  intros H. apply same_faults_faulty. intros w. apply (H w).
Qed.

Lemma read_product_row_same_store r : keeps same_store (read_product_row r).
Proof.
  unfold read_product_row.
  repeat first
    [ apply store_bind; [|intro]
    | apply (keeps_ret same_store same_store_refl)
    | apply (keeps_raise same_store same_store_refl)
    | apply (keeps_lift same_store same_store_refl)
    | apply print_same_store
    | split_program ].
Qed.

Lemma read_product_rows_same_store rs :
  forall rows, keeps same_store (read_product_rows rs rows).
Proof.
  induction rs as [|r rs IH]; intros rows; simpl.
  - apply (keeps_ret _ same_store_refl).
  - apply store_bind; [apply read_product_row_same_store|intros o; apply IH].
Qed.

Lemma read_product_csv_same_store f : keeps same_store (read_product_csv f).
Proof.
  unfold read_product_csv. apply store_bind.
  - apply (keeps_lift _ same_store_refl).
  - intros _. apply read_product_rows_same_store.
Qed.

Lemma get_connection_setup w :
  setup_succeeds w ->
  exists w1,
    get_connection w = (Ok tt, w1) /\ persisted w1 = persisted w /\
    conn w1 = ConnOpen /\ in_txn w1 = false /\ stdout w1 = stdout w.
Proof.
  unfold setup_succeeds. intros H.
  destruct w as [p wk t cn fl b k o]. cbn [faults] in H.
  destruct fl as [n|].
  - specialize (H n eq_refl).
    destruct n as [|[|[|n]]]; [lia|lia|lia|].
    exists (mk_world p p false ConnOpen (Some n) b k o).
    split; [vm_compute; reflexivity|]. repeat split.
  - exists (mk_world p p false ConnOpen None b k o).
    split; [vm_compute; reflexivity|]. repeat split.
Qed.

Lemma commit_spec w :
  match commit w with
  | (Ok _, w') =>
      in_txn w' = false /\ conn w' = conn w /\ stdout w' = stdout w
  | (Raise e, w') =>
      e = StoreError /\ persisted w' = persisted w /\ conn w' = conn w /\
      stdout w' = stdout w
  end.
Proof.
  unfold commit, bind, tick.
  destruct w as [p wk [|] cn [[|n]|] b k o]; simpl; repeat split.
Qed.

Lemma product_body_exit up ts products w :
  match product_body up ts products w with
  | (Ok _, w') => in_txn w' = false /\ conn w' = conn w
  | (Raise e, w') => persisted w' = persisted w /\ conn w' = conn w
  end.
Proof.
  unfold product_body, bind.
  pose proof (import_products_same_persisted up ts products
                (mk_counters 0 0 0) w) as [Hp Hc].
  destruct (import_products up ts products (mk_counters 0 0 0) w)
    as [[c|e] w1]; simpl in *; [|auto].
  pose proof (commit_spec w1) as Hcommit.
  destruct (commit w1) as [[u|e] w2]; simpl.
  - destruct Hcommit as [H1 [H2 _]]. split; congruence.
  - destruct Hcommit as [_ [H1 [H2 _]]]. split; congruence.
Qed.

Lemma commit_outside_transaction w :
  in_txn w = false -> commit w = (Ok tt, w).
Proof. intros H. unfold commit. rewrite H. reflexivity. Qed.

Lemma product_run_exit f up ts w r w' :
  conn w = NoConnection ->
  setup_succeeds w ->
  import_product_csv f up ts w = (r, w') ->
  conn w' <> ConnOpen /\
  forall e,
    r = Raise e ->
    persisted w' = persisted w /\
    (conn w' = ConnClosed ->
     exists out, stdout w' = out ++ [ErrorDuringImport e]).
Proof.
  intros Hconn Hsetup. unfold import_product_csv. unfold bind at 1.
  pose proof (read_product_csv_same_store f w) as Hread.
  destruct (read_product_csv f w) as [[products|e0] w0]; simpl in Hread;
    destruct Hread as [Hp [_ [_ [Hc [Hfl _]]]]].
  - destruct products as [|p ps].
    + intros E. injection E as <- <-. simpl. rewrite Hc, Hconn.
      split; [discriminate|]. intros e He. discriminate.
    + assert (Hsetup0 : setup_succeeds w0)
        by (unfold setup_succeeds; rewrite Hfl; exact Hsetup).
      destruct (get_connection_setup w0 Hsetup0)
        as [w1 [E [Hp1 [Hc1 [Ht1 Ho1]]]]].
      rewrite (bind_ok _ _ _ _ _ E).
      unfold try_finally, try_except, with_conn.
      fold (product_body up ts (p :: ps)).
      pose proof (product_body_exit up ts (p :: ps) w1) as Hbody.
      destruct (product_body up ts (p :: ps) w1) as [[u|e] w2].
      * destruct Hbody as [Hin Hcn].
        unfold bind at 1. rewrite (commit_outside_transaction w2 Hin).
        simpl. intros E'. injection E' as <- <-. simpl.
        split; [discriminate|]. intros e He. discriminate.
      * destruct Hbody as [Hper Hcn]. simpl.
        intros E'. injection E' as <- <-. simpl.
        split; [discriminate|]. intros e' He. injection He as <-.
        split; [congruence|]. intros _. eexists. reflexivity.
  - intros E. injection E as <- <-. rewrite Hc, Hconn.
    split; [discriminate|].
    intros e He. split; [exact Hp|]. intros H. discriminate.
Qed.

End Exits.

Section BillExits.

Import import_bill.

Lemma insert_bill_same_persisted mk : keeps same_persisted (insert_bill mk).
Proof.
  intros w. unfold insert_bill, bind, tick, begin. world_cases w.
Qed.

Lemma insert_bill_same_stdout mk : keeps same_stdout (insert_bill mk).
Proof.
  intros w. unfold insert_bill, bind, tick, begin, same_stdout. world_cases w.
Qed.

Lemma insert_bill_faulty mk : faulty (insert_bill mk).
Proof.
  unfold insert_bill. apply bind_faulty; [apply tick_faulty|intros _].
  apply bind_faulty; [apply begin_faulty|intros _].
  apply same_faults_faulty. reflexivity.
Qed.

Lemma insert_bill_items_same_persisted bill_id its :
  keeps same_persisted (insert_bill_items bill_id its).
Proof.
  induction its as [|it its IH]; simpl.
  - apply (keeps_ret _ same_persisted_refl).
  - apply persisted_bind; [apply execute_same_persisted|intros _; exact IH].
Qed.

Lemma insert_bill_items_same_stdout bill_id its :
  keeps same_stdout (insert_bill_items bill_id its).
Proof.
  induction its as [|it its IH]; simpl.
  - apply (keeps_ret _ same_stdout_refl).
  - apply stdout_bind; [apply execute_same_stdout|intros _; exact IH].
Qed.

Lemma insert_bill_items_faulty bill_id its :
  faulty (insert_bill_items bill_id its).
Proof.
  induction its as [|it its IH]; simpl.
  - apply ret_faulty.
  - apply bind_faulty; [apply execute_faulty|intros _; exact IH].
Qed.

Lemma bill_body_exit mk its w :
  persisted (snd (bill_body mk its w)) = persisted w /\
  conn (snd (bill_body mk its w)) = conn w /\
  stdout (snd (bill_body mk its w)) = stdout w.
Proof.
  assert (H1 : keeps same_persisted (bill_body mk its)).
  { apply persisted_bind; [apply insert_bill_same_persisted|].
    intros b. apply insert_bill_items_same_persisted. }
  assert (H2 : keeps same_stdout (bill_body mk its)).
  { apply stdout_bind; [apply insert_bill_same_stdout|].
    intros b. apply insert_bill_items_same_stdout. }
  destruct (H1 w) as [Hp Hc]. split; [exact Hp|]. split; [exact Hc|].
  exact (H2 w).
Qed.

Lemma bill_run_exit f csv_path vendor_name notes shipping_amount currency
                    bill_number bill_date source w r w' :
  conn w = NoConnection ->
  setup_succeeds w ->
  import_bill f csv_path vendor_name notes shipping_amount currency
              bill_number bill_date source w = (r, w') ->
  conn w' <> ConnOpen /\
  forall e, r = Raise e -> persisted w' = persisted w /\ stdout w' = stdout w.
Proof.
  intros Hconn Hsetup. unfold import_bill.
  assert (Hearly : forall e0 : exn,
             (@Raise unit e0, w) = (r, w') ->
             conn w' <> ConnOpen /\
             forall e, r = Raise e ->
                       persisted w' = persisted w /\ stdout w' = stdout w).
  { intros e0 E. injection E as <- <-. rewrite Hconn.
    split; [discriminate|auto]. }
  unfold bind at 1, lift at 1.
  destruct (read_bill_csv f) as [items|e0]; [|apply Hearly].
  unfold bind at 1, lift at 1.
  destruct (prepare_items (mk_totals decimal.zero decimal.zero []) items)
    as [t|e0]; [|apply Hearly].
  unfold bind at 1, lift at 1.
  destruct (s <- decimal.add (subtotal t) (tax_sum t) ;;
            decimal.add s shipping_amount)%out as [total|e0];
    [|apply Hearly].
  clear Hearly.
  destruct (get_connection_setup w Hsetup) as [w1 [E [Hp1 [Hc1 [Ht1 Ho1]]]]].
  rewrite (bind_ok _ _ _ _ _ E).
  unfold try_finally. unfold bind at 1. unfold with_conn.
  match goal with
  | |- context [insert_bill ?mk] => fold (bill_body mk (prepared_items t))
  end.
  match goal with
  | |- context [bill_body ?mk ?its w1] =>
      pose proof (bill_body_exit mk its w1) as [Hp [Hc Ho]];
      destruct (bill_body mk its w1) as [[u|e] w2]; simpl in Hp, Hc, Ho
  end.
  - unfold bind at 1. pose proof (commit_spec w2) as Hcommit.
    destruct (commit w2) as [[u'|e] w3]; simpl.
    + intros E'. injection E' as <- <-. simpl.
      split; [discriminate|]. intros e He. discriminate.
    + destruct Hcommit as [_ [H1 [H2 H3]]].
      intros E'. injection E' as <- <-. simpl.
      split; [discriminate|]. intros e' He. split; congruence.
  - simpl. intros E'. injection E' as <- <-. simpl.
    split; [discriminate|]. intros e' He. split; congruence.
Qed.

End BillExits.

Section WholeRuns.

Lemma try_except_reraise_faulty {A} (body : M A) (report : exn -> line) :
  faulty body ->
  faulty (try_except body
            (fun e => rollback ;; print (report e) ;; raise e)).
Proof.
  intros Hb w. unfold try_except. specialize (Hb w).
  destruct (body w) as [[a|e] w1]; simpl in *; exact Hb.
Qed.

Lemma import_product_csv_faulty f up ts : faulty (import_product_csv f up ts).
Proof.
  unfold import_product_csv.
  apply bind_faulty;
    [apply same_store_faulty, read_product_csv_same_store|intros products].
  destruct products as [|p ps]; [apply print_faulty|].
  apply bind_faulty; [apply get_connection_faulty|intros _].
  apply try_finally_close_faulty.
  apply (try_except_reraise_faulty _ ErrorDuringImport).
  apply with_conn_faulty.
  apply bind_faulty; [apply import_products_faulty|intros c].
  apply bind_faulty; [apply commit_faulty|intros _]. apply print_faulty.
Qed.

Lemma import_bill_faulty f csv_path vendor_name notes shipping_amount currency
                         bill_number bill_date source :
  faulty (import_bill.import_bill f csv_path vendor_name notes shipping_amount
                                  currency bill_number bill_date source).
Proof.
  unfold import_bill.import_bill.
  apply bind_faulty; [apply lift_faulty|intros items].
  apply bind_faulty; [apply lift_faulty|intros t].
  apply bind_faulty; [apply lift_faulty|intros total].
  apply bind_faulty; [apply get_connection_faulty|intros _].
  apply try_finally_close_faulty.
  apply bind_faulty; [|intros _; apply print_faulty].
  apply with_conn_faulty.
  apply bind_faulty; [apply insert_bill_faulty|intros b].
  apply insert_bill_items_faulty.
Qed.

End WholeRuns.

(** C5 (amended).  In a run started without a connection and whose connection
    set-up succeeds: the connection is never left open, whatever the exit; a
    store operation that fails makes the run raise the store's error; a run
    that raises leaves the committed store as it found it.  The product
    import prints the error ("ERROR during import") as its last line before
    it re-raises; the bill import prints nothing and lets the error
    propagate. *)
Theorem failed_run_rolls_back :
  forall (w : world),
    conn w = NoConnection ->
    setup_succeeds w ->
    (forall f up ts,
        let run := import_product_csv f up ts w in
        conn (snd run) <> ConnOpen /\
        (faults w <> None -> faults (snd run) = None ->
         raised (fst run) = Some StoreError) /\
        (forall e,
            fst run = Raise e ->
            persisted (snd run) = persisted w /\
            (conn (snd run) = ConnClosed ->
             exists out, stdout (snd run) = out ++ [ErrorDuringImport e])))
    /\
    (forall f csv_path vendor_name notes shipping_amount currency bill_number
            bill_date source,
        let run := import_bill.import_bill f csv_path vendor_name notes
                     shipping_amount currency bill_number bill_date source w in
        conn (snd run) <> ConnOpen /\
        (faults w <> None -> faults (snd run) = None ->
         raised (fst run) = Some StoreError) /\
        (forall e,
            fst run = Raise e ->
            persisted (snd run) = persisted w /\ stdout (snd run) = stdout w)).
Proof.
  intros w Hconn Hsetup. split.
  - intros f up ts run.
    pose proof (import_product_csv_faulty f up ts w) as Hfault.
    fold run in Hfault.
    assert (Hrun : import_product_csv f up ts w = (fst run, snd run))
      by (unfold run; apply surjective_pairing).
    destruct (product_run_exit f up ts w _ _ Hconn Hsetup Hrun) as [H1 H2].
    split; [exact H1|]. split; [apply Hfault|exact H2].
  - intros f csv_path vendor_name notes shipping_amount currency bill_number
           bill_date source run.
    pose proof (import_bill_faulty f csv_path vendor_name notes
                  shipping_amount currency bill_number bill_date source w)
      as Hfault.
    fold run in Hfault.
    assert (Hrun : import_bill.import_bill f csv_path vendor_name notes
                     shipping_amount currency bill_number bill_date source w
                   = (fst run, snd run))
      by (unfold run; apply surjective_pairing).
    destruct (bill_run_exit f csv_path vendor_name notes shipping_amount
                currency bill_number bill_date source w _ _ Hconn Hsetup Hrun)
      as [H1 H2].
    split; [exact H1|]. split; [apply Hfault|exact H2].
Qed.

Lemma failed_run_witness :
  raised (fst (import_bill.import_bill three_lines "bill.csv" None None
                 (dec 300 (-2)) "USD" None None None (failing_world 6)))
  = Some StoreError /\
  persisted (snd (import_bill.import_bill three_lines "bill.csv" None None
                    (dec 300 (-2)) "USD" None None None (failing_world 6)))
  = empty_db.
Proof.
  assert (Hs : setup_succeeds (failing_world 6)).
  { intros n H. injection H as <-. lia. }
  destruct (proj2 (failed_run_rolls_back (failing_world 6) eq_refl Hs)
              three_lines "bill.csv" None None (dec 300 (-2)) "USD" None None
              None) as [_ [Hfault Hraise]].
  split.
  - apply Hfault; [discriminate|reflexivity].
  - apply (Hraise StoreError). reflexivity.
Defined.

(** C5 as stated fails for the bill import: when the store fails on the third
    item, the error reaches the caller and nothing of the bill is committed,
    but the import has printed nothing - the error is not reported before it
    is re-raised. *)
Lemma bill_error_is_not_reported :
  import_bill.import_bill three_lines "bill.csv" None None (dec 300 (-2))
                          "USD" None None None (failing_world 6)
  = (Raise StoreError,
     mk_world empty_db empty_db false ConnClosed None 2 0 []).
Proof. vm_compute. reflexivity. Qed.


(** * Further properties *)

(** ** The product table *)

Section Upsert.

Variable p : product_rec.

Lemma upsert_find_same t :
  find_product (p_product_id p) (upsert p t) = Some p.
Proof.
  unfold find_product. induction t as [|q t IH]; simpl.
  - rewrite Z.eqb_refl. reflexivity.
  - destruct (p_product_id q =? p_product_id p) eqn:E; simpl.
    + rewrite Z.eqb_refl. reflexivity.
    + rewrite E. exact IH.
Qed.

Lemma upsert_find_other q t :
  q <> p_product_id p ->
  find_product q (upsert p t) = find_product q t.
Proof.
  intros Hq. unfold find_product.
  assert (Hp : (p_product_id p =? q) = false) by (apply Z.eqb_neq; auto).
  induction t as [|r t IH]; simpl.
  - rewrite Hp. reflexivity.
  - destruct (p_product_id r =? p_product_id p) eqn:E; simpl.
    + apply Z.eqb_eq in E. rewrite E, Hp. reflexivity.
    + destruct (p_product_id r =? q); [reflexivity|exact IH].
Qed.

Lemma upsert_ids_in x t :
  In x (product_ids (upsert p t)) <-> x = p_product_id p \/ In x (product_ids t).
Proof.
  unfold product_ids. induction t as [|q t IH]; simpl.
  - intuition.
  - destruct (p_product_id q =? p_product_id p) eqn:E; simpl.
    + apply Z.eqb_eq in E. rewrite E. intuition.
    + rewrite IH. intuition.
Qed.

Lemma upsert_NoDup t :
  NoDup (product_ids t) -> NoDup (product_ids (upsert p t)).
Proof.
  unfold product_ids. induction t as [|q t IH]; simpl; intros H.
  - constructor; [intros []|constructor].
  - inversion H as [|x l Hx Hl]; subst.
    destruct (p_product_id q =? p_product_id p) eqn:E; simpl.
    + apply Z.eqb_eq in E. rewrite <- E. constructor; assumption.
    + constructor; [|apply IH, Hl].
      intros Hin. apply (upsert_ids_in (p_product_id q) t) in Hin.
      destruct Hin as [Hin|Hin]; [|exact (Hx Hin)].
      apply Z.eqb_neq in E. exact (E Hin).
Qed.

Lemma upsert_twice t : upsert p (upsert p t) = upsert p t.
Proof.
  induction t as [|q t IH]; simpl.
  - rewrite Z.eqb_refl. reflexivity.
  - destruct (p_product_id q =? p_product_id p) eqn:E; simpl.
    + rewrite Z.eqb_refl. reflexivity.
    + rewrite E, IH. reflexivity.
Qed.

Lemma upsert_length t :
  List.length (upsert p t)
  = if existsb (fun q => p_product_id q =? p_product_id p) t
    then List.length t else S (List.length t).
Proof.
  induction t as [|q t IH]; simpl; [reflexivity|].
  destruct (p_product_id q =? p_product_id p); simpl; [reflexivity|].
  rewrite IH.
  destruct (existsb (fun q0 => p_product_id q0 =? p_product_id p) t);
    reflexivity.
Qed.

End Upsert.

(** X1.  When the store does not fail, [upsert_product] makes the record of
    the row the one found under its product identifier (last write wins),
    leaves the record found under every other identifier as it was, keeps
    the identifiers of the table distinct, adds a record only for an
    identifier that was not there, and touches neither the other tables nor
    the committed store. *)
Theorem upsert_product_writes_one_record :
  forall (row : row_data) (pid : Z) (name : pyval) (w : world),
    faults w = None ->
    pydict.get "product_id" row = Some (VInt pid) ->
    pydict.get "product_name" row = Some name ->
    exists w',
      upsert_product row w = (Ok tt, w') /\
      find_product pid (product (view w')) = Some (product_of pid name row) /\
      (forall q, q <> pid ->
                 find_product q (product (view w'))
                 = find_product q (product (view w))) /\
      (NoDup (product_ids (product (view w))) ->
       NoDup (product_ids (product (view w')))) /\
      List.length (product (view w'))
      = (if existsb (fun q => p_product_id q =? pid) (product (view w))
         then List.length (product (view w))
         else S (List.length (product (view w)))) /\
      product_price (view w') = product_price (view w) /\
      bill (view w') = bill (view w) /\
      bill_item (view w') = bill_item (view w) /\
      persisted w' = persisted w.
Proof.
  intros row pid name w Hf Hp Hn.
  exists (upserted (product_of pid name row) w).
  split; [apply upsert_product_ok; assumption|].
  unfold upserted. rewrite view_in_transaction. simpl.
  split; [apply (upsert_find_same (product_of pid name row))|].
  split; [intros q Hq; apply (upsert_find_other (product_of pid name row));
          exact Hq|].
  split; [apply upsert_NoDup|].
  split; [apply (upsert_length (product_of pid name row))|].
  repeat split.
Qed.

Lemma upsert_product_witness :
  exists w',
    upsert_product [("product_id", VInt 2); ("product_name", VStr "fig")]
                   (world_with_prices [])
    = (Ok tt, w') /\
    find_product 2 (product (view w'))
    = Some (mk_product 2 (VStr "fig") VNone VNone).
Proof.
  destruct (upsert_product_writes_one_record
              [("product_id", VInt 2); ("product_name", VStr "fig")]
              2 (VStr "fig") (world_with_prices [])
              eq_refl eq_refl eq_refl) as [w' [E [H _]]].
  exists w'. split; [exact E|exact H].
Defined.

(** X2.  [upsert_product] is idempotent: when the store does not fail,
    writing the same row a second time leaves the content of the
    transaction as the first write left it. *)
Theorem upsert_product_twice :
  forall (row : row_data) (pid : Z) (name : pyval) (w : world),
    faults w = None ->
    pydict.get "product_id" row = Some (VInt pid) ->
    pydict.get "product_name" row = Some name ->
    exists w1 w2,
      upsert_product row w = (Ok tt, w1) /\
      upsert_product row w1 = (Ok tt, w2) /\
      view w2 = view w1.
Proof.
  intros row pid name w Hf Hp Hn.
  exists (upserted (product_of pid name row) w).
  exists (upserted (product_of pid name row)
                   (upserted (product_of pid name row) w)).
  split; [apply upsert_product_ok; assumption|].
  split; [apply upsert_product_ok; assumption|].
  unfold upserted. rewrite !view_in_transaction. simpl.
  rewrite upsert_twice. reflexivity.
Qed.

Lemma upsert_product_twice_witness :
  exists w1 w2,
    upsert_product [("product_id", VInt 2); ("product_name", VStr "fig")]
                   (world_with_prices []) = (Ok tt, w1) /\
    upsert_product [("product_id", VInt 2); ("product_name", VStr "fig")] w1
    = (Ok tt, w2) /\
    view w2 = view w1.
Proof.
  exact (upsert_product_twice
           [("product_id", VInt 2); ("product_name", VStr "fig")]
           2 (VStr "fig") (world_with_prices []) eq_refl eq_refl eq_refl).
Defined.

(** ** The latest price *)

Section Latest.

Variable pid : Z.

Lemma latest_bounds t :
  forall best l,
    latest pid best t = Some l ->
    (forall b, best = Some b -> pp_created_when b <= pp_created_when l) /\
    (forall r, In r t -> pp_product_id r = pid ->
               pp_created_when r <= pp_created_when l).
Proof.
  induction t as [|r t IH]; simpl; intros best l H.
  - split; [intros b Hb; rewrite Hb in H; injection H as <-; lia|].
    intros r [].
  - destruct (pp_product_id r =? pid) eqn:E.
    + destruct best as [b|].
      * destruct (pp_created_when b <? pp_created_when r) eqn:Elt.
        -- destruct (IH _ _ H) as [H1 H2]. apply Z.ltb_lt in Elt. split.
           ++ intros b' Hb. injection Hb as <-.
              specialize (H1 r eq_refl). lia.
           ++ intros r' [<-|Hin] Hp; [apply H1; reflexivity|apply H2; auto].
        -- destruct (IH _ _ H) as [H1 H2]. apply Z.ltb_ge in Elt. split.
           ++ exact H1.
           ++ intros r' [<-|Hin] Hp; [|apply H2; auto].
              specialize (H1 b eq_refl). lia.
      * destruct (IH _ _ H) as [H1 H2]. split; [discriminate|].
        intros r' [<-|Hin] Hp; [apply H1; reflexivity|apply H2; auto].
    + destruct (IH _ _ H) as [H1 H2]. split; [exact H1|].
      intros r' [<-|Hin] Hp; [|apply H2; auto].
      apply Z.eqb_neq in E. contradiction.
Qed.

Lemma latest_product t :
  forall best l,
    latest pid best t = Some l ->
    (forall b, best = Some b -> pp_product_id b = pid) ->
    pp_product_id l = pid.
Proof.
  induction t as [|r t IH]; simpl; intros best l H Hb.
  - apply Hb, H.
  - destruct (pp_product_id r =? pid) eqn:E.
    + apply Z.eqb_eq in E.
      assert (Hr : forall b, Some r = Some b -> pp_product_id b = pid)
        by (intros b Hb'; injection Hb' as <-; exact E).
      destruct best as [b|].
      * destruct (pp_created_when b <? pp_created_when r);
          [apply (IH _ _ H Hr)|apply (IH _ _ H Hb)].
      * apply (IH _ _ H Hr).
    + apply (IH _ _ H Hb).
Qed.

Lemma latest_none t :
  latest pid None t = None <-> history pid t = [].
Proof.
  unfold history. induction t as [|r t IH]; simpl; [tauto|].
  destruct (pp_product_id r =? pid).
  - split; [|discriminate].
    intros H. exfalso. exact (latest_of_some pid t r H).
  - exact IH.
Qed.

Lemma history_In t r :
  In r (history pid t) <-> In r t /\ pp_product_id r = pid.
Proof.
  unfold history. rewrite filter_In. rewrite Z.eqb_eq. reflexivity.
Qed.

Lemma history_app t1 t2 :
  history pid (t1 ++ t2) = history pid t1 ++ history pid t2.
Proof. apply filter_app. Qed.

End Latest.

(** X3.  When the store does not fail, [get_latest_product_price] answers
    [None] exactly for a product without observation, and otherwise the cost
    of an observation of that product whose time stamp no other observation
    of the product exceeds. *)
Theorem latest_price_is_newest :
  forall (pid : Z) (w : world),
    faults w = None ->
    get_latest_product_price pid w
    = (Ok (latest_cost pid (view w)), in_transaction (view w) w) /\
    (latest_cost pid (view w) = None
     <-> history pid (product_price (view w)) = []) /\
    (forall cost,
        latest_cost pid (view w) = Some cost ->
        exists l,
          In l (history pid (product_price (view w))) /\
          pp_cost_per_unit l = cost /\
          forall r, In r (history pid (product_price (view w))) ->
                    pp_created_when r <= pp_created_when l).
Proof.
  intros pid w Hf. split; [|split].
  - unfold get_latest_product_price. apply fetch_ok, Hf.
  - unfold latest_cost. rewrite <- latest_none.
    destruct (latest pid None (product_price (view w)));
      simpl; split; congruence.
  - intros cost H. unfold latest_cost in H.
    destruct (latest pid None (product_price (view w))) as [l|] eqn:E;
      [|discriminate].
    injection H as <-. exists l.
    assert (Hp : pp_product_id l = pid)
      by (apply (latest_product pid _ _ _ E); discriminate).
    split; [|split; [reflexivity|]].
    + apply history_In. split; [|exact Hp].
      destruct (latest_in _ _ _ _ E) as [H|H]; [discriminate|exact H].
    + intros r Hr. apply history_In in Hr. destruct Hr as [Hin Hpr].
      exact (proj2 (latest_bounds pid _ _ _ E) r Hin Hpr).
Qed.

Lemma latest_price_witness :
  fst (get_latest_product_price 1
         (world_with_prices [mk_price 1 (dec 500 (-2)) 3;
                             mk_price 2 (dec 900 (-2)) 9;
                             mk_price 1 (dec 700 (-2)) 5;
                             mk_price 1 (dec 600 (-2)) 4]))
  = Ok (Some (dec 700 (-2))).
Proof.
  rewrite (proj1 (latest_price_is_newest 1
                    (world_with_prices [mk_price 1 (dec 500 (-2)) 3;
                                        mk_price 2 (dec 900 (-2)) 9;
                                        mk_price 1 (dec 700 (-2)) 5;
                                        mk_price 1 (dec 600 (-2)) 4])
                    eq_refl)).
  reflexivity.
Defined.


(** ** Observations at a new time stamp, and the natural key *)

Section Keys.

Variables (pid : Z) (ts : datetime).

Lemma find_key_history t row :
  find (same_key pid ts) t = Some row ->
  In row (history pid t) /\ pp_created_when row = ts.
Proof.
  intros H. apply find_some in H. destruct H as [Hin Hk].
  unfold same_key in Hk. apply andb_prop in Hk. destruct Hk as [H1 H2].
  apply Z.eqb_eq in H1, H2. split; [|exact H2].
  apply history_In. auto.
Qed.

Lemma find_none_key t :
  find (same_key pid ts) t = None -> ~ In (pid, ts) (map price_key t).
Proof.
  intros H Hin. apply in_map_iff in Hin. destruct Hin as [r [Hk Hr]].
  apply (find_none _ _ H) in Hr. unfold price_key in Hk.
  injection Hk as H1 H2. unfold same_key in Hr.
  rewrite H1, H2, !Z.eqb_refl in Hr. discriminate.
Qed.

Lemma overwrite_keys cost t :
  map price_key (overwrite pid ts cost t) = map price_key t.
Proof.
  unfold overwrite. rewrite map_map. apply map_ext. intros r.
  unfold price_key. destruct (same_key pid ts r); reflexivity.
Qed.

Lemma NoDup_snoc {A} (l : list A) (x : A) :
  NoDup l -> ~ In x l -> NoDup (l ++ [x]).
Proof.
  induction l as [|y l IH]; simpl; intros Hl Hx.
  - constructor; [intros []|constructor].
  - inversion Hl as [|z l' Hy Hl']; subst. constructor.
    + rewrite in_app_iff. intros [H|[H|[]]]; [exact (Hy H)|].
      apply Hx. left. symmetry. exact H.
    + apply IH; [exact Hl'|]. intros H. apply Hx. right. exact H.
Qed.

End Keys.

Lemma finite_is_number (d : Decimal) : is_finite d = true -> is_nan d = false.
Proof. destruct d; [reflexivity|reflexivity|discriminate]. Qed.

(** X4.  When the store does not fail, the cost is a finite number and the
    time stamp of the triple is newer than every observation of the product,
    a reconciliation whose cost differs from the latest cost (or that finds
    no history) appends the observation: the history of the product grows by
    exactly one and the latest-price query then answers a cost equal, as a
    number, to the new cost. *)
Theorem newer_observation_becomes_latest :
  forall (pid : Z) (cost : Decimal) (ts : datetime) (c : counters) (w : world),
    faults w = None ->
    is_finite cost = true ->
    (forall r, In r (history pid (product_price (view w))) ->
               pp_created_when r < ts) ->
    (forall cur, latest_cost pid (view w) = Some cur ->
                 decimal.ne cur cost = Ok true) ->
    exists c' w' read,
      reconcile_price pid cost (Some ts) c w = (Ok c', w') /\
      product_price (view w')
      = product_price (view w) ++ [mk_price pid cost ts] /\
      List.length (history pid (product_price (view w')))
      = S (List.length (history pid (product_price (view w)))) /\
      fst (get_latest_product_price pid w') = Ok (Some read) /\
      decimal.ne read cost = Ok false.
Proof.
  intros pid cost ts c w Hf Hfin Hnew Hcur.
  assert (Hfind : find (same_key pid ts) (product_price (view w)) = None).
  { destruct (find (same_key pid ts) (product_price (view w))) as [row|] eqn:E;
      [|reflexivity].
    destruct (find_key_history pid ts _ _ E) as [Hin Hts].
    specialize (Hnew row Hin). lia. }
  assert (Hlatest : latest_cost pid (inserted pid cost ts (view w))
                    = Some cost).
  { rewrite latest_cost_inserted.
    destruct (latest pid None (product_price (view w))) as [b|] eqn:E;
      [|reflexivity].
    assert (Hb : In b (history pid (product_price (view w)))).
    { apply history_In. split.
      - destruct (latest_in _ _ _ _ E) as [H|H]; [discriminate|exact H].
      - apply (latest_product pid _ _ _ E). discriminate. }
    specialize (Hnew b Hb). apply Z.ltb_lt in Hnew. rewrite Hnew.
    reflexivity. }
  assert (Hlen : List.length
                   (history pid (product_price (inserted pid cost ts (view w))))
                 = S (List.length (history pid (product_price (view w))))).
  { simpl. rewrite history_app, length_app. simpl. rewrite Z.eqb_refl.
    simpl. lia. }
  assert (Hsame : decimal.ne cost cost = Ok false)
    by (apply ne_refl, finite_is_number, Hfin).
  rewrite (reconcile_price_ok pid cost ts c w Hf).
  unfold reconcile_price_result, insert_product_price_result.
  rewrite view_in_transaction, Hfind.
  destruct (latest_cost pid (view w)) as [cur|] eqn:El.
  - rewrite (Hcur cur eq_refl). do 2 eexists. exists cost.
    split; [reflexivity|].
    rewrite view_printed, view_in_transaction.
    split; [reflexivity|]. split; [exact Hlen|]. split; [|exact Hsame].
    unfold get_latest_product_price. rewrite fetch_ok by exact Hf.
    simpl fst. f_equal. exact Hlatest.
  - do 2 eexists. exists cost. split; [reflexivity|].
    rewrite view_printed, view_in_transaction.
    split; [reflexivity|]. split; [exact Hlen|]. split; [|exact Hsame].
    unfold get_latest_product_price. rewrite fetch_ok by exact Hf.
    simpl fst. f_equal. exact Hlatest.
Qed.

Lemma newer_observation_witness :
  exists c' w' read,
    reconcile_price 1 (dec 600 (-2)) (Some 9) no_counts
                    (world_with_prices [mk_price 1 (dec 500 (-2)) 3])
    = (Ok c', w') /\
    fst (get_latest_product_price 1 w') = Ok (Some read) /\
    decimal.ne read (dec 600 (-2)) = Ok false.
Proof.
  destruct (newer_observation_becomes_latest 1 (dec 600 (-2)) 9 no_counts
              (world_with_prices [mk_price 1 (dec 500 (-2)) 3])
              eq_refl eq_refl)
    as [c' [w' [read [E [_ [_ [H1 H2]]]]]]].
  - intros r [<-|[]]. reflexivity.
  - intros cur H. vm_compute in H. injection H as <-. reflexivity.
  - exists c', w', read. split; [exact E|]. split; [exact H1|exact H2].
Defined.

(** X5.  The reconciliation keeps the natural key: when the store does not
    fail and no two observations share their (product, time stamp), none do
    after the reconciliation of a triple, whatever its outcome. *)
Theorem reconciliation_keeps_natural_key :
  forall (pid : Z) (cost : Decimal) (ts : datetime) (c : counters) (w : world),
    faults w = None ->
    NoDup (map price_key (product_price (view w))) ->
    NoDup (map price_key
             (product_price
                (view (snd (reconcile_price pid cost (Some ts) c w))))).
Proof.
  intros pid cost ts c w Hf Hnd.
  rewrite (reconcile_price_ok pid cost ts c w Hf).
  unfold reconcile_price_result, insert_product_price_result.
  rewrite view_in_transaction.
  assert (Hins : find (same_key pid ts) (product_price (view w)) = None ->
                 NoDup (map price_key
                          (product_price (inserted pid cost ts (view w))))).
  { intros Hfind. simpl. rewrite map_app. simpl.
    apply NoDup_snoc; [exact Hnd|]. apply find_none_key, Hfind. }
  assert (Hover : NoDup (map price_key
                           (product_price (overwritten pid cost ts (view w))))).
  { simpl. rewrite overwrite_keys. exact Hnd. }
  destruct (latest_cost pid (view w)) as [cur|].
  - destruct (decimal.ne cur cost) as [[|]|e]; simpl; try exact Hnd.
    destruct (find (same_key pid ts) (product_price (view w))) as [row|];
      [|exact (Hins eq_refl)].
    destruct (decimal.ne (pp_cost_per_unit row) cost) as [[|]|e]; simpl;
      [exact Hover|exact Hnd|exact Hnd].
  - destruct (find (same_key pid ts) (product_price (view w))) as [row|];
      [|exact (Hins eq_refl)].
    destruct (decimal.ne (pp_cost_per_unit row) cost) as [[|]|e]; simpl;
      [exact Hover|exact Hnd|exact Hnd].
Qed.

Lemma natural_key_witness :
  NoDup (map price_key
           (product_price
              (view (snd (reconcile_price 1 (dec 600 (-2)) (Some 3) no_counts
                            (world_with_prices
                               [mk_price 1 (dec 500 (-2)) 3;
                                mk_price 1 (dec 500 (-2)) 4])))))).
Proof.
  apply (reconciliation_keeps_natural_key 1 (dec 600 (-2)) 3 no_counts
           (world_with_prices [mk_price 1 (dec 500 (-2)) 3;
                               mk_price 1 (dec 500 (-2)) 4]) eq_refl).
  simpl. repeat constructor; simpl; intuition discriminate.
Defined.


(** ** Relations a whole run keeps on the store *)

Section OnView.

Variable P : db -> db -> Prop.
Hypothesis P_refl : forall d, P d d.
Hypothesis P_trans : forall a b c, P a b -> P b c -> P a c.

Lemma on_view_refl w : on_view P w w.
Proof. apply P_refl. Qed.

Lemma on_view_trans a b c : on_view P a b -> on_view P b c -> on_view P a c.
Proof. apply P_trans. Qed.

Lemma same_view_keeps {A} (m : M A) :
  (forall w, view (snd (m w)) = view w) -> keeps (on_view P) m.
Proof. intros H w. unfold on_view. rewrite H. apply P_refl. Qed.

Lemma tick_on_view : keeps (on_view P) tick.
Proof.
  apply same_view_keeps. intros w. unfold tick, view.
  destruct w as [? ? [|] ? [[|?]|] ? ? ?]; reflexivity.
Qed.

Lemma begin_on_view : keeps (on_view P) begin.
Proof.
  apply same_view_keeps. intros w. unfold begin, view.
  destruct w as [? ? [|] ? ? ? ? ?]; reflexivity.
Qed.

Lemma fetch_on_view {A} (q : db -> A) : keeps (on_view P) (fetch q).
Proof.
  apply same_view_keeps. intros w. unfold fetch, bind, tick, begin, view.
  destruct w as [? ? [|] ? [[|?]|] ? ? ?]; reflexivity.
Qed.

Lemma print_on_view l : keeps (on_view P) (print l).
Proof. apply same_view_keeps. reflexivity. Qed.

Lemma execute_on_view f :
  (forall d, P d (f d)) -> keeps (on_view P) (execute f).
Proof.
  intros Hf w. unfold on_view, execute, bind, tick, begin, view.
  destruct w as [? ? [|] ? [[|?]|] ? ? ?]; simpl; auto.
Qed.

Lemma view_bind {A B} (m : M A) (k : A -> M B) :
  keeps (on_view P) m -> (forall a, keeps (on_view P) (k a)) ->
  keeps (on_view P) (bind m k).
Proof. apply (keeps_bind (on_view P) on_view_trans). Qed.

Lemma view_bind_lift {A B} (o : outcome A) (k : A -> M B) :
  (forall a, o = Ok a -> keeps (on_view P) (k a)) ->
  keeps (on_view P) (bind (lift o) k).
Proof.
  intros H w. unfold bind, lift. destruct o as [a|e]; simpl.
  - apply (H a eq_refl).
  - apply P_refl.
Qed.

Lemma view_ret {A} (a : A) : keeps (on_view P) (ret a).
Proof. apply (keeps_ret (on_view P) on_view_refl). Qed.

Lemma view_raise {A} (e : exn) : keeps (on_view P) (@raise A e).
Proof. apply (keeps_raise (on_view P) on_view_refl). Qed.

Lemma view_lift {A} (o : outcome A) : keeps (on_view P) (lift o).
Proof. apply (keeps_lift (on_view P) on_view_refl). Qed.

Lemma view_now : keeps (on_view P) now.
Proof. apply (keeps_now (on_view P) on_view_refl). Qed.

(** What the loop keeps on the content it sees, the committed body keeps on
    the store. *)
Lemma product_body_lifts up ts products w :
  keeps (on_view P) (import_products up ts products (mk_counters 0 0 0)) ->
  in_txn w = false ->
  match product_body up ts products w with
  | (Ok _, w') => in_txn w' = false /\ P (persisted w) (persisted w')
  | (Raise e, w') => persisted w' = persisted w
  end.
Proof.
  intros Hloop Hin. unfold product_body, bind.
  pose proof (import_products_same_persisted up ts products
                (mk_counters 0 0 0) w) as [Hp _].
  specialize (Hloop w). unfold on_view in Hloop.
  destruct (import_products up ts products (mk_counters 0 0 0) w)
    as [[c|e] wl]; simpl in *; [|exact Hp].
  assert (Hv : view w = persisted w) by (unfold view; rewrite Hin; reflexivity).
  rewrite Hv in Hloop. rewrite <- Hp.
  unfold commit, bind, tick, print.
  destruct wl as [p wk [|] cn [[|n]|] b k o]; simpl in *; auto.
  - rewrite Hp. auto.
  - rewrite Hp. auto.
Qed.

Lemma get_connection_spec w :
  match get_connection w with
  | (Ok _, w') => persisted w' = persisted w /\ in_txn w' = false
  | (Raise e, w') => persisted w' = persisted w
  end.
Proof.
  destruct w as [p wk t cn [[|[|[|n]]]|] b k o]; vm_compute; auto.
Qed.

Lemma product_run_lifts f up ts w :
  (forall products w0,
      read_product_csv f w = (Ok products, w0) ->
      keeps (on_view P) (import_products up ts products (mk_counters 0 0 0))) ->
  P (persisted w) (persisted (snd (import_product_csv f up ts w))).
Proof.
  intros Hloop. unfold import_product_csv. unfold bind at 1.
  pose proof (read_product_csv_same_store f w) as Hread.
  destruct (read_product_csv f w) as [[products|e0] w0]; simpl in Hread;
    destruct Hread as [Hp _]; rewrite <- Hp;
    try specialize (Hloop products w0 eq_refl).
  - destruct products as [|p ps]; [apply P_refl|].
    unfold bind at 1.
    pose proof (get_connection_spec w0) as Hconn.
    destruct (get_connection w0) as [[u|e] w1]; cbv beta iota;
      [|simpl; rewrite Hconn; apply P_refl].
    destruct Hconn as [Hp1 Hin]. rewrite <- Hp1.
    unfold try_finally, try_except, with_conn.
    fold (product_body up ts (p :: ps)).
    pose proof (product_body_lifts up ts (p :: ps) w1 Hloop Hin) as Hbody.
    destruct (product_body up ts (p :: ps) w1) as [[u'|e] w2].
    + destruct Hbody as [Hin2 HP].
      unfold bind at 1. rewrite (commit_outside_transaction w2 Hin2).
      simpl. exact HP.
    + simpl. rewrite Hbody. apply P_refl.
  - apply P_refl.
Qed.

Lemma bill_run_lifts f csv_path vendor_name notes shipping_amount currency
                     bill_number bill_date source w :
  (forall mk its, keeps (on_view P) (bill_body mk its)) ->
  P (persisted w)
    (persisted (snd (import_bill.import_bill f csv_path vendor_name notes
                       shipping_amount currency bill_number bill_date source
                       w))).
Proof.
  intros Hbody. unfold import_bill.import_bill.
  unfold bind at 1, lift at 1.
  destruct (import_bill.read_bill_csv f) as [items|e0]; [|apply P_refl].
  unfold bind at 1, lift at 1.
  destruct (import_bill.prepare_items
              (import_bill.mk_totals decimal.zero decimal.zero []) items)
    as [t|e0]; [|apply P_refl].
  unfold bind at 1, lift at 1.
  destruct (s <- decimal.add (import_bill.subtotal t) (import_bill.tax_sum t) ;;
            decimal.add s shipping_amount)%out as [total|e0];
    [|apply P_refl].
  unfold bind at 1.
  pose proof (get_connection_spec w) as Hconn.
  destruct (get_connection w) as [[u|e] w1]; cbv beta iota;
    [|simpl; rewrite Hconn; apply P_refl].
  destruct Hconn as [Hp1 Hin]. rewrite <- Hp1.
  unfold try_finally. unfold bind at 1. unfold with_conn.
  match goal with
  | |- context [import_bill.insert_bill ?mk] =>
      fold (bill_body mk (import_bill.prepared_items t));
      pose proof (Hbody mk (import_bill.prepared_items t) w1) as Hb;
      pose proof (bill_body_exit mk (import_bill.prepared_items t) w1)
        as [Hp _];
      destruct (bill_body mk (import_bill.prepared_items t) w1)
        as [[b|e] w2]
  end; simpl in Hb, Hp; unfold on_view in Hb.
  - assert (Hv : view w1 = persisted w1)
      by (unfold view; rewrite Hin; reflexivity).
    rewrite Hv in Hb. rewrite <- Hp.
    unfold bind, commit, tick, ret, print, close.
    destruct w2 as [p wk [|] cn [[|n]|] bs k o]; simpl in *;
      try apply P_refl; try (rewrite Hp; exact Hb).
  - simpl. rewrite Hp. apply P_refl.
Qed.

End OnView.


Lemma view_bind_ret (P : db -> db -> Prop) {A B} (a : A) (k : A -> M B) :
  keeps (on_view P) (k a) -> keeps (on_view P) (bind (ret a) k).
Proof. intros H w. exact (H w). Qed.

Ltac view_steps P Hr Ht :=
  repeat match goal with
    | |- keeps _ (bind (ret _) _) => apply (view_bind_ret P)
    | |- keeps _ (bind _ _) => apply (view_bind P Ht); [|intro]
    | |- keeps _ (execute _) => apply (execute_on_view P Hr); intro
    | |- keeps _ (fetch _) => apply (fetch_on_view P Hr)
    | |- keeps _ (ret _) => apply (view_ret P Hr)
    | |- keeps _ (raise _) => apply (view_raise P Hr)
    | |- keeps _ (lift _) => apply (view_lift P Hr)
    | |- keeps _ now => apply (view_now P Hr)
    | |- keeps _ (print _) => apply (print_on_view P Hr)
    | |- keeps _ (match ?x with _ => _ end) => destruct x
    end.

Lemma import_products_on_view (P : db -> db -> Prop) up ts :
  (forall d, P d d) -> (forall a b c, P a b -> P b c -> P a c) ->
  forall products,
    (forall row c, In row products ->
                   keeps (on_view P) (import_product up ts row c)) ->
    forall c, keeps (on_view P) (import_products up ts products c).
Proof.
  intros Hr Ht products. induction products as [|p ps IH]; intros H c; simpl.
  - apply (view_ret P Hr).
  - apply (view_bind P Ht); [apply H; left; reflexivity|].
    intros c'. apply IH. intros row c0 Hin. apply H. right. exact Hin.
Qed.

Lemma nothing_lost_refl d : nothing_lost d d.
Proof.
  split; [exists []; rewrite app_nil_r; reflexivity|].
  split; [apply incl_refl|]. split; reflexivity.
Qed.

Lemma nothing_lost_trans a b c :
  nothing_lost a b -> nothing_lost b c -> nothing_lost a c.
Proof.
  intros [[l1 H1] [H2 [H3 H4]]] [[l2 G1] [G2 [G3 G4]]].
  split; [exists (l1 ++ l2); rewrite G1, H1, app_assoc; reflexivity|].
  split; [eapply incl_tran; eassumption|]. split; congruence.
Qed.

Lemma upsert_nothing_lost p d :
  nothing_lost d (set_product (upsert p (product d)) d).
Proof.
  split; [exists []; rewrite app_nil_r; reflexivity|].
  split; [|split; reflexivity].
  intros x Hx. simpl. apply (upsert_ids_in p). right. exact Hx.
Qed.

Lemma overwritten_nothing_lost pid ts cost d :
  nothing_lost d
    (set_product_price (overwrite pid ts cost (product_price d)) d).
Proof.
  split; [exists []; simpl; rewrite overwrite_keys, app_nil_r; reflexivity|].
  split; [apply incl_refl|]. split; reflexivity.
Qed.

Lemma inserted_nothing_lost r d :
  nothing_lost d (set_product_price (product_price d ++ [r]) d).
Proof.
  split; [exists [price_key r]; simpl; rewrite map_app; reflexivity|].
  split; [apply incl_refl|]. split; reflexivity.
Qed.

Lemma import_product_nothing_lost up ts row c :
  keeps (on_view nothing_lost) (import_product up ts row c).
Proof.
  unfold import_product, upsert_product, reconcile_price,
    get_latest_product_price, insert_product_price.
  view_steps nothing_lost nothing_lost_refl nothing_lost_trans;
    first [apply upsert_nothing_lost | apply overwritten_nothing_lost
          | apply inserted_nothing_lost].
Qed.

(** X6.  A product import deletes nothing and re-keys nothing, whatever the
    file, the flags and the failures of the store: in the committed store the
    observations that were there keep their keys and their places (new ones
    come after them), no product identifier goes away, and the bill tables
    are as they were. *)
Theorem product_import_loses_nothing :
  forall (f : csv_file) (update_prices : bool)
         (price_timestamp : option datetime) (w : world),
    nothing_lost
      (persisted w)
      (persisted (snd (import_product_csv f update_prices price_timestamp w))).
Proof.
  intros f up ts w.
  apply (product_run_lifts nothing_lost nothing_lost_refl).
  intros products w0 _.
  apply (import_products_on_view nothing_lost up ts
           nothing_lost_refl nothing_lost_trans).
  intros row c _. apply import_product_nothing_lost.
Qed.

Lemma prices_untouched_refl d : prices_untouched d d.
Proof. reflexivity. Qed.

Lemma prices_untouched_trans a b c :
  prices_untouched a b -> prices_untouched b c -> prices_untouched a c.
Proof. unfold prices_untouched. congruence. Qed.

Lemma import_product_without_prices ts row c :
  keeps (on_view prices_untouched) (import_product false ts row c).
Proof.
  unfold import_product, upsert_product.
  view_steps prices_untouched prices_untouched_refl prices_untouched_trans.
  reflexivity.
Qed.

(** X7.  With [update_prices] off, a product import leaves the price table
    of the committed store as it was, whatever the file holds (costs
    included) and whether the run succeeds or not. *)
Theorem no_update_prices_keeps_price_table :
  forall (f : csv_file) (price_timestamp : option datetime) (w : world),
    product_price
      (persisted (snd (import_product_csv f false price_timestamp w)))
    = product_price (persisted w).
Proof.
  intros f ts w.
  apply (product_run_lifts prices_untouched prices_untouched_refl).
  intros products w0 _.
  apply (import_products_on_view prices_untouched false ts
           prices_untouched_refl prices_untouched_trans).
  intros row c _. apply import_product_without_prices.
Qed.

Section Stamped.

Variable ts : datetime.

Lemma stamped_refl d : stamped ts d d.
Proof. exists []. rewrite app_nil_r. split; [reflexivity|constructor]. Qed.

Lemma stamped_trans a b c : stamped ts a b -> stamped ts b c -> stamped ts a c.
Proof.
  intros [l1 [H1 F1]] [l2 [H2 F2]]. exists (l1 ++ l2).
  split; [rewrite H2, H1, app_assoc; reflexivity|].
  apply Forall_app. split; assumption.
Qed.

Lemma import_product_stamped up row c :
  keeps (on_view (stamped ts)) (import_product up (Some ts) row c).
Proof.
  unfold import_product, upsert_product, reconcile_price,
    get_latest_product_price, insert_product_price.
  view_steps (stamped ts) stamped_refl stamped_trans.
  - exists []. simpl. rewrite app_nil_r. split; [reflexivity|constructor].
  - exists []. simpl. rewrite overwrite_keys, app_nil_r.
    split; [reflexivity|constructor].
  - eexists. simpl. rewrite map_app. split; [reflexivity|].
    repeat constructor.
Qed.

End Stamped.

(** X8.  Every observation that a product import run with a price time
    stamp adds to the committed store carries that time stamp, and the run
    changes the time stamp of no observation. *)
Theorem price_timestamp_stamps_new_observations :
  forall (f : csv_file) (update_prices : bool) (ts : datetime) (w : world),
    stamped ts (persisted w)
            (persisted (snd (import_product_csv f update_prices (Some ts) w))).
Proof.
  intros f up ts w.
  apply (product_run_lifts (stamped ts) (stamped_refl ts)).
  intros products w0 _.
  apply (import_products_on_view (stamped ts) up (Some ts)
           (stamped_refl ts) (stamped_trans ts)).
  intros row c _. apply import_product_stamped.
Qed.

Section Untouched.

Variable q : Z.

Lemma product_untouched_refl d : product_untouched q d d.
Proof. split; reflexivity. Qed.

Lemma product_untouched_trans a b c :
  product_untouched q a b -> product_untouched q b c ->
  product_untouched q a c.
Proof. intros [H1 H2] [G1 G2]. split; congruence. Qed.

Lemma history_overwrite_other pid ts cost t :
  pid <> q -> history q (overwrite pid ts cost t) = history q t.
Proof.
  intros Hq. unfold history, overwrite.
  induction t as [|r t IH]; simpl; [reflexivity|].
  destruct (same_key pid ts r) eqn:E; simpl.
  - unfold same_key in E. apply andb_prop in E. destruct E as [E _].
    apply Z.eqb_eq in E.
    assert (Hr : (pp_product_id r =? q) = false)
      by (apply Z.eqb_neq; congruence).
    rewrite Hr. exact IH.
  - destruct (pp_product_id r =? q); [f_equal|]; exact IH.
Qed.

Lemma row_product_id row a :
  (pid <- item "product_id" row ;; as_int pid)%out = Ok a ->
  pydict.get "product_id" row = Some (VInt a).
Proof.
  unfold item. destruct (pydict.get "product_id" row) as [[| | |]|]; simpl;
    congruence.
Qed.

Lemma import_product_untouched up ts row c :
  pydict.get "product_id" row <> Some (VInt q) ->
  keeps (on_view (product_untouched q)) (import_product up ts row c).
Proof.
  intros Hrow. unfold import_product, upsert_product.
  apply (view_bind_lift _ product_untouched_refl). intros pid Hpid.
  apply row_product_id in Hpid.
  assert (Hq : pid <> q) by (intros ->; exact (Hrow Hpid)).
  unfold reconcile_price, get_latest_product_price, insert_product_price.
  apply (view_bind (product_untouched q) product_untouched_trans).
  { apply (view_bind_lift _ product_untouched_refl). intros pid' Hpid'.
    apply row_product_id in Hpid'.
    assert (Hq' : q <> pid') by (intros ->; exact (Hrow Hpid')).
    view_steps (product_untouched q) product_untouched_refl
               product_untouched_trans.
    split; [reflexivity|]. simpl.
    match goal with
    | |- find_product q (upsert ?p _) = _ => apply (upsert_find_other p)
    end.
    exact Hq'. }
  intros _.
  view_steps (product_untouched q) product_untouched_refl
             product_untouched_trans.
  - split; [|reflexivity]. simpl. apply history_overwrite_other. exact Hq.
  - split; [|reflexivity]. simpl. rewrite history_app. simpl.
    apply Z.eqb_neq in Hq. rewrite Hq. apply app_nil_r.
Qed.

End Untouched.

(** X9.  A product import leaves alone the products its rows do not name:
    when no row the reader returns carries the identifier [q], the record of
    [q] and the price history of [q] in the committed store are after the
    run what they were before, whatever the outcome. *)
Theorem import_leaves_other_products_alone :
  forall (f : csv_file) (update_prices : bool)
         (price_timestamp : option datetime) (q : Z) (w : world),
    (forall rows w0 row,
        read_product_csv f w = (Ok rows, w0) -> In row rows ->
        pydict.get "product_id" row <> Some (VInt q)) ->
    product_untouched q
      (persisted w)
      (persisted (snd (import_product_csv f update_prices price_timestamp w))).
Proof.
  intros f up ts q w Hrows.
  apply (product_run_lifts (product_untouched q) (product_untouched_refl q)).
  intros products w0 Hread.
  apply (import_products_on_view (product_untouched q) up ts
           (product_untouched_refl q) (product_untouched_trans q)).
  intros row c Hin. apply import_product_untouched.
  exact (Hrows products w0 row Hread Hin).
Qed.


Lemma other_products_witness :
  product_untouched 7
    (persisted (world_with_prices [mk_price 7 (dec 500 (-2)) 3]))
    (persisted
       (snd (import_product_csv
               [["product_id"; "product_name"; "cost_per_unit"];
                ["1"; "fig"; "6.00"]]
               true (Some 9)
               (world_with_prices [mk_price 7 (dec 500 (-2)) 3])))).
Proof.
  apply import_leaves_other_products_alone.
  intros rows w0 row E Hin. vm_compute in E. injection E as <- _.
  destruct Hin as [<-|[]]. discriminate.
Defined.

(** ** The bill import and the tables *)

Lemma bills_appended_refl d : bills_appended d d.
Proof.
  split; [reflexivity|]. split; [reflexivity|].
  split; exists []; rewrite app_nil_r; reflexivity.
Qed.

Lemma bills_appended_trans a b c :
  bills_appended a b -> bills_appended b c -> bills_appended a c.
Proof.
  intros [H1 [H2 [[l1 H3] [m1 H4]]]] [G1 [G2 [[l2 G3] [m2 G4]]]].
  split; [congruence|]. split; [congruence|]. split.
  - exists (l1 ++ l2). rewrite G3, H3, app_assoc. reflexivity.
  - exists (m1 ++ m2). rewrite G4, H4, app_assoc. reflexivity.
Qed.

Lemma insert_bill_appends mk :
  keeps (on_view bills_appended) (import_bill.insert_bill mk).
Proof.
  intros w. unfold on_view, import_bill.insert_bill, bind, tick, begin, view.
  destruct w as [p wk [|] cn [[|n]|] b k o]; simpl;
    try apply bills_appended_refl;
    (split; [reflexivity|]; split; [reflexivity|]; split;
     [eexists; reflexivity|exists []; rewrite app_nil_r; reflexivity]).
Qed.

Lemma insert_bill_items_append bill_id its :
  keeps (on_view bills_appended) (import_bill.insert_bill_items bill_id its).
Proof.
  induction its as [|it its IH]; simpl.
  - apply (view_ret _ bills_appended_refl).
  - apply (view_bind _ bills_appended_trans); [|intros _; exact IH].
    unfold import_bill.insert_bill_item.
    apply (execute_on_view _ bills_appended_refl). intros d.
    split; [reflexivity|]. split; [reflexivity|]. split.
    + exists []. rewrite app_nil_r. reflexivity.
    + eexists. reflexivity.
Qed.

(** X10.  A bill import never touches the product and price tables, and it
    only appends to the bill and bill-item tables: in the committed store the
    records that were there are still there, unchanged and in place, whatever
    the file and whether the run succeeds or not. *)
Theorem bill_import_only_appends :
  forall (f : csv_file) (csv_path : string) (vendor_name notes : option string)
         (shipping_amount : Decimal) (currency : string)
         (bill_number : option string) (bill_date : option date)
         (source : option string) (w : world),
    bills_appended
      (persisted w)
      (persisted (snd (import_bill.import_bill f csv_path vendor_name notes
                         shipping_amount currency bill_number bill_date
                         source w))).
Proof.
  intros. apply (bill_run_lifts bills_appended bills_appended_refl).
  intros mk its. unfold bill_body.
  apply (view_bind _ bills_appended_trans); [apply insert_bill_appends|].
  intros b. apply insert_bill_items_append.
Qed.


(** ** Runs that succeed *)

Lemma returns_bind {A B} (Q : B -> Prop) (m : M A) (k : A -> M B) :
  (forall a, returns Q (k a)) -> returns Q (bind m k).
Proof.
  intros H w b w' E. unfold bind in E.
  destruct (m w) as [[a|e] w1]; [exact (H a w1 b w' E)|discriminate].
Qed.

Lemma returns_ret {A} (Q : A -> Prop) (a : A) : Q a -> returns Q (ret a).
Proof. intros H w b w' E. injection E as <- _. exact H. Qed.

Lemma returns_raise {A} (Q : A -> Prop) (e : exn) : returns Q (@raise A e).
Proof. intros w b w' E. discriminate. Qed.

Ltac returns_steps :=
  repeat match goal with
    | |- returns _ (bind _ _) => apply returns_bind; intro
    | |- returns _ (ret _) => apply returns_ret
    | |- returns _ (raise _) => apply returns_raise
    | |- returns _ (match ?x with _ => _ end) => destruct x eqn:?
    end.

Lemma execute_ok_view f w w' :
  execute f w = (Ok tt, w') -> view w' = f (view w).
Proof.
  unfold execute, bind, tick, begin, view.
  destruct w as [p wk [|] cn [[|n]|] b k o]; simpl; intros E;
    try discriminate; injection E as <-; reflexivity.
Qed.

Lemma commit_ok w w' :
  commit w = (Ok tt, w') ->
  persisted w' = view w /\ in_txn w' = false /\ stdout w' = stdout w.
Proof.
  unfold commit, bind, tick, view.
  destruct w as [p wk [|] cn [[|n]|] b k o]; simpl; intros E;
    try discriminate; injection E as <-; simpl; auto.
Qed.

Lemma upsert_product_ok_view row w w' :
  upsert_product row w = (Ok tt, w') ->
  exists p, row_record row = Some p /\
            view w' = set_product (upsert p (product (view w))) (view w).
Proof.
  unfold upsert_product, row_record, product_of, item, bind, lift.
  destruct (pydict.get "product_id" row) as [[| |pid|]|]; simpl;
    try discriminate.
  destruct (pydict.get "product_name" row) as [name|]; simpl;
    try discriminate.
  intros E. apply execute_ok_view in E. eexists. split; [reflexivity|exact E].
Qed.

Section Success.

Variables (update_prices : bool) (price_timestamp : option datetime).

Lemma same_products_refl d : same_products d d.
Proof. reflexivity. Qed.

Lemma same_products_trans a b c :
  same_products a b -> same_products b c -> same_products a c.
Proof. unfold same_products. congruence. Qed.

Lemma reconcile_price_same_products pid cost c :
  keeps (on_view same_products) (reconcile_price pid cost price_timestamp c).
Proof.
  unfold reconcile_price, get_latest_product_price, insert_product_price.
  view_steps same_products same_products_refl same_products_trans;
    reflexivity.
Qed.

Lemma import_product_table row c w c' w' :
  import_product update_prices price_timestamp row c w = (Ok c', w') ->
  exists p, row_record row = Some p /\
            product (view w') = upsert p (product (view w)).
Proof.
  unfold import_product. unfold bind at 1, lift at 1.
  destruct (pid <- item "product_id" row ;; as_int pid)%out as [pid|e];
    [|discriminate].
  unfold bind at 1.
  pose proof (upsert_product_ok_view row w) as Hu.
  destruct (upsert_product row w) as [[[]|e] w1]; [|discriminate].
  destruct (Hu w1 eq_refl) as [p [Hp Hv]]. intros E.
  exists p. split; [exact Hp|].
  assert (Hk : product (view w') = product (view w1)).
  { destruct update_prices.
    - destruct (pydict.get "cost_per_unit" row) as [[| | |new_price]|];
        try (injection E as _ <-; reflexivity); try discriminate.
      pose proof (reconcile_price_same_products pid new_price
                    (mk_counters (S (products_updated c)) (prices_updated c)
                                 (prices_inserted c)) w1) as H.
      rewrite E in H. exact H.
    - injection E as _ <-. reflexivity. }
  rewrite Hk, Hv. reflexivity.
Qed.

Lemma import_products_table rows :
  forall c w c' w',
    import_products update_prices price_timestamp rows c w = (Ok c', w') ->
    product (view w') = upsert_rows rows (product (view w)) /\
    Forall (fun row => row_record row <> None) rows.
Proof.
  induction rows as [|row rows IH]; simpl; intros c w c' w' E.
  - injection E as _ <-. split; [reflexivity|constructor].
  - unfold bind in E.
    pose proof (import_product_table row c w) as Hrow.
    destruct (import_product update_prices price_timestamp row c w)
      as [[c1|e] w1]; [|discriminate].
    destruct (Hrow c1 w1 eq_refl) as [p [Hp Hv]].
    destruct (IH _ _ _ _ E) as [H1 H2].
    rewrite Hp, <- Hv. split; [exact H1|].
    constructor; [rewrite Hp; discriminate|exact H2].
Qed.

Lemma import_product_counts row c :
  returns (fun c' =>
             products_updated c' = S (products_updated c) /\
             (price_events c <= price_events c')%nat /\
             (price_events c'
              <= price_events c + (if update_prices && has_cost row
                                   then 1 else 0))%nat)
          (import_product update_prices price_timestamp row c).
Proof.
  unfold import_product, reconcile_price, has_cost, price_events.
  returns_steps; simpl; rewrite ?andb_false_r; simpl;
    repeat split; try lia; try discriminate.
Qed.

Lemma import_products_counts rows :
  forall c,
    returns (fun c' =>
               (products_updated c'
                = products_updated c + List.length rows)%nat /\
               (price_events c <= price_events c')%nat /\
               (price_events c'
                <= price_events c
                   + (if update_prices
                      then List.length (filter has_cost rows) else 0))%nat)
            (import_products update_prices price_timestamp rows c).
Proof.
  induction rows as [|row rows IH]; intros c; simpl.
  - apply returns_ret. destruct update_prices; lia.
  - intros w c' w' E. unfold bind in E.
    pose proof (import_product_counts row c w) as Hrow.
    destruct (import_product update_prices price_timestamp row c w)
      as [[c1|e] w1]; [|discriminate].
    destruct (Hrow c1 w1 eq_refl) as [H1 [H2 H3]].
    destruct (IH c1 w1 c' w' E) as [G1 [G2 G3]].
    destruct update_prices; simpl in *; [destruct (has_cost row); simpl in *|];
      lia.
Qed.

Lemma product_body_ok rows w u w' :
  product_body update_prices price_timestamp rows w = (Ok u, w') ->
  exists c wl,
    import_products update_prices price_timestamp rows (mk_counters 0 0 0) w
    = (Ok c, wl) /\
    persisted w' = view wl /\ in_txn w' = false /\
    stdout w' = stdout wl ++ [ImportSummary (products_updated c)
                                            (prices_inserted c)
                                            (prices_updated c)].
Proof.
  unfold product_body. unfold bind at 1.
  destruct (import_products update_prices price_timestamp rows
              (mk_counters 0 0 0) w) as [[c|e] wl]; [|discriminate].
  unfold bind at 1. pose proof (commit_ok wl) as Hc.
  destruct (commit wl) as [[[]|e] w2]; [|discriminate].
  destruct (Hc w2 eq_refl) as [H1 [H2 H3]].
  destruct u. unfold print. intros E.
  assert (Hw : w' = mk_world (persisted w2) (working w2) (in_txn w2) (conn w2)
                             (faults w2) (bill_seq w2) (clock w2)
                             (stdout w2
                                ++ [ImportSummary (products_updated c)
                                                  (prices_inserted c)
                                                  (prices_updated c)]))
    by congruence.
  exists c, wl. rewrite Hw. simpl. rewrite H3. auto.
Qed.

Lemma product_run_ok f w rows w0 w' :
  read_product_csv f w = (Ok rows, w0) ->
  rows <> [] ->
  import_product_csv f update_prices price_timestamp w = (Ok tt, w') ->
  exists w1 c wl,
    persisted w1 = persisted w /\ in_txn w1 = false /\
    import_products update_prices price_timestamp rows (mk_counters 0 0 0) w1
    = (Ok c, wl) /\
    persisted w' = view wl /\
    stdout w' = stdout wl ++ [ImportSummary (products_updated c)
                                            (prices_inserted c)
                                            (prices_updated c)].
Proof.
  intros Hread Hrows. unfold import_product_csv. unfold bind at 1.
  pose proof (read_product_csv_same_store f w) as Hs.
  rewrite Hread in *. simpl in Hs. destruct Hs as [Hp _].
  destruct rows as [|p ps]; [contradiction Hrows; reflexivity|].
  unfold bind at 1.
  pose proof (get_connection_spec w0) as Hconn.
  destruct (get_connection w0) as [[[]|e] w1]; [|discriminate].
  destruct Hconn as [Hp1 Hin].
  unfold try_finally, try_except, with_conn.
  fold (product_body update_prices price_timestamp (p :: ps)).
  pose proof (product_body_ok (p :: ps) w1) as Hb.
  destruct (product_body update_prices price_timestamp (p :: ps) w1)
    as [[[]|e] w2].
  - destruct (Hb tt w2 eq_refl) as [c [wl [Hl [Hpw [Hin2 Ho]]]]].
    unfold bind at 1. rewrite (commit_outside_transaction w2 Hin2).
    simpl. intros E. injection E as <-. simpl.
    exists w1, c, wl. split; [congruence|]. auto.
  - simpl. intros E. discriminate.
Qed.

End Success.

Lemma find_upsert_rows pid rows :
  forall t,
    find_product pid (upsert_rows rows t)
    = match last_record pid rows with
      | Some p => Some p
      | None => find_product pid t
      end.
Proof.
  induction rows as [|row rows IH]; intros t; simpl; [reflexivity|].
  unfold upsert_rows in *. simpl. rewrite IH.
  destruct (last_record pid rows) as [p|]; [reflexivity|].
  destruct (row_record row) as [p|]; [|reflexivity].
  destruct (p_product_id p =? pid) eqn:E.
  - apply Z.eqb_eq in E. subst pid. apply upsert_find_same.
  - apply upsert_find_other. apply Z.eqb_neq in E. congruence.
Qed.

(** X11.  After a product import that succeeds, whatever the failures the
    store was set to inject, the committed product table is the former one
    with the rows of the file written in file order: every row stands for a
    record; the record found under an identifier is the one of the last row
    that names it, and an identifier no row names keeps its record. *)
Theorem successful_import_writes_every_product :
  forall (f : csv_file) (update_prices : bool)
         (price_timestamp : option datetime) (w w0 w' : world)
         (rows : list row_data),
    read_product_csv f w = (Ok rows, w0) ->
    import_product_csv f update_prices price_timestamp w = (Ok tt, w') ->
    product (persisted w') = upsert_rows rows (product (persisted w)) /\
    Forall (fun row => row_record row <> None) rows /\
    forall pid,
      find_product pid (product (persisted w'))
      = match last_record pid rows with
        | Some p => Some p
        | None => find_product pid (product (persisted w))
        end.
Proof.
  intros f up ts w w0 w' rows Hread Hrun.
  assert (H : product (persisted w') = upsert_rows rows (product (persisted w))
              /\ Forall (fun row => row_record row <> None) rows).
  { destruct rows as [|p ps].
    - unfold import_product_csv, bind in Hrun. rewrite Hread in Hrun.
      injection Hrun as <-. simpl.
      pose proof (read_product_csv_same_store f w) as Hs.
      rewrite Hread in Hs. destruct Hs as [Hp _]. simpl in Hp.
      rewrite Hp. split; [reflexivity|constructor].
    - destruct (product_run_ok up ts f w (p :: ps) w0 w' Hread
                  ltac:(discriminate) Hrun)
        as [w1 [c [wl [Hp1 [Hin [Hloop [Hpw _]]]]]]].
      destruct (import_products_table up ts _ _ _ _ _ Hloop) as [Ht Hall].
      split; [|exact Hall].
      rewrite Hpw, Ht. unfold view. rewrite Hin, Hp1. reflexivity. }
  destruct H as [Ht Hall]. split; [exact Ht|]. split; [exact Hall|].
  intros pid. rewrite Ht. apply find_upsert_rows.
Qed.

Lemma successful_import_witness :
  find_product 2
    (product
       (persisted
          (snd (import_product_csv
                  [["product_id"; "product_name"];
                   ["2"; "fig"]; ["2"; "date"]]
                  true (Some 9) (world_with_prices [])))))
  = Some (mk_product 2 (VStr "date") VNone VNone).
Proof.
  destruct (successful_import_writes_every_product
              [["product_id"; "product_name"]; ["2"; "fig"]; ["2"; "date"]]
              true (Some 9) (world_with_prices []) (world_with_prices [])
              (snd (import_product_csv
                      [["product_id"; "product_name"];
                       ["2"; "fig"]; ["2"; "date"]]
                      true (Some 9) (world_with_prices [])))
              [[("product_id", VInt 2); ("product_name", VStr "fig")];
               [("product_id", VInt 2); ("product_name", VStr "date")]])
    as [_ [_ H]].
  - vm_compute. reflexivity.
  - vm_compute. reflexivity.
  - rewrite (H 2). reflexivity.
Defined.

(** X12.  The summary a successful product import prints last counts what
    the run did: the products count is the number of rows read, and the two
    price counts together are at most the number of rows that carry a cost,
    and zero when [update_prices] is off. *)
Theorem import_summary_counts_rows :
  forall (f : csv_file) (update_prices : bool)
         (price_timestamp : option datetime) (w w0 w' : world)
         (rows : list row_data),
    read_product_csv f w = (Ok rows, w0) ->
    rows <> [] ->
    import_product_csv f update_prices price_timestamp w = (Ok tt, w') ->
    exists out inserted updated,
      stdout w' = out ++ [ImportSummary (List.length rows) inserted updated] /\
      (inserted + updated
       <= (if update_prices then List.length (filter has_cost rows) else 0))%nat.
Proof.
  intros f up ts w w0 w' rows Hread Hrows Hrun.
  destruct (product_run_ok up ts f w rows w0 w' Hread Hrows Hrun)
    as [w1 [c [wl [_ [_ [Hloop [_ Hout]]]]]]].
  destruct (import_products_counts up ts rows _ _ _ _ Hloop) as [H1 [_ H3]].
  exists (stdout wl), (prices_inserted c), (prices_updated c).
  rewrite Hout. simpl in H1. rewrite H1. split; [reflexivity|].
  unfold price_events in H3. simpl in H3. exact H3.
Qed.

Lemma import_summary_witness :
  exists out inserted updated,
    stdout (snd (import_product_csv
                   [["product_id"; "product_name"; "cost_per_unit"];
                    ["2"; "fig"; "6.00"]; ["3"; "date"; ""]]
                   true (Some 9) (world_with_prices [])))
    = out ++ [ImportSummary 2 inserted updated] /\
    (inserted + updated <= 1)%nat.
Proof.
  apply (import_summary_counts_rows
           [["product_id"; "product_name"; "cost_per_unit"];
            ["2"; "fig"; "6.00"]; ["3"; "date"; ""]]
           true (Some 9) (world_with_prices []) (world_with_prices [])
           _
           [[("product_id", VInt 2); ("product_name", VStr "fig");
             ("cost_per_unit", VDec (dec 600 (-2)))];
            [("product_id", VInt 3); ("product_name", VStr "date");
             ("cost_per_unit", VNone)]]).
  - vm_compute. reflexivity.
  - discriminate.
  - vm_compute. reflexivity.
Defined.


(** ** The rows of the readers *)

Section RowKeys.

Context {V : Type}.

Lemma get_set_present (k k' : string) (v : V) (d : pydict.t V) :
  pydict.get k d <> None -> pydict.get k (pydict.set k' v d) <> None.
Proof.
  intros H. destruct (String.eqb k k') eqn:E.
  - apply String.eqb_eq in E. subst k'. rewrite get_set_same. discriminate.
  - rewrite (get_set_other k k' v d E). exact H.
Qed.

Lemma get_set_absent (k k' : string) (v : V) (d : pydict.t V) :
  k <> k' -> pydict.get k d = None -> pydict.get k (pydict.set k' v d) = None.
Proof.
  intros Hk H. rewrite get_set_other; [exact H|].
  apply String.eqb_neq. exact Hk.
Qed.

Lemma get_set_value (k k' : string) (v v' : V) (d : pydict.t V) :
  pydict.get k (pydict.set k' v' d) = Some v ->
  v = v' \/ pydict.get k d = Some v.
Proof.
  destruct (String.eqb k k') eqn:E.
  - apply String.eqb_eq in E. subst k'. rewrite get_set_same.
    intros H. injection H as <-. left. reflexivity.
  - rewrite (get_set_other k k' v' d E). auto.
Qed.

Lemma get_in_keys (k : string) (d : pydict.t V) :
  pydict.get k d <> None <-> In k (map fst d).
Proof.
  induction d as [|[k' v'] d IH]; simpl.
  - split; [intros H; contradiction H; reflexivity|intros []].
  - destruct (String.eqb k k') eqn:E.
    + apply String.eqb_eq in E. subst k'. split; [auto|discriminate].
    + rewrite IH. apply String.eqb_neq in E. split; [auto|].
      intros [H|H]; [congruence|exact H].
Qed.

Section Folds.

Context {X : Type} (g : X -> string) (h : X -> V).

Lemma fold_set_present (l : list X) :
  forall d k,
    pydict.get k d <> None \/ In k (map g l) ->
    pydict.get k (fold_left (fun d x => pydict.set (g x) (h x) d) l d)
    <> None.
Proof.
  induction l as [|x l IH]; simpl; intros d k [H|H].
  - exact H.
  - contradiction.
  - apply IH. left. apply get_set_present. exact H.
  - destruct H as [<-|H].
    + apply IH. left. rewrite get_set_same. discriminate.
    + apply IH. right. exact H.
Qed.

Lemma fold_set_absent (l : list X) :
  forall d k,
    pydict.get k d = None -> ~ In k (map g l) ->
    pydict.get k (fold_left (fun d x => pydict.set (g x) (h x) d) l d) = None.
Proof.
  induction l as [|x l IH]; simpl; intros d k Hd Hk; [exact Hd|].
  apply IH.
  - apply get_set_absent; [|exact Hd]. intros ->. apply Hk. left. reflexivity.
  - intros H. apply Hk. right. exact H.
Qed.

Lemma fold_set_values (Q : V -> Prop) (l : list X) :
  (forall x, Q (h x)) ->
  forall d,
    (forall k v, pydict.get k d = Some v -> Q v) ->
    forall k v,
      pydict.get k (fold_left (fun d x => pydict.set (g x) (h x) d) l d)
      = Some v ->
      Q v.
Proof.
  intros Hh. induction l as [|x l IH]; simpl; intros d Hd k v H.
  - exact (Hd k v H).
  - apply (IH (pydict.set (g x) (h x) d)) with (k := k); [|exact H].
    intros k0 v0 H0. apply get_set_value in H0.
    destruct H0 as [->|H0]; [apply Hh|exact (Hd k0 v0 H0)].
Qed.

End Folds.

End RowKeys.

Lemma combine_keys {A B} (h : list A) :
  forall (rec : list B) k,
    In k (firstn (List.length rec) h) -> In k (map fst (combine h rec)).
Proof.
  induction h as [|a h IH]; intros [|b rec] k; simpl; try tauto.
  intros [<-|H]; [left; reflexivity|right; apply IH; exact H].
Qed.

Lemma skipn_In {A} (n : nat) (l : list A) x : In x (skipn n l) -> In x l.
Proof.
  intros H. rewrite <- (firstn_skipn n l). apply in_or_app. right. exact H.
Qed.

Lemma DictReader_row_keys names rec k :
  rest (DictReader_row names rec) = None ->
  In k names ->
  pydict.get k (named (DictReader_row names rec)) <> None.
Proof.
  unfold DictReader_row.
  destruct (List.length names <? List.length rec)%nat; simpl;
    [discriminate|].
  intros _ Hk.
  apply (fold_set_present (fun k => k) (fun _ => None)).
  rewrite map_id.
  rewrite <- (firstn_skipn (List.length rec) names) in Hk.
  apply in_app_or in Hk. destruct Hk as [Hk|Hk]; [left|right; exact Hk].
  apply (fold_set_present fst (fun kv => Some (snd kv))).
  right. apply combine_keys. exact Hk.
Qed.

Lemma DictReader_row_absent names rec k :
  ~ In k names -> pydict.get k (named (DictReader_row names rec)) = None.
Proof.
  intros Hk.
  assert (H1 : pydict.get k
                 (fold_left (fun d kv => pydict.set (fst kv) (Some (snd kv)) d)
                            (combine names rec) []) = None).
  { apply (fold_set_absent fst (fun kv => Some (snd kv))); [reflexivity|].
    intros H. apply in_map_iff in H. destruct H as [[a b] [E Hin]].
    simpl in E. subst a. apply Hk. exact (in_combine_l _ _ _ _ Hin). }
  unfold DictReader_row.
  destruct (List.length names <? List.length rec)%nat; simpl; [exact H1|].
  apply (fold_set_absent (fun k => k) (fun _ => None)); [exact H1|].
  rewrite map_id. intros H. apply Hk. exact (skipn_In _ _ _ H).
Qed.

Lemma clean_row_rest r d : clean_row r = Ok d -> rest r = None.
Proof. unfold clean_row. destruct (rest r); [discriminate|reflexivity]. Qed.

Lemma clean_row_raises r e : clean_row r = Raise e -> e = AttributeError.
Proof.
  unfold clean_row. destruct (rest r); [|discriminate].
  intros H. injection H as <-. reflexivity.
Qed.

Lemma clean_row_keys r d k :
  clean_row r = Ok d ->
  pydict.get k (named r) <> None ->
  pydict.get (text.strip k) d <> None.
Proof.
  unfold clean_row. destruct (rest r); [discriminate|].
  intros E H. injection E as <-.
  apply (fold_set_present
           (fun kv : string * option string => text.strip (fst kv))
           (fun kv => match option_map text.strip (snd kv) with
                      | Some s => if String.eqb s "" then None else Some s
                      | None => None
                      end)).
  right. apply get_in_keys in H. apply in_map_iff in H.
  destruct H as [kv [Hk Hin]]. apply in_map_iff. exists kv.
  split; [rewrite Hk; reflexivity|exact Hin].
Qed.

Lemma clean_row_values r d k :
  clean_row r = Ok d -> pydict.get k d <> Some (Some ""%string).
Proof.
  unfold clean_row. destruct (rest r); [discriminate|].
  intros E. injection E as <-. intros H.
  assert (Hh : forall kv : string * option string,
             match option_map text.strip (snd kv) with
             | Some s => if String.eqb s "" then None else Some s
             | None => None
             end <> Some ""%string).
  { intros [k0 [s|]]; simpl; [|discriminate].
    destruct (String.eqb (text.strip s) "") eqn:E; [discriminate|].
    intros H0. injection H0 as H0. rewrite H0 in E. discriminate. }
  refine (fold_set_values
            (fun kv : string * option string => text.strip (fst kv))
            _ (fun v => v <> Some ""%string) (named r) Hh [] _ k _ H eq_refl).
  intros k0 v H0. discriminate.
Qed.

Lemma check_header_ok required fieldnames :
  check_header required fieldnames = Ok tt ->
  exists names,
    fieldnames = Some names /\ names <> [] /\
    forall c, In c required -> In c (map text.strip names).
Proof.
  unfold check_header. destruct fieldnames as [[|n names]|]; try discriminate.
  fold (missing_cols required (n :: names)).
  destruct (missing_cols required (n :: names)) as [|m ms] eqn:E;
    [|discriminate].
  intros _. exists (n :: names). split; [reflexivity|].
  split; [discriminate|]. intros c Hc.
  destruct (text.mem c (map text.strip (n :: names))) eqn:Em.
  - apply mem_In. exact Em.
  - assert (Hin : In c (missing_cols required (n :: names))).
    { apply missing_cols_In. split; [exact Hc|].
      intros H. apply mem_In in H. congruence. }
    rewrite E in Hin. contradiction.
Qed.

Lemma check_header_raises required fieldnames e :
  check_header required fieldnames = Raise e -> exists msg, e = ValueError msg.
Proof.
  unfold check_header. destruct fieldnames as [[|n names]|].
  - intros H. injection H as <-. eexists. reflexivity.
  - destruct (filter _ required); [discriminate|].
    intros H. injection H as <-. eexists. reflexivity.
  - intros H. injection H as <-. eexists. reflexivity.
Qed.

Section ProductRows.

Variable names : list string.
Hypothesis has_id : In "product_id"%string (map text.strip names).
Hypothesis has_name : In "product_name"%string (map text.strip names).

Lemma cleaned_has_columns rec d :
  clean_row (DictReader_row names rec) = Ok d ->
  pydict.get "product_id" d <> None /\ pydict.get "product_name" d <> None.
Proof.
  intros Hc. pose proof (clean_row_rest _ _ Hc) as Hr.
  apply in_map_iff in has_id. destruct has_id as [k1 [E1 H1]].
  apply in_map_iff in has_name. destruct has_name as [k2 [E2 H2]].
  rewrite <- E1, <- E2. split.
  - apply (clean_row_keys _ _ _ Hc). apply DictReader_row_keys; assumption.
  - apply (clean_row_keys _ _ _ Hc). apply DictReader_row_keys; assumption.
Qed.

(** One turn of the loop: the row is well typed, or a warning is printed,
    or the record is longer than the header. *)
Lemma read_product_row_typed rec w :
  match read_product_row (DictReader_row names rec) w with
  | (Ok (Some d), w') => well_typed d /\ w' = w
  | (Ok None, w') => exists v, w' = printed (WarnInvalidProductId v) w
  | (Raise e, w') =>
      e = AttributeError /\ w' = w /\
      rest (DictReader_row names rec) <> None
  end.
Proof.
  unfold read_product_row, bind, lift.
  destruct (clean_row (DictReader_row names rec)) as [d|e] eqn:Hc.
  - destruct (cleaned_has_columns rec d Hc) as [Hid Hname].
    destruct (pydict.get "product_id" d) as [v|] eqn:Ev;
      [|contradiction Hid; reflexivity].
    destruct (match v with
              | Some s => text.int_of_str s
              | None => None
              end) as [z|].
    + assert (Hwt : forall c,
                 match c with
                 | Some (VStr _) | Some (VInt _) => False
                 | _ => True
                 end ->
                 forall row,
                   pydict.get "cost_per_unit" row = c ->
                   pydict.get "product_id" row = Some (VInt z) ->
                   pydict.get "product_name" row
                   = option_map to_pyval (pydict.get "product_name" d) ->
                   well_typed row).
      { intros c Hcost row H1 H2 H3. split; [exists z; exact H2|].
        split; [|rewrite H1; exact Hcost].
        rewrite H3. destruct (pydict.get "product_name" d);
          [discriminate|contradiction Hname; reflexivity]. }
      assert (H1 : pydict.get "product_id" (validated z d) = Some (VInt z))
        by apply get_set_same.
      assert (H2 : pydict.get "product_name" (validated z d)
                   = option_map to_pyval (pydict.get "product_name" d)).
      { unfold validated.
        rewrite (get_set_other "product_name" "product_id" _ _ eq_refl).
        apply get_map_values. }
      assert (H3 : pydict.get "cost_per_unit" (validated z d)
                   = option_map to_pyval (pydict.get "cost_per_unit" d)).
      { unfold validated.
        rewrite (get_set_other "cost_per_unit" "product_id" _ _ eq_refl).
        apply get_map_values. }
      fold (validated z d).
      destruct (pydict.get "cost_per_unit" d) as [[s|]|] eqn:Ecost.
      * destruct (String.eqb s "") eqn:Es.
        -- apply String.eqb_eq in Es. subst s.
           contradiction (clean_row_values _ _ "cost_per_unit" Hc Ecost).
        -- cbn [negb]. rewrite parse_decimal_eq. unfold ret.
           split; [|reflexivity].
           eapply Hwt; [|apply get_set_same| |]; [exact I| |].
           ++ rewrite (get_set_other "product_id" "cost_per_unit" _ _ eq_refl).
              exact H1.
           ++ rewrite (get_set_other "product_name" "cost_per_unit" _ _
                         eq_refl).
              exact H2.
      * simpl. split; [|reflexivity].
        apply (Hwt (Some VNone) I); assumption.
      * simpl. split; [|reflexivity].
        apply (Hwt None I); assumption.
    + simpl. eexists. reflexivity.
  - split; [exact (clean_row_raises _ _ Hc)|]. split; [reflexivity|].
    unfold clean_row in Hc. destruct (rest (DictReader_row names rec));
      discriminate.
Qed.

Lemma read_product_rows_typed recs :
  forall rows w,
    Forall well_typed rows ->
    match read_product_rows (map (DictReader_row names) recs) rows w with
    | (Ok l, w') =>
        Forall well_typed l /\
        exists warns,
          stdout w' = stdout w ++ warns /\ Forall is_warning warns /\
          (List.length l + List.length warns
           = List.length rows + List.length recs)%nat
    | (Raise e, w') =>
        e = AttributeError /\
        exists rec, In rec recs /\
                    (List.length names < List.length rec)%nat
    end.
Proof.
  induction recs as [|rec recs IH]; simpl; intros rows w Hrows.
  - split; [exact Hrows|]. exists []. rewrite app_nil_r.
    split; [reflexivity|]. split; [constructor|]. simpl. lia.
  - unfold bind.
    pose proof (read_product_row_typed rec w) as Hrow.
    destruct (read_product_row (DictReader_row names rec) w)
      as [[[d|]|e] w1].
    + destruct Hrow as [Hd ->].
      assert (Hrows' : Forall well_typed (rows ++ [d])).
      { apply Forall_app. split; [exact Hrows|]. constructor; [exact Hd|].
        constructor. }
      specialize (IH (rows ++ [d]) w Hrows').
      destruct (read_product_rows (map (DictReader_row names) recs)
                  (rows ++ [d]) w) as [[l|e] w'].
      * destruct IH as [Hl [warns [H1 [H2 H3]]]]. split; [exact Hl|].
        exists warns. split; [exact H1|]. split; [exact H2|].
        rewrite length_app in H3. simpl in H3. lia.
      * destruct IH as [He [r [Hin Hlen]]]. split; [exact He|].
        exists r. split; [right; exact Hin|exact Hlen].
    + destruct Hrow as [v ->].
      specialize (IH rows (printed (WarnInvalidProductId v) w) Hrows).
      destruct (read_product_rows (map (DictReader_row names) recs) rows
                  (printed (WarnInvalidProductId v) w)) as [[l|e] w'].
      * destruct IH as [Hl [warns [H1 [H2 H3]]]]. split; [exact Hl|].
        exists (WarnInvalidProductId v :: warns). split.
        -- rewrite H1. simpl. rewrite <- app_assoc. reflexivity.
        -- split; [constructor; [exists v; reflexivity|exact H2]|].
           simpl. lia.
      * destruct IH as [He [r [Hin Hlen]]]. split; [exact He|].
        exists r. split; [right; exact Hin|exact Hlen].
    + destruct Hrow as [-> [_ Hrest]]. split; [reflexivity|].
      exists rec. split; [left; reflexivity|].
      unfold DictReader_row in Hrest.
      destruct (List.length names <? List.length rec)%nat eqn:E;
        [apply Nat.ltb_lt; exact E|contradiction Hrest; reflexivity].
Qed.

End ProductRows.


Lemma read_product_csv_typed (f : csv_file) (w : world) :
  match read_product_csv f w with
  | (Ok rows, w') =>
      Forall well_typed rows /\
      exists warns,
        stdout w' = stdout w ++ warns /\ Forall is_warning warns /\
        (List.length rows + List.length warns
         = List.length (records f))%nat
  | (Raise e, w') => reader_error e
  end.
Proof.
  unfold read_product_csv, bind, lift.
  destruct (check_header required_cols (DictReader_fieldnames f))
    as [[]|e] eqn:Hh.
  - destruct (check_header_ok _ _ Hh) as [names [Hf [_ Hreq]]].
    destruct f as [|h recs]; [discriminate|].
    simpl in Hf. injection Hf as ->.
    assert (Hid : In "product_id"%string (map text.strip names))
      by (apply Hreq; left; reflexivity).
    assert (Hname : In "product_name"%string (map text.strip names))
      by (apply Hreq; right; left; reflexivity).
    pose proof (read_product_rows_typed names Hid Hname
                  (records (names :: recs)) [] w (Forall_nil _)) as H.
    unfold DictReader_rows. unfold records in H. simpl tl in H.
    destruct (read_product_rows
                (map (DictReader_row names)
                     (filter (fun r => negb (is_blank_record r)) recs))
                [] w) as [[rows|e] w'].
    + exact H.
    + right. exact (proj1 H).
  - left. exact (check_header_raises _ _ _ Hh).
Qed.

(** X13.  Whatever the file, [read_product_csv] either raises a ValueError
    (the header) or an AttributeError (a record longer than the header), or
    returns rows that are all well typed - an [int] under product_id, an
    entry under product_name, and under cost_per_unit nothing, [None] or a
    Decimal; it then has printed nothing but warnings, one for each record
    it did not return. *)
Theorem read_product_csv_rows_are_typed :
  forall (f : csv_file) (w : world),
    match read_product_csv f w with
    | (Ok rows, w') =>
        Forall well_typed rows /\
        exists warns,
          stdout w' = stdout w ++ warns /\ Forall is_warning warns /\
          (List.length rows + List.length warns
           = List.length (records f))%nat
    | (Raise e, w') => reader_error e
    end.
Proof. exact read_product_csv_typed. Qed.

Section LongRecord.

Variables (names : list string) (long : list string).
Hypothesis too_long : (List.length names < List.length long)%nat.

Lemma long_record_rest :
  rest (DictReader_row names long)
  = Some (skipn (List.length names) long).
Proof.
  unfold DictReader_row. apply Nat.ltb_lt in too_long. rewrite too_long.
  reflexivity.
Qed.

Lemma long_record_is_read recs :
  In long recs -> In long (filter (fun r => negb (is_blank_record r)) recs).
Proof.
  intros H. apply filter_In. split; [exact H|].
  destruct long; [simpl in too_long; lia|reflexivity].
Qed.

Lemma read_product_row_long w :
  read_product_row (DictReader_row names long) w = (Raise AttributeError, w).
Proof.
  unfold read_product_row, bind, lift, clean_row.
  rewrite long_record_rest. reflexivity.
Qed.

Hypothesis has_id : In "product_id"%string (map text.strip names).
Hypothesis has_name : In "product_name"%string (map text.strip names).

Lemma read_product_rows_long recs :
  In long recs ->
  forall rows w,
    fst (read_product_rows (map (DictReader_row names) recs) rows w)
    = Raise AttributeError.
Proof.
  induction recs as [|rec recs IH]; simpl; [intros []|].
  intros Hin rows w. unfold bind.
  pose proof (read_product_row_typed names has_id has_name rec w) as Hrow.
  destruct (read_product_row (DictReader_row names rec) w)
    as [[o|e] w1] eqn:E.
  - destruct Hin as [Heq|Hin].
    + rewrite Heq, read_product_row_long in E. discriminate.
    + apply IH. exact Hin.
  - destruct Hrow as [-> _]. reflexivity.
Qed.

End LongRecord.

(** X14.  A record with more fields than the header makes the product
    import fail with an AttributeError while it reads the file, before it
    connects: the store and the connection are as they were.  The bill
    reader accepts such a record and keeps its surplus fields. *)
Theorem long_record_aborts_product_import :
  forall (names : list string) (recs : list (list string))
         (long : list string),
    In long recs ->
    (List.length names < List.length long)%nat ->
    (check_header import_product_list.required_cols (Some names) = Ok tt ->
     forall up ts w,
       exists w',
         import_product_csv (names :: recs) up ts w
         = (Raise AttributeError, w') /\
         same_store w w') /\
    (check_header import_bill.required_cols (Some names) = Ok tt ->
     exists rows r,
       import_bill.read_bill_csv (names :: recs) = Ok rows /\
       In r rows /\
       rest r = Some (skipn (List.length names) long)).
Proof.
  intros names recs long Hin Hlong. split.
  - intros Hh up ts w.
    destruct (check_header_ok _ _ Hh) as [names' [E [_ Hreq]]].
    injection E as <-.
    assert (Hid : In "product_id"%string (map text.strip names))
      by (apply Hreq; left; reflexivity).
    assert (Hname : In "product_name"%string (map text.strip names))
      by (apply Hreq; right; left; reflexivity).
    pose proof (read_product_csv_same_store (names :: recs) w) as Hs.
    assert (Hr : fst (read_product_csv (names :: recs) w)
                 = Raise AttributeError).
    { unfold read_product_csv, bind. simpl DictReader_fieldnames.
      rewrite Hh. unfold lift. unfold DictReader_rows.
      apply (read_product_rows_long names long Hlong Hid Hname).
      apply (long_record_is_read names long Hlong). exact Hin. }
    unfold import_product_csv, bind.
    destruct (read_product_csv (names :: recs) w) as [[rows|e] w'].
    + discriminate.
    + simpl in Hr. injection Hr as ->. exists w'.
      split; [reflexivity|exact Hs].
  - intros Hh. unfold import_bill.read_bill_csv.
    simpl DictReader_fieldnames. rewrite Hh. simpl obind.
    eexists. eexists. split; [reflexivity|]. split.
    + apply in_map. unfold DictReader_rows. apply in_map.
      apply (long_record_is_read names long Hlong). exact Hin.
    + simpl. apply long_record_rest. exact Hlong.
Qed.

Lemma long_record_witness :
  exists w',
    import_product_csv
      [["product_id"; "product_name"]; ["1"; "fig"; "ripe"]]
      true (Some 9) (world_with_prices [])
    = (Raise AttributeError, w') /\
    same_store (world_with_prices []) w'.
Proof.
  assert (Hin : In ["1"; "fig"; "ripe"]%string [["1"; "fig"; "ripe"]%string])
    by (left; reflexivity).
  assert (Hlen : (List.length ["product_id"; "product_name"]%string
                  < List.length ["1"; "fig"; "ripe"]%string)%nat)
    by (simpl; lia).
  exact (proj1 (long_record_aborts_product_import
                  ["product_id"; "product_name"]%string
                  [["1"; "fig"; "ripe"]%string] ["1"; "fig"; "ripe"]%string
                  Hin Hlen)
               eq_refl true (Some 9) (world_with_prices [])).
Defined.

(** ** The errors of a product import *)

Section Raises.

Variable S : exn -> Prop.

Lemma raises_bind {A B} (m : M A) (k : A -> M B) :
  raises_only S m -> (forall a, raises_only S (k a)) ->
  raises_only S (bind m k).
Proof.
  intros Hm Hk w e w' E. unfold bind in E.
  destruct (m w) as [[a|e0] w1] eqn:Em.
  - exact (Hk a w1 e w' E).
  - injection E as <- <-. exact (Hm w e0 w1 Em).
Qed.

Lemma raises_ret {A} (a : A) : raises_only S (ret a).
Proof. intros w e w' E. discriminate. Qed.

Lemma raises_print l : raises_only S (print l).
Proof. intros w e w' E. discriminate. Qed.

Lemma raises_now : raises_only S now.
Proof. intros w e w' E. discriminate. Qed.

Lemma raises_rollback : raises_only S rollback.
Proof. intros w e w' E. discriminate. Qed.

Lemma raises_raise {A} e : S e -> raises_only S (@raise A e).
Proof. intros H w e' w' E. injection E as <- _. exact H. Qed.

Lemma raises_lift {A} (o : outcome A) :
  (forall e, o = Raise e -> S e) -> raises_only S (lift o).
Proof. intros H w e w' E. injection E as E _. exact (H e E). Qed.

Hypothesis store : S StoreError.

Lemma raises_tick : raises_only S tick.
Proof.
  intros w e w' E. unfold tick in E.
  destruct (faults w) as [[|n]|]; try discriminate.
  injection E as <- _. exact store.
Qed.

Lemma raises_begin : raises_only S begin.
Proof.
  intros w e w' E. unfold begin in E. destruct (in_txn w); discriminate.
Qed.

Lemma raises_execute f : raises_only S (execute f).
Proof.
  unfold execute. apply raises_bind; [apply raises_tick|intros _].
  apply raises_bind; [apply raises_begin|intros _].
  intros w e w' E. discriminate.
Qed.

Lemma raises_fetch {A} (q : db -> A) : raises_only S (fetch q).
Proof.
  unfold fetch. apply raises_bind; [apply raises_tick|intros _].
  apply raises_bind; [apply raises_begin|intros _].
  intros w e w' E. discriminate.
Qed.

Lemma raises_commit : raises_only S commit.
Proof.
  intros w e w' E. unfold commit in E. destruct (in_txn w); [|discriminate].
  revert E. apply raises_bind; [apply raises_tick|intros _].
  intros w0 e0 w0' E. discriminate.
Qed.

Lemma raises_get_connection : raises_only S get_connection.
Proof.
  unfold get_connection, connect.
  apply raises_bind; [|intros _; apply raises_bind;
                                 [apply raises_execute
                                 |intros _; apply raises_commit]].
  apply raises_bind; [apply raises_tick|intros _].
  intros w e w' E. discriminate.
Qed.

Lemma raises_with_conn {A} (body : M A) :
  raises_only S body -> raises_only S (with_conn body).
Proof.
  intros Hb w e w' E. unfold with_conn in E.
  destruct (body w) as [[a|e0] w1] eqn:Eb.
  - revert E. apply raises_bind; [apply raises_commit|intros _].
    apply raises_ret.
  - injection E as <- _. exact (Hb w e0 w1 Eb).
Qed.

Lemma raises_try_except {A} (body : M A) (handler : exn -> M A) :
  raises_only S body ->
  (forall e, S e -> raises_only S (handler e)) ->
  raises_only S (try_except body handler).
Proof.
  intros Hb Hh w e w' E. unfold try_except in E.
  destruct (body w) as [[a|e0] w1] eqn:Eb; [discriminate|].
  exact (Hh e0 (Hb w e0 w1 Eb) w1 e w' E).
Qed.

Lemma raises_try_finally {A} (body : M A) (fin : M unit) :
  raises_only S body -> raises_only S fin ->
  raises_only S (try_finally body fin).
Proof.
  intros Hb Hf w e w' E. unfold try_finally in E.
  destruct (body w) as [r w1] eqn:Eb.
  destruct (fin w1) as [[u|e1] w2] eqn:Ef.
  - injection E as -> _. exact (Hb w e w1 Eb).
  - injection E as <- _. exact (Hf w1 e1 w2 Ef).
Qed.

Lemma raises_close : raises_only S close.
Proof. intros w e w' E. discriminate. Qed.

End Raises.

Lemma ne_raises a b e : decimal.ne a b = Raise e -> e = InvalidOperation.
Proof.
  unfold decimal.ne.
  destruct (is_snan a || is_snan b);
    [intros H; injection H as <-; reflexivity|].
  destruct (is_nan a || is_nan b); discriminate.
Qed.

Ltac raises_steps S Hs :=
  repeat match goal with
    | |- raises_only _ (bind _ _) => apply (raises_bind S); [|intro]
    | |- raises_only _ (ret _) => apply (raises_ret S)
    | |- raises_only _ (print _) => apply (raises_print S)
    | |- raises_only _ now => apply (raises_now S)
    | |- raises_only _ (execute _) => apply (raises_execute S Hs)
    | |- raises_only _ (fetch _) => apply (raises_fetch S Hs)
    | |- raises_only _ (lift (decimal.ne _ _)) =>
        apply (raises_lift S); intros ? ?
    | |- raises_only _ (match ?x with _ => _ end) => destruct x
    end.

Lemma store_is_store_error : store_error StoreError.
Proof. left. reflexivity. Qed.

Lemma import_product_raises up ts row c :
  well_typed row -> raises_only store_error (import_product up ts row c).
Proof.
  intros [[pid Hp] [Hn Hc]].
  unfold import_product, upsert_product, item.
  rewrite Hp. simpl obind.
  destruct (pydict.get "product_name" row) as [name|];
    [|contradiction Hn; reflexivity].
  destruct (pydict.get "cost_per_unit" row) as [[| | |new_price]|];
    try contradiction;
    unfold reconcile_price, get_latest_product_price, insert_product_price;
    raises_steps store_error store_is_store_error;
    try (apply (raises_lift store_error); intros ? ?; discriminate);
    try (right; eapply ne_raises; eassumption).
Qed.

Lemma import_products_raises up ts rows :
  Forall well_typed rows ->
  forall c, raises_only store_error (import_products up ts rows c).
Proof.
  induction 1 as [|row rows Hrow Hrows IH]; intros c; simpl.
  - apply raises_ret.
  - apply raises_bind; [apply import_product_raises; exact Hrow|exact IH].
Qed.

(** X15.  A product import ends with no other error than a ValueError (the
    header), an AttributeError (a record longer than the header), the error
    of the store, or the InvalidOperation of a comparison with a signaling
    NaN: the rows it reads never make it fail with a KeyError or a
    TypeError. *)
Theorem product_import_errors :
  forall (f : csv_file) (update_prices : bool)
         (price_timestamp : option datetime) (w w' : world) (e : exn),
    import_product_csv f update_prices price_timestamp w = (Raise e, w') ->
    import_error e.
Proof.
  intros f up ts w w' e. unfold import_product_csv. unfold bind at 1.
  pose proof (read_product_csv_typed f w) as Hread.
  destruct (read_product_csv f w) as [[rows|e0] w0].
  - destruct Hread as [Hrows _].
    destruct rows as [|p ps]; [discriminate|].
    intros E. right. revert E.
    apply (raises_bind store_error);
      [apply (raises_get_connection _ store_is_store_error)|intros _].
    apply raises_try_finally; [|apply raises_close].
    apply raises_try_except.
    + apply (raises_with_conn _ store_is_store_error).
      apply raises_bind; [apply import_products_raises; exact Hrows|].
      intros c. apply raises_bind;
        [apply (raises_commit _ store_is_store_error)|intros _].
      apply raises_print.
    + intros e1 He1. apply raises_bind; [apply raises_rollback|intros _].
      apply raises_bind; [apply raises_print|intros _].
      apply raises_raise. exact He1.
  - intros E. injection E as <- _. left. exact Hread.
Qed.

Lemma product_import_errors_witness :
  import_error StoreError.
Proof.
  apply (product_import_errors
           [["product_id"; "product_name"]; ["2"; "fig"]]
           true (Some 9)
           (mk_world empty_db empty_db false NoConnection (Some 4%nat) 1 0 [])
           (mk_world empty_db empty_db false ConnClosed None 1 0
                     [ErrorDuringImport StoreError])).
  vm_compute. reflexivity.
Defined.


(** ** The rows of the bill reader *)

Lemma read_bill_csv_rows f names rows :
  DictReader_fieldnames f = Some names ->
  import_bill.read_bill_csv f = Ok rows ->
  forall r, In r rows ->
            exists rec,
              In rec (records f) /\
              rest r = rest (DictReader_row names rec) /\
              forall k, import_bill.row_get k r
                        = match pydict.get k (named (DictReader_row names rec))
                          with
                          | Some v => option_map text.strip v
                          | None => None
                          end.
Proof.
  intros Hf. unfold import_bill.read_bill_csv. rewrite Hf.
  destruct (check_header import_bill.required_cols (Some names));
    [|discriminate].
  simpl. intros E. injection E as <-. intros r Hr.
  destruct f as [|h recs]; [discriminate|]. simpl in Hf. injection Hf as ->.
  apply in_map_iff in Hr. destruct Hr as [r0 [<- Hr0]].
  unfold DictReader_rows in Hr0. apply in_map_iff in Hr0.
  destruct Hr0 as [rec [<- Hrec]].
  exists rec. split; [exact Hrec|]. split; [reflexivity|].
  intros k. unfold import_bill.row_get. simpl.
  rewrite (get_map_values (option_map text.strip)).
  destruct (pydict.get k (named (DictReader_row names rec))); reflexivity.
Qed.

(** X16.  The bill reader checks the header with its names stripped but
    files the cells under the names as they are written: a column whose
    name is not literally in the header - one written with surrounding
    blanks, say, which passes the check - is found in no row, and its
    numbers are read as zero. *)
Theorem unstripped_bill_column_reads_as_zero :
  forall (f : csv_file) (names : list string) (rows : list csv_row)
         (k : string),
    DictReader_fieldnames f = Some names ->
    ~ In k names ->
    import_bill.read_bill_csv f = Ok rows ->
    Forall (fun r => import_bill.row_get k r = None /\
                     parse_decimal (import_bill.row_get k r) decimal.zero
                     = Ok decimal.zero)
           rows.
Proof.
  intros f names rows k Hf Hk Hread. apply Forall_forall. intros r Hr.
  destruct (read_bill_csv_rows f names rows Hf Hread r Hr)
    as [rec [_ [_ Hget]]].
  assert (H : import_bill.row_get k r = None).
  { rewrite Hget, (DictReader_row_absent names rec k Hk). reflexivity. }
  rewrite H. split; reflexivity.
Qed.

Lemma unstripped_bill_column_witness :
  exists rows,
    import_bill.read_bill_csv
      [["product_name"; " quantity"; "product_price"; "tax_amount"; "total"];
       ["flour"; "2"; "10.00"; "1.00"; "20.00"]]
    = Ok rows /\
    Forall (fun r => import_bill.row_get "quantity" r = None /\
                     parse_decimal (import_bill.row_get "quantity" r)
                                   decimal.zero
                     = Ok decimal.zero)
           rows.
Proof.
  eexists. split; [vm_compute; reflexivity|].
  apply (unstripped_bill_column_reads_as_zero
           [["product_name"; " quantity"; "product_price"; "tax_amount";
             "total"];
            ["flour"; "2"; "10.00"; "1.00"; "20.00"]]
           ["product_name"; " quantity"; "product_price"; "tax_amount";
            "total"]%string).
  - reflexivity.
  - simpl. intros H. repeat (destruct H as [H|H]; [discriminate|]).
    exact H.
  - vm_compute. reflexivity.
Defined.

(** ** The errors of a bill import *)

Lemma fix_raises s c x e : decimal.fix_ s c x = Raise e -> e = Overflow.
Proof.
  unfold decimal.fix_.
  destruct (c =? 0)%N; [discriminate|].
  destruct (decimal.ndigits c + x - decimal.prec >? decimal.Etop);
    [intros H; injection H as <-; reflexivity|].
  match goal with
  | |- context [if ?b then _ else Ok (Finite s c x)] => destruct b
  end; [|discriminate].
  match goal with
  | |- context [let '(_, _) := if ?b then _ else _ in _] => destruct b
  end.
  - match goal with
    | |- context [if ?b then Raise Overflow else _] => destruct b
    end; [intros H; injection H as <-; reflexivity|discriminate].
  - match goal with
    | |- context [if ?b then Raise Overflow else _] => destruct b
    end; [intros H; injection H as <-; reflexivity|discriminate].
Qed.

Lemma check_nans_raises a b e :
  decimal.check_nans a b = Raise e -> e = InvalidOperation.
Proof.
  unfold decimal.check_nans.
  destruct (is_snan a || is_snan b);
    [intros H; injection H as <-; reflexivity|].
  destruct a, b; discriminate.
Qed.

Lemma add_raises a b e : decimal.add a b = Raise e -> arithmetic_error e.
Proof.
  unfold decimal.add, obind.
  destruct (decimal.check_nans a b) as [[r|]|e0] eqn:En.
  - discriminate.
  - destruct a as [s1 c1 e1|s1|], b as [s2 c2 e2|s2|]; try discriminate.
    + destruct ((c1 =? 0) && (c2 =? 0))%N;
        [intros H; right; exact (fix_raises _ _ _ _ H)|].
      match goal with
      | |- context [if ?z =? 0 then _ else _] => destruct (z =? 0)
      end; intros H; right; exact (fix_raises _ _ _ _ H).
    + destruct (Bool.eqb s1 s2); [discriminate|].
      intros H. injection H as <-. left. reflexivity.
  - intros H. injection H as <-. left. exact (check_nans_raises _ _ _ En).
Qed.

Lemma mul_raises a b e : decimal.mul a b = Raise e -> arithmetic_error e.
Proof.
  unfold decimal.mul, obind.
  destruct (decimal.check_nans a b) as [[r|]|e0] eqn:En.
  - discriminate.
  - destruct a as [s1 c1 e1|s1|], b as [s2 c2 e2|s2|]; try discriminate.
    + intros H. right. exact (fix_raises _ _ _ _ H).
    + simpl. destruct (c1 =? 0)%N; [|discriminate].
      intros H. injection H as <-. left. reflexivity.
    + simpl. destruct (c2 =? 0)%N; [|discriminate].
      intros H. injection H as <-. left. reflexivity.
  - intros H. injection H as <-. left. exact (check_nans_raises _ _ _ En).
Qed.

Lemma parse_decimal_returns v d e : parse_decimal v d <> Raise e.
Proof.
  destruct v as [s|]; [rewrite parse_decimal_eq|]; discriminate.
Qed.

Lemma prepare_item_raises acc r e :
  import_bill.prepare_item acc r = Raise e -> arithmetic_error e.
Proof.
  unfold import_bill.prepare_item, obind.
  repeat match goal with
         | |- context [match parse_decimal ?v ?d with _ => _ end] =>
             let E := fresh "E" in
             destruct (parse_decimal v d) eqn:E;
             [|contradiction (parse_decimal_returns _ _ _ E)]
         end.
  match goal with
  | |- context [decimal.mul ?a ?b] =>
      destruct (decimal.mul a b) eqn:Em;
      [|intros H; injection H as <-; exact (mul_raises _ _ _ Em)]
  end.
  repeat match goal with
         | |- context [match decimal.add ?a ?b with _ => _ end] =>
             let E := fresh "E" in
             destruct (decimal.add a b) eqn:E;
             [|intros H; injection H as <-; exact (add_raises _ _ _ E)]
         end.
  discriminate.
Qed.

Lemma prepare_items_raises items :
  forall acc e,
    import_bill.prepare_items acc items = Raise e -> arithmetic_error e.
Proof.
  induction items as [|r items IH]; simpl; intros acc e; [discriminate|].
  unfold obind.
  destruct (import_bill.prepare_item acc r) as [acc'|e0] eqn:E.
  - apply IH.
  - intros H. injection H as <-. exact (prepare_item_raises _ _ _ E).
Qed.

Lemma store_is_bill_error : bill_error StoreError.
Proof. right. right. reflexivity. Qed.

Lemma insert_bill_raises mk :
  raises_only bill_error (import_bill.insert_bill mk).
Proof.
  unfold import_bill.insert_bill.
  apply raises_bind; [apply (raises_tick _ store_is_bill_error)|intros _].
  apply raises_bind; [apply (raises_begin bill_error)|intros _].
  intros w e w' E. discriminate.
Qed.

Lemma insert_bill_items_raises bill_id its :
  raises_only bill_error (import_bill.insert_bill_items bill_id its).
Proof.
  induction its as [|it its IH]; simpl.
  - apply raises_ret.
  - apply raises_bind; [|intros _; exact IH].
    apply (raises_execute _ store_is_bill_error).
Qed.

(** X17.  A bill import ends with no other error than a ValueError (the
    header), an InvalidOperation or an Overflow of the Decimal arithmetic
    on the cells, or the error of the store: no cell, however malformed,
    makes it fail otherwise, and a record of any length is accepted. *)
Theorem bill_import_errors :
  forall (f : csv_file) (csv_path : string) (vendor_name notes : option string)
         (shipping_amount : Decimal) (currency : string)
         (bill_number : option string) (bill_date : option date)
         (source : option string) (w w' : world) (e : exn),
    import_bill.import_bill f csv_path vendor_name notes shipping_amount
                            currency bill_number bill_date source w
    = (Raise e, w') ->
    bill_error e.
Proof.
  intros f csv_path vendor_name notes shipping_amount currency bill_number
         bill_date source w w' e.
  unfold import_bill.import_bill.
  generalize w e w'. clear w e w'. fold (raises_only bill_error
    (items <- lift (import_bill.read_bill_csv f) ;;
     t <- lift (import_bill.prepare_items
                  (import_bill.mk_totals decimal.zero decimal.zero []) items) ;;
     total_amount <- lift (s <- decimal.add (import_bill.subtotal t)
                                            (import_bill.tax_sum t) ;;
                           decimal.add s shipping_amount)%out ;;
     get_connection ;;
     try_finally
       (with_conn
          (bill_id <- import_bill.insert_bill (fun bill_id =>
                        mk_bill bill_id bill_number vendor_name
                                (match source with
                                 | Some s =>
                                     if String.eqb s "" then csv_path else s
                                 | None => csv_path
                                 end)
                                bill_date currency (import_bill.subtotal t)
                                (import_bill.tax_sum t)
                                shipping_amount total_amount notes) ;;
           import_bill.insert_bill_items bill_id (import_bill.prepared_items t)) ;;
        print (ImportedBill (List.length (import_bill.prepared_items t))
                            (import_bill.subtotal t)
                            (import_bill.tax_sum t) shipping_amount
                            total_amount))
       close)).
  apply raises_bind.
  { apply raises_lift. intros e H. left.
    unfold import_bill.read_bill_csv, obind in H.
    destruct (check_header import_bill.required_cols
                (DictReader_fieldnames f)) eqn:Hh; [discriminate|].
    injection H as <-. exact (check_header_raises _ _ _ Hh). }
  intros items. apply raises_bind.
  { apply raises_lift. intros e H. right. left.
    exact (prepare_items_raises _ _ _ H). }
  intros t. apply raises_bind.
  { apply raises_lift. intros e H. right. left. unfold obind in H.
    destruct (decimal.add (import_bill.subtotal t) (import_bill.tax_sum t))
      eqn:E.
    - exact (add_raises _ _ _ H).
    - injection H as <-. exact (add_raises _ _ _ E). }
  intros total.
  apply raises_bind;
    [apply (raises_get_connection _ store_is_bill_error)|intros _].
  apply raises_try_finally; [|apply raises_close].
  apply raises_bind; [|intros _; apply raises_print].
  apply (raises_with_conn _ store_is_bill_error).
  apply raises_bind; [apply insert_bill_raises|intros b].
  apply insert_bill_items_raises.
Qed.

Lemma bill_import_errors_witness : bill_error StoreError.
Proof.
  apply (bill_import_errors three_lines "bill.csv" None None (dec 300 (-2))
           "USD" None None None (failing_world 6)
           (mk_world empty_db empty_db false ConnClosed None 2 0 [])).
  vm_compute. reflexivity.
Defined.


(** ** The number [parse_decimal] reads *)

Section Numerals.

Lemma digit_is_plain c :
  text.isdigit c = true ->
  text.isspace c = false /\ Ascii.eqb c "_" = false /\
  Ascii.eqb c "+" = false /\ Ascii.eqb c "-" = false.
Proof.
  destruct c as [[] [] [] [] [] [] [] []]; vm_compute; intros H;
    solve [discriminate H | auto].
Qed.

Lemma append_empty (s : string) : (s ++ "")%string = s.
Proof.
  induction s as [|c s IH]; simpl; [reflexivity|]. rewrite IH. reflexivity.
Qed.

Lemma all_digits_chars p (s : string) :
  (forall c, text.isdigit c = true -> p c = true) ->
  text.all_digits s = true -> text.all_chars p s = true.
Proof.
  intros Hp. induction s as [|c s IH]; simpl; [reflexivity|].
  intros H. apply andb_prop in H. destruct H as [H1 H2].
  rewrite (Hp c H1), (IH H2). reflexivity.
Qed.

Lemma rstrip_plain (s : string) :
  text.all_chars (fun c => negb (text.isspace c)) s = true ->
  text.rstrip s = s.
Proof.
  induction s as [|c s IH]; simpl; [reflexivity|].
  intros H. apply andb_prop in H. destruct H as [H1 H2].
  rewrite (IH H2). apply negb_true_iff in H1. rewrite H1.
  destruct s; reflexivity.
Qed.

Lemma lstrip_plain (s : string) :
  text.all_chars (fun c => negb (text.isspace c)) s = true ->
  text.lstrip s = s.
Proof.
  destruct s as [|c s]; simpl; [reflexivity|].
  intros H. apply andb_prop in H. destruct H as [H1 _].
  apply negb_true_iff in H1. rewrite H1. reflexivity.
Qed.

Lemma remove_char_plain x (s : string) :
  text.all_chars (fun c => negb (Ascii.eqb c x)) s = true ->
  text.remove_char x s = s.
Proof.
  induction s as [|c s IH]; simpl; [reflexivity|].
  intros H. apply andb_prop in H. destruct H as [H1 H2].
  apply negb_true_iff in H1. rewrite H1, (IH H2). reflexivity.
Qed.

Lemma span_digits_all (s : string) :
  text.all_digits s = true -> text.span_digits s = (s, EmptyString).
Proof.
  induction s as [|c s IH]; simpl; [reflexivity|].
  intros H. apply andb_prop in H. destruct H as [H1 H2].
  rewrite H1, (IH H2). reflexivity.
Qed.

Lemma span_digits_point (s t : string) :
  text.all_digits s = true ->
  text.span_digits (s ++ String "." t) = (s, String "."%char t).
Proof.
  induction s as [|c s IH]; simpl; [reflexivity|].
  intros H. apply andb_prop in H. destruct H as [H1 H2].
  rewrite H1, (IH H2). reflexivity.
Qed.

Variables (ip : string) (fp : option string).
Hypothesis ip_digits : text.all_digits ip = true.
Hypothesis fp_digits : text.all_digits (fraction fp) = true.
Hypothesis some_digit : (ip ++ fraction fp)%string <> EmptyString.

Lemma parse_finite_numeral sign :
  decimal.parse_finite sign (numeral false ip fp)
  = Some (Finite sign (text.digits_value 0 (ip ++ fraction fp))
                 (- Z.of_nat (String.length (fraction fp)))).
Proof.
  unfold decimal.parse_finite, numeral. simpl append.
  destruct fp as [d|]; simpl fraction in *.
  - rewrite (span_digits_point ip d ip_digits).
    rewrite Ascii.eqb_refl, (span_digits_all d fp_digits).
    destruct (ip ++ d)%string; [contradiction some_digit; reflexivity|].
    reflexivity.
  - rewrite append_empty in *. rewrite (span_digits_all ip ip_digits).
    rewrite append_empty.
    destruct ip; [contradiction some_digit; reflexivity|]. reflexivity.
Qed.

Lemma numeral_is_plain p neg :
  (forall c, text.isdigit c = true -> p c = true) ->
  p "-"%char = true -> p "."%char = true ->
  text.all_chars p (numeral neg ip fp) = true.
Proof.
  intros Hd Hm Hp. unfold numeral. rewrite !all_chars_app.
  rewrite (all_digits_chars p ip Hd ip_digits).
  assert (H1 : text.all_chars p (if neg then "-" else "") = true)
    by (destruct neg; simpl; [rewrite Hm|]; reflexivity).
  assert (H2 : text.all_chars p match fp with
                                | Some d => String "." d
                                | None => EmptyString
                                end = true).
  { destruct fp as [d|]; simpl; [|reflexivity].
    rewrite Hp. exact (all_digits_chars p d Hd fp_digits). }
  rewrite H1, H2. reflexivity.
Qed.

Lemma split_sign_numeral neg :
  decimal.split_sign (numeral neg ip fp) = (neg, numeral false ip fp).
Proof.
  destruct neg; [reflexivity|].
  unfold numeral. simpl append.
  destruct ip as [|c s] eqn:E.
  - destruct fp as [d|]; reflexivity.
  - simpl in ip_digits. apply andb_prop in ip_digits.
    destruct ip_digits as [H _].
    destruct (digit_is_plain c H) as [_ [_ [H1 H2]]].
    simpl. rewrite H1, H2. reflexivity.
Qed.

Lemma of_str_numeral neg :
  decimal.of_str (numeral neg ip fp)
  = Some (Finite neg (text.digits_value 0 (ip ++ fraction fp))
                 (- Z.of_nat (String.length (fraction fp)))).
Proof.
  unfold decimal.of_str, text.strip.
  rewrite lstrip_plain, rstrip_plain, remove_char_plain.
  - rewrite split_sign_numeral, parse_finite_numeral. reflexivity.
  - apply numeral_is_plain; [|reflexivity|reflexivity].
    intros c H. destruct (digit_is_plain c H) as [_ [H1 _]].
    rewrite H1. reflexivity.
  - apply numeral_is_plain; [|reflexivity|reflexivity].
    intros c H. destruct (digit_is_plain c H) as [H1 _].
    rewrite H1. reflexivity.
  - apply numeral_is_plain; [|reflexivity|reflexivity].
    intros c H. destruct (digit_is_plain c H) as [H1 _].
    rewrite H1. reflexivity.
Qed.

End Numerals.

(** X18.  [parse_decimal] reads a plain numeral exactly: for a text that,
    once stripped and without its commas, is an optional minus sign, digits
    and, after a point, fraction digits (one digit at least), the result is
    the Decimal whose coefficient is the number the digits write and whose
    exponent is minus the number of fraction digits - no digit is rounded
    away, trailing zeros are kept, and the default is not used. *)
Theorem parse_decimal_reads_numerals_exactly :
  forall (s : string) (neg : bool) (ip : string) (fp : option string)
         (default : Decimal),
    cleaned s = numeral neg ip fp ->
    text.all_digits ip = true ->
    text.all_digits (fraction fp) = true ->
    (ip ++ fraction fp)%string <> EmptyString ->
    parse_decimal (Some s) default
    = Ok (Finite neg (text.digits_value 0 (ip ++ fraction fp))
                 (- Z.of_nat (String.length (fraction fp)))).
Proof.
  intros s neg ip fp default Hs Hi Hf Hd.
  rewrite parse_decimal_eq, Hs, (of_str_numeral ip fp Hi Hf Hd neg).
  reflexivity.
Qed.

Lemma parse_decimal_numeral_witness :
  parse_decimal (Some " -12,345.600 ") decimal.zero
  = Ok (Finite true 12345600 (-3)).
Proof.
  apply (parse_decimal_reads_numerals_exactly
           " -12,345.600 " true "12345" (Some "600"%string) decimal.zero).
  - reflexivity.
  - reflexivity.
  - reflexivity.
  - discriminate.
Defined.


(** ** A product named twice in one file *)

Lemma overwrite_other_keys pid ts cost t :
  find (same_key pid ts) t = None -> overwrite pid ts cost t = t.
Proof.
  intros H. unfold overwrite. rewrite <- (map_id t) at 2.
  apply map_ext_in. intros r Hr.
  rewrite (find_none _ _ H r Hr). reflexivity.
Qed.

Lemma overwrite_inserted pid ts cost1 cost2 t :
  find (same_key pid ts) t = None ->
  overwrite pid ts cost2 (t ++ [mk_price pid cost1 ts])
  = t ++ [mk_price pid cost2 ts].
Proof.
  intros H. unfold overwrite. rewrite map_app.
  fold (overwrite pid ts cost2 t).
  rewrite (overwrite_other_keys pid ts cost2 t H). simpl.
  unfold same_key. simpl. rewrite !Z.eqb_refl. reflexivity.
Qed.

Lemma reconcile_newer pid cost ts c w :
  faults w = None ->
  find (same_key pid ts) (product_price (view w)) = None ->
  (forall cur, latest_cost pid (view w) = Some cur ->
               decimal.ne cur cost = Ok true) ->
  exists c' l,
    reconcile_price pid cost (Some ts) c w
    = (Ok c', printed l (in_transaction (inserted pid cost ts (view w))
                                        (in_transaction (view w) w))) /\
    price_events c' = S (price_events c).
Proof.
  intros Hf Hfind Hcur.
  rewrite (reconcile_price_ok pid cost ts c w Hf).
  unfold reconcile_price_result, insert_product_price_result.
  rewrite view_in_transaction, Hfind.
  destruct (latest_cost pid (view w)) as [cur|].
  - rewrite (Hcur cur eq_refl). do 2 eexists. split; [reflexivity|].
    unfold price_events. simpl. lia.
  - do 2 eexists. split; [reflexivity|]. unfold price_events. simpl. lia.
Qed.

(** X19.  A product that a run with a price time stamp meets twice with
    different costs ends with one observation for the run: when the store
    does not fail, the second cost is a finite number and the time stamp is
    newer than the history of the product, reconciling at that time stamp a
    first cost that differs from the latest one and then a second cost that
    differs from the first leaves the former history followed by a single
    observation at the time stamp, written with the second cost - the second
    reconciliation overwrites what the first inserted; the latest-price query
    then answers a cost equal, as a number, to the second cost, and the
    counters record two price events. *)
Theorem repeated_product_keeps_last_cost :
  forall (pid : Z) (cost1 cost2 : Decimal) (ts : datetime) (c : counters)
         (w : world),
    faults w = None ->
    is_finite cost2 = true ->
    (forall r, In r (history pid (product_price (view w))) ->
               pp_created_when r < ts) ->
    (forall cur, latest_cost pid (view w) = Some cur ->
                 decimal.ne cur cost1 = Ok true) ->
    decimal.ne cost1 cost2 = Ok true ->
    exists c1 w1 c2 w2 read,
      reconcile_price pid cost1 (Some ts) c w = (Ok c1, w1) /\
      reconcile_price pid cost2 (Some ts) c1 w1 = (Ok c2, w2) /\
      product_price (view w2)
      = product_price (view w) ++ [mk_price pid cost2 ts] /\
      fst (get_latest_product_price pid w2) = Ok (Some read) /\
      decimal.ne read cost2 = Ok false /\
      price_events c2 = (price_events c + 2)%nat.
Proof.
  intros pid cost1 cost2 ts c w Hf Hfin Hnew Hcur Hne.
  assert (Hfind : find (same_key pid ts) (product_price (view w)) = None).
  { destruct (find (same_key pid ts) (product_price (view w))) as [row|] eqn:E;
      [|reflexivity].
    destruct (find_key_history pid ts _ _ E) as [Hin Hts].
    specialize (Hnew row Hin). lia. }
  assert (Hlatest : forall cost,
             latest_cost pid (inserted pid cost ts (view w)) = Some cost).
  { intros cost. rewrite latest_cost_inserted.
    destruct (latest pid None (product_price (view w))) as [b|] eqn:E;
      [|reflexivity].
    assert (Hb : In b (history pid (product_price (view w)))).
    { apply history_In. split.
      - destruct (latest_in _ _ _ _ E) as [H|H]; [discriminate|exact H].
      - apply (latest_product pid _ _ _ E). discriminate. }
    specialize (Hnew b Hb). apply Z.ltb_lt in Hnew. rewrite Hnew.
    reflexivity. }
  destruct (reconcile_newer pid cost1 ts c w Hf Hfind Hcur)
    as [c1 [l [E1 Hc1]]].
  set (w1 := printed l (in_transaction (inserted pid cost1 ts (view w))
                                       (in_transaction (view w) w))) in *.
  assert (Hf1 : faults w1 = None) by exact Hf.
  assert (Hv1 : view w1 = inserted pid cost1 ts (view w)) by reflexivity.
  exists c1, w1. rewrite E1.
  rewrite (reconcile_price_ok pid cost2 ts c1 w1 Hf1).
  unfold reconcile_price_result, insert_product_price_result.
  rewrite view_in_transaction, Hv1, (Hlatest cost1), Hne.
  assert (Hfind1 : find (same_key pid ts)
                        (product_price (inserted pid cost1 ts (view w)))
                   = Some (mk_price pid cost1 ts))
    by (apply find_inserted; exact Hfind).
  rewrite Hfind1. simpl pp_cost_per_unit. rewrite Hne.
  do 2 eexists. exists cost2. split; [reflexivity|]. split; [reflexivity|].
  rewrite view_printed, view_in_transaction.
  assert (Hover : overwritten pid cost2 ts (inserted pid cost1 ts (view w))
                  = inserted pid cost2 ts (view w)).
  { unfold overwritten, inserted. simpl.
    rewrite (overwrite_inserted pid ts cost1 cost2 _ Hfind). reflexivity. }
  rewrite Hover. split; [reflexivity|]. split.
  { unfold get_latest_product_price. rewrite fetch_ok by exact Hf.
    simpl fst. f_equal. exact (Hlatest cost2). }
  split; [apply ne_refl, finite_is_number, Hfin|].
  unfold price_events, count_updated in *. simpl. lia.
Qed.

Lemma repeated_product_witness :
  exists c1 w1 c2 w2,
    reconcile_price 1 (dec 600 (-2)) (Some 9) no_counts
                    (world_with_prices [mk_price 1 (dec 500 (-2)) 3])
    = (Ok c1, w1) /\
    reconcile_price 1 (dec 700 (-2)) (Some 9) c1 w1 = (Ok c2, w2) /\
    product_price (view w2)
    = [mk_price 1 (dec 500 (-2)) 3; mk_price 1 (dec 700 (-2)) 9].
Proof.
  destruct (repeated_product_keeps_last_cost 1 (dec 600 (-2)) (dec 700 (-2))
              9 no_counts
              (world_with_prices [mk_price 1 (dec 500 (-2)) 3])
              eq_refl eq_refl)
    as [c1 [w1 [c2 [w2 [read [E1 [E2 [H _]]]]]]]].
  - intros r [<-|[]]. reflexivity.
  - intros cur H. vm_compute in H. injection H as <-. reflexivity.
  - reflexivity.
  - exists c1, w1, c2, w2. split; [exact E1|]. split; [exact E2|exact H].
Defined.

(** ** The header check *)

Lemma check_header_accepts required names :
  names <> [] ->
  (forall c, In c required -> In c (map text.strip names)) ->
  check_header required (Some names) = Ok tt.
Proof.
  intros Hn Hreq. unfold check_header.
  destruct names as [|n names]; [contradiction Hn; reflexivity|].
  fold (missing_cols required (n :: names)).
  destruct (missing_cols required (n :: names)) as [|m ms] eqn:E;
    [reflexivity|].
  assert (Hm : In m (missing_cols required (n :: names)))
    by (rewrite E; left; reflexivity).
  apply missing_cols_In in Hm. destruct Hm as [H1 H2].
  contradiction (H2 (Hreq m H1)).
Qed.

(** X20.  The bill reader accepts a file exactly when it has a header row
    that holds the five bill columns once the names are stripped - the order
    of the columns, further columns, repeated names and blanks around the
    names do not matter, and no cell is looked at; it then returns one row
    for each record that is not empty. *)
Theorem bill_reader_accepts_by_header :
  forall (f : csv_file),
    ((exists rows, import_bill.read_bill_csv f = Ok rows) <->
     (exists names,
         DictReader_fieldnames f = Some names /\ names <> [] /\
         forall c, In c import_bill.required_cols ->
                   In c (map text.strip names))) /\
    (forall rows,
        import_bill.read_bill_csv f = Ok rows ->
        List.length rows = List.length (records f)).
Proof.
  intros f. split.
  - unfold import_bill.read_bill_csv, obind. split.
    + intros [rows H].
      destruct (check_header import_bill.required_cols
                  (DictReader_fieldnames f)) as [[]|e] eqn:E;
        [|discriminate].
      exact (check_header_ok _ _ E).
    + intros [names [Hf [Hn Hreq]]].
      rewrite Hf, (check_header_accepts _ _ Hn Hreq).
      eexists. reflexivity.
  - intros rows. unfold import_bill.read_bill_csv, obind.
    destruct (check_header import_bill.required_cols
                (DictReader_fieldnames f)); [|discriminate].
    intros H. injection H as <-. rewrite length_map.
    unfold DictReader_rows, records. destruct f as [|h recs];
      [reflexivity|]. rewrite length_map. reflexivity.
Qed.


(** ** Reconciling the same triple twice *)

(** Where nothing is left to do for the triple, the reconciliation changes
    nothing, and what it prints is decided by the latest cost. *)
Lemma reconcile_settled pid cost ts c w :
  faults w = None ->
  at_rest pid cost ts (view w) ->
  exists w',
    reconcile_price pid cost (Some ts) c w = (Ok c, w') /\
    view w' = view w /\ persisted w' = persisted w /\
    match latest_cost pid (view w) with
    | Some cur =>
        (decimal.ne cur cost = Ok false /\
         stdout w' = stdout w ++ [PriceUnchanged pid cost]) \/
        (decimal.ne cur cost = Ok true /\ settled pid cost ts (view w) /\
         stdout w' = stdout w)
    | None => settled pid cost ts (view w) /\ stdout w' = stdout w
    end.
Proof.
  intros Hf Hr. rewrite (reconcile_price_ok pid cost ts c w Hf).
  unfold reconcile_price_result, insert_product_price_result, at_rest in *.
  rewrite view_in_transaction.
  destruct (latest_cost pid (view w)) as [cur|].
  - destruct Hr as [Heq|[Hne [row [Hfind Hrow]]]].
    + rewrite Heq. eexists. split; [reflexivity|].
      split; [reflexivity|]. split; [reflexivity|]. left.
      split; reflexivity.
    + rewrite Hne, Hfind, Hrow. eexists. split; [reflexivity|].
      split; [reflexivity|]. split; [reflexivity|]. right.
      split; [reflexivity|]. split; [|reflexivity].
      exists row. split; assumption.
  - destruct Hr as [row [Hfind Hrow]]. rewrite Hfind, Hrow.
    eexists. split; [reflexivity|]. split; [reflexivity|].
    split; [reflexivity|]. split; [|reflexivity].
    exists row. split; assumption.
Qed.

Lemma latest_is_newest pid d l :
  latest pid None (product_price d) = Some l -> newest pid l d.
Proof.
  intros El. split.
  - apply history_In. split.
    + destruct (latest_in _ _ _ _ El) as [H|H]; [discriminate|exact H].
    + apply (latest_product pid _ _ _ El). discriminate.
  - intros r Hr. apply history_In in Hr. destruct Hr as [Hin Hp].
    exact (proj2 (latest_bounds pid _ _ _ El) r Hin Hp).
Qed.

(** C3 (amended).  After a reconciliation of a (product, time stamp, cost)
    with a finite cost has come back, a second reconciliation of the same
    triple comes back as well, counts neither an insert nor an update and
    leaves the store - hence the number of observations - as the first one
    left it.  What it prints is decided by a newest observation of the
    product: "Price unchanged" when that one holds the cost, and nothing when
    it holds another cost - it is then not older than the triple. *)
Theorem second_reconciliation_changes_nothing :
  forall (pid : Z) (cost : Decimal) (ts : datetime) (c1 c1' c2 : counters)
         (w w1 : world),
    faults w = None ->
    is_finite cost = true ->
    reconcile_price pid cost (Some ts) c1 w = (Ok c1', w1) ->
    exists w2 l,
      reconcile_price pid cost (Some ts) c2 w1 = (Ok c2, w2) /\
      view w2 = view w1 /\
      persisted w2 = persisted w1 /\
      List.length (history pid (product_price (view w2)))
      = List.length (history pid (product_price (view w1))) /\
      newest pid l (view w1) /\
      ((decimal.ne (pp_cost_per_unit l) cost = Ok false /\
        stdout w2 = stdout w1 ++ [PriceUnchanged pid cost]) \/
       (decimal.ne (pp_cost_per_unit l) cost = Ok true /\
        ts <= pp_created_when l /\
        stdout w2 = stdout w1)).
Proof.
  intros pid cost ts c1 c1' c2 w w1 Hf Hfin H1.
  destruct (at_rest_after pid cost ts (finite_is_number cost Hfin)
              c1 c1' w w1 Hf H1) as [Hf1 Hrest].
  destruct (reconcile_settled pid cost ts c2 w1 Hf1 Hrest)
    as [w2 [E [Hv [Hp Hout]]]].
  assert (Hkey : settled pid cost ts (view w1) ->
                 exists row, In row (history pid (product_price (view w1))) /\
                             pp_created_when row = ts).
  { intros [row [Hfind _]]. exists row.
    exact (find_key_history pid ts _ _ Hfind). }
  unfold latest_cost in Hout.
  destruct (latest pid None (product_price (view w1))) as [l|] eqn:El;
    simpl in Hout.
  - pose proof (latest_is_newest pid (view w1) l El) as Hnew.
    exists w2, l. split; [exact E|]. split; [exact Hv|]. split; [exact Hp|].
    split; [rewrite Hv; reflexivity|]. split; [exact Hnew|].
    destruct Hout as [[Hne Ho]|[Hne [Hset Ho]]]; [left; auto|right].
    split; [exact Hne|]. split; [|exact Ho].
    destruct (Hkey Hset) as [row [Hin Hts]]. rewrite <- Hts.
    exact (proj2 Hnew row Hin).
  - exfalso. destruct Hout as [Hset _].
    destruct (Hkey Hset) as [row [Hin _]].
    apply (latest_none pid) in El. rewrite El in Hin. exact Hin.
Qed.

Lemma second_reconciliation_witness :
  exists w2,
    reconcile_price 1 (dec 500 (-2)) (Some 1) (mk_counters 1 0 1)
      (snd (reconcile_price 1 (dec 500 (-2)) (Some 1) no_counts
                            (world_with_prices [])))
    = (Ok (mk_counters 1 0 1), w2) /\
    product_price (view w2) = [mk_price 1 (dec 500 (-2)) 1].
Proof.
  destruct (second_reconciliation_changes_nothing 1 (dec 500 (-2)) 1
              no_counts (mk_counters 0 0 1) (mk_counters 1 0 1)
              (world_with_prices [])
              (snd (reconcile_price 1 (dec 500 (-2)) (Some 1) no_counts
                                    (world_with_prices [])))
              eq_refl eq_refl eq_refl) as [w2 [l [E [Hv _]]]].
  exists w2. split; [exact E|]. rewrite Hv. reflexivity.
Defined.

(** C3 as stated fails twice over.  With the history (1, 5.00, t10), the
    triple (1, 6.00, t2) is inserted by the first reconciliation ("Price
    updated"); the second one finds the latest cost 5.00, different, and the
    row at the key equal: it prints nothing, so it does not signal
    "unchanged".  And for the cost NaN, which differs from itself, the second
    reconciliation counts and reports an update. *)
Lemma second_reconciliation_is_not_always_unchanged :
  (fst (reconcile_price 1 (dec 600 (-2)) (Some 2) no_counts
          (world_with_prices [mk_price 1 (dec 500 (-2)) 10]))
   = Ok (mk_counters 0 1 0) /\
   fst (reconcile_price 1 (dec 600 (-2)) (Some 2) (mk_counters 0 1 0)
          (snd (reconcile_price 1 (dec 600 (-2)) (Some 2) no_counts
                  (world_with_prices [mk_price 1 (dec 500 (-2)) 10]))))
   = Ok (mk_counters 0 1 0) /\
   stdout (snd (reconcile_price 1 (dec 600 (-2)) (Some 2) (mk_counters 0 1 0)
                  (snd (reconcile_price 1 (dec 600 (-2)) (Some 2) no_counts
                          (world_with_prices
                             [mk_price 1 (dec 500 (-2)) 10])))))
   = [PriceUpdated 1 (dec 500 (-2)) (dec 600 (-2))]) /\
  (fst (reconcile_price 1 (NaN false false 0) (Some 2) (mk_counters 0 0 1)
          (snd (reconcile_price 1 (NaN false false 0) (Some 2) no_counts
                  (world_with_prices []))))
   = Ok (mk_counters 0 1 1) /\
   stdout (snd (reconcile_price 1 (NaN false false 0) (Some 2)
                  (mk_counters 0 0 1)
                  (snd (reconcile_price 1 (NaN false false 0) (Some 2)
                          no_counts (world_with_prices [])))))
   = [NewPrice 1 (NaN false false 0);
      PriceUpdated 1 (NaN false false 0) (NaN false false 0)]).
Proof. vm_compute. repeat split. Qed.

(** ** A bill whose header pads its column names *)

(** C4.  At [padded_bill], whose header writes the quantity and the total
    columns after a blank, the header check passes and the import succeeds,
    but the quantity and the line total of the row are not found under their
    names: the bill is posted with subtotal 0.00 where the row supplies
    2 x 10.00, with total 4.00, and its item with quantity 0 and line total 0
    where the row supplies 20.00.  The same row under a header without the
    blanks is posted with subtotal 20.00 and line total 20.00. *)
Theorem padded_bill_header_posts_zero :
  fst (import_bill.import_bill padded_bill "bill.csv" None None
         (dec 300 (-2)) "USD" None None None (world_with_prices []))
  = Ok tt /\
  persisted (snd (import_bill.import_bill padded_bill "bill.csv" None None
                    (dec 300 (-2)) "USD" None None None
                    (world_with_prices [])))
  = posted (mk_bill 1 None None "bill.csv" None "USD" (dec 0 (-2))
                    (dec 100 (-2)) (dec 300 (-2)) (dec 400 (-2)) None)
           [mk_bill_item 1 None (Some "flour"%string) decimal.zero None
                         (dec 1000 (-2)) decimal.zero]
           empty_db /\
  persisted (snd (import_bill.import_bill
                    [map text.strip (hd [] padded_bill);
                     ["flour"; "2"; "10.00"; "1.00"; "20.00"]]
                    "bill.csv" None None (dec 300 (-2)) "USD" None None None
                    (world_with_prices [])))
  = posted (mk_bill 1 None None "bill.csv" None "USD" (dec 2000 (-2))
                    (dec 100 (-2)) (dec 300 (-2)) (dec 2400 (-2)) None)
           [mk_bill_item 1 None (Some "flour"%string) (dec 2 0) None
                         (dec 1000 (-2)) (dec 2000 (-2))]
           empty_db.
Proof. vm_compute. repeat split. Qed.

(** ** An invalid product identifier in a record longer than the header *)

(** C8.  At [long_invalid_record], whose first record has an identifier that
    is no integer and one field more than the header, the reader does not
    skip the record: it raises an AttributeError while it cleans the record,
    before it looks at the identifier; no warning is printed, no row is
    returned - the valid record after it is not read - and the import ends
    with that error.  Without the surplus field the record is skipped with a
    warning and the next one returned. *)
Theorem invalid_id_in_long_record_is_fatal :
  read_product_csv long_invalid_record (world_with_prices [])
  = (Raise AttributeError, world_with_prices []) /\
  import_product_csv long_invalid_record true (Some 9) (world_with_prices [])
  = (Raise AttributeError, world_with_prices []) /\
  read_product_csv [["product_id"; "product_name"]; ["x1"; "pear"];
                    ["2"; "fig"]]
                   (world_with_prices [])
  = (Ok [[("product_id", VInt 2); ("product_name", VStr "fig")]],
     printed (WarnInvalidProductId (Some "x1"%string)) (world_with_prices [])).
Proof. vm_compute. repeat split. Qed.
